(** * Coffee_Backend: the inventory-consistent transactional engine

    A shallow embedding of the server's resilience layer ([server/db.ts]),
    its health middleware ([server/middleware/db-health.ts]), the storage
    facade ([server/storage.ts]) and the two catalogue handlers that mutate
    inventory ([server/catalogue-routes.ts]), with the properties the design
    document states about them.

    Conventions.  JavaScript numbers that hold counts are [Z]; prices are
    exact rationals [Q]; strings are [string]; a nullable column is an
    [option].  An [async] function becomes a computation in the monad [M]
    below: it threads the process and the database ([World]) and either
    returns or throws.  A throw does not undo what the computation already
    did to the world, as in JavaScript. *)

From Stdlib Require Import ZArith QArith String Ascii List Bool Lia.
From stdpp Require Import gmap strings.
Import ListNotations.

Local Open Scope string_scope.
Local Open Scope list_scope.
Local Open Scope Z_scope.

(** ** JavaScript values used by the code *)

(** [s.includes(sub)] *)
Fixpoint includes (s sub : string) : bool :=
  if String.prefix sub s then true
  else match s with
       | EmptyString => false
       | String _ s' => includes s' sub
       end.

(** [xs.includes(x)] for an array of strings and a possibly undefined [x] *)
Definition array_includes (xs : list string) (x : option string) : bool :=
  match x with
  | Some c => existsb (String.eqb c) xs
  | None => false
  end.

(** [x || d] on a nullable number: null and 0 are falsy *)
Definition or_default (x : option Z) (d : Z) : Z :=
  match x with
  | Some v => if v =? 0 then d else v
  | None => d
  end.

(** [x || d] on a nullable price *)
Definition or_defaultQ (x : option Q) (d : Q) : Q :=
  match x with
  | Some v => if Qeq_bool v 0 then d else v
  | None => d
  end.

(** An [Error] object as the code inspects it: the driver's [code]
    (SQLSTATE, absent on plain errors) and the [message]. *)
Record JsError := mkError { code : option string; message : string }.

(** What a [throw] carries: an error object, or [undefined] (the value of
    an unassigned [let]). *)
Inductive Thrown :=
| ThrownError (e : JsError)
| ThrownUndefined.

Definition plainError (msg : string) : Thrown :=
  ThrownError (mkError None msg).

Inductive Result (A : Type) :=
| Ok (a : A)
| Throw (t : Thrown).
Arguments Ok {A} a.
Arguments Throw {A} t.

(** ** The database

    Tables are lists of rows, in insertion order.  A [select ... where]
    filters, an [update ... where] rewrites every matching row, an
    [insert] appends.  The schema module ([@shared/schema]) is not part of
    the sources at hand: the columns below are the ones the code reads and
    writes, nullable where the code guards against null. *)

Record GeneratedImage := mkImage {
  img_id : string;
  img_userId : string;
  img_generatedPath : string;
  img_originalPath : string;
  img_style : string;
  img_name : option string;
  img_momentLink : option string;
  img_city : option string;
  img_isPublic : bool;
  img_isApproved : bool;
  img_editionPricingType : option string;
  img_supplyType : option string;
  img_totalSupply : option Z;
  img_soldCount : option Z;
  img_pricePerUnit : option Q
}.

(** [postersForSale] is a non-negative integer counter in the design's
    data model; [subscriptionEndDate] is a timestamp in milliseconds. *)
Record User := mkUser {
  usr_email : string;
  usr_userType : string;
  usr_subscriptionStatus : option string;
  usr_subscriptionEndDate : option Z;
  usr_postersForSale : Z
}.

Record InsertPosterPurchase := mkInsertPurchase {
  ipp_userEmail : string;
  ipp_imageId : string;
  ipp_editionNumber : Z;
  ipp_purchaseDate : Z;
  ipp_amountPaid : Q
}.

Record PosterPurchase := mkPurchase {
  pp_id : Z;
  pp_userEmail : string;
  pp_imageId : string;
  pp_editionNumber : Z;
  pp_purchaseDate : Z;
  pp_amountPaid : Q
}.

Record ShippingData := mkShipping {
  ship_firstName : string;
  ship_lastName : string;
  ship_email : string;
  ship_address : string;
  ship_city : string;
  ship_state : string;
  ship_zipCode : string;
  ship_country : string
}.

(** An order row: the shipping fields, the confirmation number behind the
    [LED-] prefix, and the fulfilment fields the purchase handler sets. *)
Record Order := mkOrder {
  ord_shipping : ShippingData;
  ord_confirmationId : Z;
  ord_quantity : Z;
  ord_amount : Q;
  ord_posterImageUrl : string;
  ord_originalImageUrl : string;
  ord_editionNumber : Z;
  ord_totalSupply : option Z;
  ord_status : string
}.

Record Database := mkDatabase {
  generatedImages : list GeneratedImage;
  users : list User;
  posterPurchases : list PosterPurchase;
  orders : list Order;
  (** whether [poster_purchases] carries the uniqueness constraint on
      (image, edition) that the design's storage layout asks for *)
  uniqueEditions : bool
}.

(** [Partial<GeneratedImage>]: the columns a [.set(...)] assigns. *)
Record ImageUpdate := mkImageUpdate {
  set_isPublic : option bool;
  set_isApproved : option bool;
  set_name : option (option string);
  set_momentLink : option (option string);
  set_city : option (option string);
  set_editionPricingType : option (option string);
  set_totalSupply : option (option Z);
  set_soldCount : option (option Z);
  set_pricePerUnit : option (option Q)
}.

Definition noUpdate : ImageUpdate :=
  mkImageUpdate None None None None None None None None None.

Definition assign {A} (new : option A) (old : A) : A :=
  match new with Some v => v | None => old end.

Definition applyImageUpdate (u : ImageUpdate) (i : GeneratedImage) : GeneratedImage :=
  {| img_id := img_id i;
     img_userId := img_userId i;
     img_generatedPath := img_generatedPath i;
     img_originalPath := img_originalPath i;
     img_style := img_style i;
     img_name := assign (set_name u) (img_name i);
     img_momentLink := assign (set_momentLink u) (img_momentLink i);
     img_city := assign (set_city u) (img_city i);
     img_isPublic := assign (set_isPublic u) (img_isPublic i);
     img_isApproved := assign (set_isApproved u) (img_isApproved i);
     img_editionPricingType := assign (set_editionPricingType u) (img_editionPricingType i);
     img_supplyType := img_supplyType i;
     img_totalSupply := assign (set_totalSupply u) (img_totalSupply i);
     img_soldCount := assign (set_soldCount u) (img_soldCount i);
     img_pricePerUnit := assign (set_pricePerUnit u) (img_pricePerUnit i) |}.

(** [Partial<User>] as the subscription webhooks use it. *)
Record UserUpdate := mkUserUpdate {
  set_userType : option string;
  set_subscriptionStatus : option (option string);
  set_subscriptionEndDate : option (option Z)
}.

Definition applyUserUpdate (u : UserUpdate) (r : User) : User :=
  {| usr_email := usr_email r;
     usr_userType := assign (set_userType u) (usr_userType r);
     usr_subscriptionStatus := assign (set_subscriptionStatus u) (usr_subscriptionStatus r);
     usr_subscriptionEndDate := assign (set_subscriptionEndDate u) (usr_subscriptionEndDate r);
     usr_postersForSale := usr_postersForSale r |}.

Definition setPostersForSale (f : Z -> Z) (r : User) : User :=
  {| usr_email := usr_email r;
     usr_userType := usr_userType r;
     usr_subscriptionStatus := usr_subscriptionStatus r;
     usr_subscriptionEndDate := usr_subscriptionEndDate r;
     usr_postersForSale := f (usr_postersForSale r) |}.

(** The statements the code sends that change rows. *)
Inductive Statement :=
| UpdateImage (id : string) (u : ImageUpdate)
    (* update(generatedImages).set(u).where(eq(generatedImages.id, id)) *)
| IncrementPosters (email : string)
    (* set({ postersForSale: sql`postersForSale + 1` }).where(eq(users.email, email)) *)
| DecrementPosters (email : string)
    (* set({ postersForSale: sql`GREATEST(0, postersForSale - 1)` }) *)
| UpdateUser (email : string) (u : UserUpdate)
| InsertPurchase (p : InsertPosterPurchase)
| InsertOrder (o : Order).

Definition updateWhere {A} (p : A -> bool) (f : A -> A) (rows : list A) : list A :=
  map (fun r => if p r then f r else r) rows.

Definition withImages (d : Database) (l : list GeneratedImage) : Database :=
  mkDatabase l (users d) (posterPurchases d) (orders d) (uniqueEditions d).
Definition withUsers (d : Database) (l : list User) : Database :=
  mkDatabase (generatedImages d) l (posterPurchases d) (orders d) (uniqueEditions d).
Definition withPurchases (d : Database) (l : list PosterPurchase) : Database :=
  mkDatabase (generatedImages d) (users d) l (orders d) (uniqueEditions d).
Definition withOrders (d : Database) (l : list Order) : Database :=
  mkDatabase (generatedImages d) (users d) (posterPurchases d) l (uniqueEditions d).

(** The serial key of the next purchase row. *)
Definition nextPurchaseId (d : Database) : Z :=
  Z.of_nat (length (posterPurchases d)) + 1.

Definition purchaseRow (d : Database) (p : InsertPosterPurchase) : PosterPurchase :=
  mkPurchase (nextPurchaseId d) (ipp_userEmail p) (ipp_imageId p)
             (ipp_editionNumber p) (ipp_purchaseDate p) (ipp_amountPaid p).

Definition sameEdition (imageId : string) (n : Z) (r : PosterPurchase) : bool :=
  String.eqb (pp_imageId r) imageId && (pp_editionNumber r =? n).

(** SQLSTATE 23505, what the store answers to a duplicate key. *)
Definition uniqueViolation : JsError :=
  mkError (Some "23505")
          "duplicate key value violates unique constraint".

(** The effect of one statement on the rows; an insert that breaks the
    uniqueness constraint is refused and changes nothing. *)
Definition execute (s : Statement) (d : Database) : Result Database :=
  match s with
  | UpdateImage id u =>
      Ok (withImages d (updateWhere (fun i => String.eqb (img_id i) id)
                                    (applyImageUpdate u) (generatedImages d)))
  | IncrementPosters e =>
      Ok (withUsers d (updateWhere (fun r => String.eqb (usr_email r) e)
                                   (setPostersForSale (fun n => n + 1)) (users d)))
  | DecrementPosters e =>
      Ok (withUsers d (updateWhere (fun r => String.eqb (usr_email r) e)
                                   (setPostersForSale (fun n => Z.max 0 (n - 1))) (users d)))
  | UpdateUser e u =>
      Ok (withUsers d (updateWhere (fun r => String.eqb (usr_email r) e)
                                   (applyUserUpdate u) (users d)))
  | InsertPurchase p =>
      if uniqueEditions d
         && existsb (sameEdition (ipp_imageId p) (ipp_editionNumber p)) (posterPurchases d)
      then Throw (ThrownError uniqueViolation)
      else Ok (withPurchases d (posterPurchases d ++ [purchaseRow d p]))
  | InsertOrder o =>
      Ok (withOrders d (orders d ++ [o]))
  end.

(** ** The world and the monad of asynchronous code

    The query cache of [server/db.ts] is a [NodeCache] (an npm package, not
    repository code).  It is modelled from its documented behaviour: an
    entry carries the time [t] at which it expires, in milliseconds, with
    [t = 0] for an entry that never expires; [get] answers [undefined] for
    a missing key and for an entry with [t <> 0] and [t < Date.now()],
    which it also deletes.  For a live entry it answers the stored value,
    and [null] when the stored value is [undefined] or [null] (its
    [_unwrap] returns the value only if it is not nullish).

    Time is the [clock].  It advances by the delays of [setTimeout] and,
    in the publish handler, which reads the time twice, by what the awaits
    between the two readings take ([lags]); elsewhere a round trip is
    taken to answer at once. *)

Inductive Value :=
| VUndefined
| VNull
| VImage (i : GeneratedImage)
| VPurchases (l : list PosterPurchase)
| VUser (u : User).

(** A transaction handle. *)
Definition Tx := nat.

Record World := mkWorld {
  store : Database;                     (* the committed rows *)
  pending : list (Tx * Statement);      (* statements of open transactions, oldest first *)
  nextTx : Tx;
  queryCache : gmap string (Value * Z);
  clock : Z;                            (* Date.now() *)
  faults : list (option JsError);       (* what the store answers to the coming round trips *)
  sleeps : list Z;                      (* the delays handed to setTimeout, oldest first *)
  lags : list N                         (* how long the awaits of the coming publish
                                           transactions take, in milliseconds *)
}.

Definition withStore (w : World) (d : Database) : World :=
  mkWorld d (pending w) (nextTx w) (queryCache w) (clock w) (faults w) (sleeps w) (lags w).
Definition withPending (w : World) (p : list (Tx * Statement)) : World :=
  mkWorld (store w) p (nextTx w) (queryCache w) (clock w) (faults w) (sleeps w) (lags w).
Definition withNextTx (w : World) (n : Tx) : World :=
  mkWorld (store w) (pending w) n (queryCache w) (clock w) (faults w) (sleeps w) (lags w).
Definition withCache (w : World) (c : gmap string (Value * Z)) : World :=
  mkWorld (store w) (pending w) (nextTx w) c (clock w) (faults w) (sleeps w) (lags w).
Definition withClock (w : World) (t : Z) : World :=
  mkWorld (store w) (pending w) (nextTx w) (queryCache w) t (faults w) (sleeps w) (lags w).
Definition withFaults (w : World) (f : list (option JsError)) : World :=
  mkWorld (store w) (pending w) (nextTx w) (queryCache w) (clock w) f (sleeps w) (lags w).
Definition withSleeps (w : World) (s : list Z) : World :=
  mkWorld (store w) (pending w) (nextTx w) (queryCache w) (clock w) (faults w) s (lags w).
Definition withLags (w : World) (l : list N) : World :=
  mkWorld (store w) (pending w) (nextTx w) (queryCache w) (clock w) (faults w) (sleeps w) l.

Definition M (A : Type) : Type := World -> Result A * World.

#[global] Instance M_ret : MRet M := fun A a w => (Ok a, w).
#[global] Instance M_bind : MBind M := fun A B f m w =>
  match m w with
  | (Ok a, w1) => f a w1
  | (Throw t, w1) => (Throw t, w1)
  end.

Definition throw {A} (t : Thrown) : M A := fun w => (Throw t, w).

Definition gets {A} (f : World -> A) : M A := fun w => (Ok (f w), w).
Definition modify (f : World -> World) : M unit := fun w => (Ok tt, f w).

(** [try { body } catch (error) { handler(error) }] *)
Definition tryCatch {A} (body : M A) (handler : Thrown -> M A) : M A := fun w =>
  match body w with
  | (Ok a, w1) => (Ok a, w1)
  | (Throw t, w1) => handler t w1
  end.

(** [await new Promise(resolve => setTimeout(resolve, ms))] *)
Definition setTimeout (ms : Z) : M unit :=
  modify (fun w => withClock (withSleeps w (sleeps w ++ [ms])) (clock w + ms)).

(** The time the awaits of a publish transaction take: the next entry of
    [lags], nothing when the script is exhausted. *)
Definition awaited : M unit :=
  modify (fun w =>
    match lags w with
    | [] => w
    | ms :: rest => withLags (withClock w (clock w + Z.of_N ms)) rest
    end).

(** One round trip to the store: the next scripted answer decides whether
    it is served.  With the script exhausted the store serves. *)
Definition roundTrip : M unit := fun w =>
  match faults w with
  | [] => (Ok tt, w)
  | None :: rest => (Ok tt, withFaults w rest)
  | Some e :: rest => (Throw (ThrownError e), withFaults w rest)
  end.

(** *** Connections

    [db.<statement>] runs on a pooled connection of its own and commits at
    once.  [tx.<statement>] belongs to the transaction [tx]: it takes
    effect in the committed rows when [tx] commits and never if [tx] rolls
    back.  A transaction reads the committed rows with its own statements
    applied (read committed, the store's default).  BEGIN, COMMIT and
    ROLLBACK themselves are taken to be served. *)

Definition db_execute (s : Statement) : M unit := fun w =>
  match roundTrip w with
  | (Ok _, w1) =>
      match execute s (store w1) with
      | Ok d => (Ok tt, withStore w1 d)
      | Throw t => (Throw t, w1)
      end
  | (Throw t, w1) => (Throw t, w1)
  end.

Definition tx_execute (tx : Tx) (s : Statement) : M unit :=
  roundTrip ;; modify (fun w => withPending w (pending w ++ [(tx, s)])).

Fixpoint applyAll (ss : list Statement) (d : Database) : Database :=
  match ss with
  | [] => d
  | s :: rest =>
      match execute s d with
      | Ok d1 => applyAll rest d1
      | Throw _ => applyAll rest d
      end
  end.

Definition statementsOf (tx : Tx) (p : list (Tx * Statement)) : list Statement :=
  map snd (List.filter (fun e => Nat.eqb (fst e) tx) p).

Definition othersOf (tx : Tx) (p : list (Tx * Statement)) : list (Tx * Statement) :=
  List.filter (fun e => negb (Nat.eqb (fst e) tx)) p.

Definition commit (tx : Tx) (w : World) : World :=
  withPending (withStore w (applyAll (statementsOf tx (pending w)) (store w)))
              (othersOf tx (pending w)).

Definition rollback (tx : Tx) (w : World) : World :=
  withPending w (othersOf tx (pending w)).

Definition begin (w : World) : Tx * World :=
  (nextTx w, withNextTx w (S (nextTx w))).

(** [db.transaction(async (tx) => body)]: commit when the body returns,
    roll back and rethrow when it throws. *)
Definition transaction {A} (body : Tx -> M A) : M A := fun w =>
  let (tx, w0) := begin w in
  match body tx w0 with
  | (Ok a, w1) => (Ok a, commit tx w1)
  | (Throw t, w1) => (Throw t, rollback tx w1)
  end.

Definition selectImages (id : string) (d : Database) : list GeneratedImage :=
  List.filter (fun i => String.eqb (img_id i) id) (generatedImages d).

Definition selectUsers (email : string) (d : Database) : list User :=
  List.filter (fun r => String.eqb (usr_email r) email) (users d).

Definition selectPurchases (imageId : string) (d : Database) : list PosterPurchase :=
  List.filter (fun r => String.eqb (pp_imageId r) imageId) (posterPurchases d).

(** [db.select().from(generatedImages).where(eq(generatedImages.id, id))] *)
Definition db_selectImages (id : string) : M (list GeneratedImage) :=
  roundTrip ;; gets (fun w => selectImages id (store w)).

(** The same through a transaction. *)
Definition tx_selectImages (tx : Tx) (id : string) : M (list GeneratedImage) :=
  roundTrip ;;
  gets (fun w => selectImages id (applyAll (statementsOf tx (pending w)) (store w))).

Definition db_selectUsers (email : string) : M (list User) :=
  roundTrip ;; gets (fun w => selectUsers email (store w)).

Definition db_selectPurchases (imageId : string) : M (list PosterPurchase) :=
  roundTrip ;; gets (fun w => selectPurchases imageId (store w)).

(** [db.insert(posterPurchases).values(p).returning()], reduced to the one
    row it returns. *)
Definition db_insertPurchase (p : InsertPosterPurchase) : M PosterPurchase := fun w =>
  match db_execute (InsertPurchase p) w with
  | (Ok _, w1) => (Ok (purchaseRow (store w) p), w1)
  | (Throw t, w1) => (Throw t, w1)
  end.

Definition db_insertOrder (o : Order) : M Order :=
  db_execute (InsertOrder o) ;; mret o.

(** ** The resilient executor ([server/db.ts]) *)

Definition connectionErrorCodes : list string :=
  ["57P01"; "57P02"; "57P03"; "08006"; "08001"; "08004"; "XX000"].

Definition isConnectionError (error : JsError) : bool :=
  array_includes connectionErrorCodes (code error)
  || includes (message error) "connection"
  || includes (message error) "timeout".

(** What reading [error.code] of [undefined] raises. *)
Definition typeError : Thrown :=
  plainError "Cannot read properties of undefined (reading 'code')".

(** The [for] loop of [executeWithRetry]: [remaining] iterations are left,
    the next one is number [attempt]. *)
Fixpoint retryLoop {T} (queryFn : M T) (remaining : nat) (attempt : Z)
         (lastError : Thrown) : M T :=
  match remaining with
  | O => throw lastError
  | S k =>
      tryCatch queryFn (fun error =>
        match error with
        | ThrownUndefined => throw typeError
        | ThrownError e =>
            if negb (isConnectionError e) then throw error
            else
              setTimeout (100 * 2 ^ attempt) ;;
              retryLoop queryFn k (attempt + 1) error
        end)
  end.

Definition executeWithRetry {T} (queryFn : M T) (maxRetries : Z) : M T :=
  retryLoop queryFn (Z.to_nat maxRetries) 1 ThrownUndefined.

(** The default of the [maxRetries] parameter. *)
Definition defaultRetries : Z := 3.

(** ** The read-through cache ([server/db.ts]) *)

(** [_unwrap]: [value.v != null ? value.v : null] *)
Definition unwrap (v : Value) : Value :=
  match v with
  | VUndefined => VNull
  | _ => v
  end.

(** [queryCache.get(key)] *)
Definition cache_get (key : string) : M Value := fun w =>
  match queryCache w !! key with
  | Some (v, t) =>
      if negb (t =? 0) && (t <? clock w)
      then (Ok VUndefined, withCache w (delete key (queryCache w)))
      else (Ok (unwrap v), w)
  | None => (Ok VUndefined, w)
  end.

(** [queryCache.set(key, value, ttl)], [ttl] in seconds *)
Definition cache_set (key : string) (v : Value) (ttl : Z) : M unit :=
  modify (fun w =>
    let t := if ttl =? 0 then 0 else clock w + ttl * 1000 in
    withCache w (<[key := (v, t)]> (queryCache w))).

(** [queryCache.del(key)] *)
Definition cache_del (key : string) : M unit :=
  modify (fun w => withCache w (delete key (queryCache w))).

Definition cachedQuery (cacheKey : string) (queryFn : M Value) (ttl : Z) : M Value :=
  cached ← cache_get cacheKey;
  match cached with
  | VUndefined =>
      result ← executeWithRetry queryFn defaultRetries;
      cache_set cacheKey result ttl;;
      mret result
  | _ => mret cached
  end.

(** [new RegExp(keyPattern.replace('*', '.*')).test(key)].  The regular
    expression engine is the runtime's; it is modelled for the patterns
    whose only special character is the first [*]: the text before it must
    occur in [key], followed anywhere later by the text after it. *)
Fixpoint splitStar (p : string) : string * string :=
  match p with
  | EmptyString => (EmptyString, EmptyString)
  | String c p' =>
      if Ascii.eqb c "*"%char then (EmptyString, p')
      else let (a, b) := splitStar p' in (String c a, b)
  end.

Fixpoint literalThen (pre s post : string) : bool :=
  match pre with
  | EmptyString => includes s post
  | String c pre' =>
      match s with
      | EmptyString => false
      | String d s' => Ascii.eqb c d && literalThen pre' s' post
      end
  end.

Fixpoint regExpTest (pre post key : string) : bool :=
  literalThen pre key post
  || match key with
     | EmptyString => false
     | String _ key' => regExpTest pre post key'
     end.

Definition invalidateCache (keyPattern : string) : M unit :=
  if includes keyPattern "*" then
    let (pre, post) := splitStar keyPattern in
    modify (fun w =>
      withCache w (filter (fun kv => regExpTest pre post kv.1 = false) (queryCache w)))
  else cache_del keyPattern.

(** ** Responses *)

Inductive Body :=
| BodyError (error : string)                 (* { error } *)
| BodyNeedsSubscription (error : string)     (* { error, needsSubscription: true } *)
| BodyRetry (error : string)                 (* { error, retry: true } *)
| BodySuccess                                (* { success: true } *)
| BodyPurchase (confirmationId editionNumber : Z) (totalSupply : option Z)
               (amountPaid : Q) (purchaseId : Z).

Record Response := mkResponse { status : Z; body : Body }.

(** [res.json(b)] and [res.status(s).json(b)] *)
Definition json (b : Body) : Response := mkResponse 200 b.
Definition statusJson (s : Z) (b : Body) : Response := mkResponse s b.

(** The conditions of the design, as the responses that carry them. *)
Definition SoldOut : Response :=
  statusJson 500 (BodyError "This limited edition is sold out").
(** The store's duplicate-key error as the purchase handler passes it on. *)
Definition DuplicateEdition : Response :=
  statusJson 500 (BodyError "duplicate key value violates unique constraint").
Definition QuotaExceeded : Response :=
  statusJson 403 (BodyNeedsSubscription
    "You have already used both your free poster sales. Upgrade to Artistic Collective membership for unlimited poster sales.").
Definition InvalidSupplyChange : Response :=
  statusJson 400 (BodyError
    "Cannot change supply or pricing settings after sales have been made").

(** ** The write circuit breaker ([server/middleware/db-health.ts]) *)










(** ** The storage facade ([server/storage.ts], [DatabaseStorage]) *)

Definition firstImage (rows : list GeneratedImage) : Value :=
  match rows with
  | i :: _ => VImage i
  | [] => VUndefined
  end.

(** What a caller that tests [!image] sees: the row, or nothing
    ([undefined] from the producer, [null] from the cache). *)
Definition asImage (v : Value) : option GeneratedImage :=
  match v with
  | VImage i => Some i
  | _ => None
  end.

Definition asPurchases (v : Value) : list PosterPurchase :=
  match v with
  | VPurchases l => l
  | _ => []
  end.

(** The producer [getGeneratedImageById] hands to [cachedQuery]. *)
Definition imageByIdQuery (id : string) : M Value :=
  result ← executeWithRetry (db_selectImages id) defaultRetries;
  mret (firstImage result).

Definition getGeneratedImageById (id : string) : M (option GeneratedImage) :=
  tryCatch
    (v ← cachedQuery ("generated-image:" +:+ id) (imageByIdQuery id) 60;
     mret (asImage v))
    (fun _ => mret None).

Definition updateGeneratedImage (id : string) (updates : ImageUpdate)
  : M (option GeneratedImage) :=
  tryCatch
    (executeWithRetry (db_execute (UpdateImage id updates)) defaultRetries;;
     result ← gets (fun w => selectImages id (store w));
     invalidateCache ("generated-image:" +:+ id);;
     mret (head result))
    (fun _ => mret None).

Definition createPosterPurchase (purchase : InsertPosterPurchase) : M PosterPurchase :=
  tryCatch
    (result ← executeWithRetry (db_insertPurchase purchase) defaultRetries;
     invalidateCache ("poster-purchases:" +:+ ipp_imageId purchase);;
     mret result)
    (fun error => throw error).

Definition getPosterPurchasesByImageId (imageId : string) : M (list PosterPurchase) :=
  tryCatch
    (v ← cachedQuery ("poster-purchases:" +:+ imageId)
           (l ← executeWithRetry (db_selectPurchases imageId) defaultRetries;
            mret (VPurchases l))
           60;
     mret (asPurchases v))
    (fun _ => mret []).

Definition getNextEditionNumber (imageId : string) : M Z :=
  tryCatch
    (purchases ← getPosterPurchasesByImageId imageId;
     mret (Z.of_nat (length purchases) + 1))
    (fun _ => mret 1).

Record Availability := mkAvailability { available : bool; remainingSupply : Z }.

Definition checkImageAvailability (imageId : string) : M Availability :=
  tryCatch
    (image ← getGeneratedImageById imageId;
     match image with
     | None => mret (mkAvailability false 0)
     | Some image =>
         if match img_supplyType image with
            | Some t => String.eqb t "unlimited"
            | None => false
            end
         then mret (mkAvailability true (-1))
         else
           let totalSupply := or_default (img_totalSupply image) 0 in
           let soldCount := or_default (img_soldCount image) 0 in
           let remainingSupply := totalSupply - soldCount in
           mret (mkAvailability (0 <? remainingSupply) (Z.max 0 remainingSupply))
     end)
    (fun _ => mret (mkAvailability false 0)).

(** The platform's price floor, 29.95. *)
Definition priceFloor : Q := 2995 # 100.

(** [createOrder]: the defaults of the optional fields, then the insert. *)
Definition createOrder (insertOrder : Order) : M Order :=
  tryCatch
    (let orderWithTimestamp :=
       mkOrder (ord_shipping insertOrder) (ord_confirmationId insertOrder)
               (or_default (Some (ord_quantity insertOrder)) 1)
               (or_defaultQ (Some (ord_amount insertOrder)) priceFloor)
               (ord_posterImageUrl insertOrder) (ord_originalImageUrl insertOrder)
               (ord_editionNumber insertOrder) (ord_totalSupply insertOrder)
               (if String.eqb (ord_status insertOrder) "" then "pending"
                else ord_status insertOrder) in
     result ← executeWithRetry (db_insertOrder orderWithTimestamp) defaultRetries;
     invalidateCache "orders:list";;
     mret result)
    (fun error => throw error).

Definition updateUserSubscriptionStatus (email : string) (updates : UserUpdate) : M bool :=
  tryCatch
    (executeWithRetry (db_execute (UpdateUser email updates)) defaultRetries;;
     result ← gets (fun w => selectUsers email (store w));
     invalidateCache ("user:" +:+ email);;
     mret (negb (Nat.eqb (length result) 0)))
    (fun _ => mret false).

(** ** The catalogue handlers ([server/catalogue-routes.ts]) *)

(** A handler answers and leaves a world behind. *)
Definition Handler : Type := World -> Response * World.

(** A property of a JSON body: absent, null, or a value. *)
Inductive Field (A : Type) :=
| Undefined
| Null
| Given (a : A).
Arguments Undefined {A}.
Arguments Null {A}.
Arguments Given {A} a.

(** The value a [.set] assigns for a field; an absent one is left out. *)
Definition toSet {A} (f : Field A) : option (option A) :=
  match f with
  | Undefined => None
  | Null => Some None
  | Given a => Some (Some a)
  end.

(** [f !== column] *)
Definition differsZ (f : Field Z) (column : option Z) : bool :=
  match f, column with
  | Null, None => false
  | Given a, Some b => negb (a =? b)
  | _, _ => true
  end.

Definition differsQ (f : Field Q) (column : option Q) : bool :=
  match f, column with
  | Null, None => false
  | Given a, Some b => negb (Qeq_bool a b)
  | _, _ => true
  end.

(** What the [auth_token] cookie amounts to: absent, rejected by
    [verifyToken], or decoded to the e-mail it was issued for. *)
Inductive Credentials :=
| NoToken
| InvalidToken
| Decoded (email : string).

Definition requireAuthentication (token : Credentials) (next : User -> Handler)
  : Handler := fun w =>
  match token with
  | NoToken => (statusJson 401 (BodyError "Authentication required"), w)
  | InvalidToken => (statusJson 401 (BodyError "Invalid token"), w)
  | Decoded email =>
      match db_selectUsers email w with
      | (Ok [], w1) => (statusJson 401 (BodyError "User not found"), w1)
      | (Ok (user :: _), w1) => next user w1
      | (Throw _, w1) => (statusJson 500 (BodyError "Authorization failed"), w1)
      end
  end.

Definition isSubscribed (user : User) (now : Z) : bool :=
  String.eqb (usr_userType user) "artistic_collective"
  && match usr_subscriptionStatus user with
     | Some s => String.eqb s "active"
     | None => false
     end
  && match usr_subscriptionEndDate user with
     | None => true
     | Some t => now <? t
     end.

(** The body of [PATCH /api/images/:id/public]. *)
Record PublicBody := mkPublicBody {
  req_isPublic : option bool;       (* absent when the property is not a boolean *)
  req_totalSupply : Field Z;
  req_pricePerUnit : Field Q;
  req_name : Field string;
  req_momentLink : Field string;
  req_city : Field string
}.

Definition supplyInvalid (f : Field Z) : bool :=
  match f with
  | Given n => (n =? 0) || (n <? 1) || (1000 <? n)
  | _ => true
  end.

Definition priceInvalid (f : Field Q) : bool :=
  match f with
  | Given p => Qeq_bool p 0 || negb (Qle_bool priceFloor p)
  | _ => true
  end.

Definition hasSales (image : GeneratedImage) : bool :=
  img_isPublic image
  && match img_soldCount image with
     | Some n => negb (n =? 0) && (0 <? n)
     | None => false
     end.

Definition updateDataOf (isPublic : bool) (b : PublicBody) : ImageUpdate :=
  {| set_isPublic := Some isPublic;
     set_isApproved := None;
     set_name := toSet (req_name b);
     set_momentLink := toSet (req_momentLink b);
     set_city := toSet (req_city b);
     set_editionPricingType := if isPublic then Some (Some "flat") else None;
     set_totalSupply := if isPublic then toSet (req_totalSupply b) else None;
     set_soldCount := None;
     set_pricePerUnit := if isPublic then toSet (req_pricePerUnit b) else None |}.

(** The transaction of the handler; its result is [posterCountChanged].
    The subscription is tested a second time here, with a [new Date()] of
    its own, after the awaits of BEGIN and of the update. *)
Definition publishTransaction (user : User) (id : string) (isPublic : bool)
           (image : GeneratedImage) (updateData : ImageUpdate) (tx : Tx) : M bool :=
  tx_execute tx (UpdateImage id updateData);;
  awaited;;
  now ← gets clock;
  if negb (isSubscribed user now) then
    if isPublic && negb (img_isPublic image) then
      tx_execute tx (IncrementPosters (usr_email user));;
      mret true
    else if negb isPublic && img_isPublic image then
      tx_execute tx (DecrementPosters (usr_email user));;
      mret true
    else mret false
  else mret false.

Definition patchImagePublic (id : string) (b : PublicBody) (user : User) : Handler :=
  fun w =>
  match req_isPublic b with
  | None =>
      (statusJson 400 (BodyError "Invalid request body, isPublic must be a boolean"), w)
  | Some isPublic =>
    if isPublic && supplyInvalid (req_totalSupply b) then
      (statusJson 400 (BodyError "Posters must have totalSupply between 1 and 1000"), w)
    else if isPublic && priceInvalid (req_pricePerUnit b) then
      (statusJson 400 (BodyError "Posters must have pricePerUnit of at least 29.95 CHF"), w)
    else
      let failed := statusJson 500 (BodyError "Failed to update image public status") in
      match db_selectImages id w with
      | (Throw _, w1) => (failed, w1)
      | (Ok [], w1) => (statusJson 404 (BodyError "Image not found"), w1)
      | (Ok (image :: _), w1) =>
        if negb (String.eqb (img_userId image) (usr_email user)) then
          (statusJson 403 (BodyError "You can only modify your own images"), w1)
        else if isPublic
                && negb (isSubscribed user (clock w1))
                && (2 <=? or_default (Some (usr_postersForSale user)) 0) then
          (QuotaExceeded, w1)
        else if hasSales image
                && (differsZ (req_totalSupply b) (img_totalSupply image)
                    || differsQ (req_pricePerUnit b) (img_pricePerUnit image)) then
          (InvalidSupplyChange, w1)
        else
          let updateData := updateDataOf isPublic b in
          match transaction (publishTransaction user id isPublic image updateData) w1 with
          | (Throw _, w2) => (failed, w2)
          | (Ok posterCountChanged, w2) =>
              let w3 :=
                if posterCountChanged
                then snd (invalidateCache ("user:" +:+ usr_email user) w2)
                else w2 in
              (json BodySuccess, w3)
          end
      end
  end.

(** The values the purchase transaction fixes after its read. *)
Record Assignment := mkAssignment {
  as_image : GeneratedImage;
  as_editionNumber : Z;
  as_pricePerUnit : Q
}.

(** Lines 653-678: read the row in the transaction, check, assign. *)
Definition readAndAssign (tx : Tx) (imageId : string) : M Assignment :=
  imageResults ← tx_selectImages tx imageId;
  match imageResults with
  | [] => throw (plainError "Image not found")
  | image :: _ =>
      if negb (img_isPublic image) then
        throw (plainError "Image is not available for purchase")
      else
        let soldCount := or_default (img_soldCount image) 0 in
        let totalSupply := or_default (img_totalSupply image) 10 in
        if totalSupply <=? soldCount then
          throw (plainError "This limited edition is sold out")
        else
          let editionNumber := or_default (img_soldCount image) 0 + 1 in
          let pricePerUnit := or_defaultQ (img_pricePerUnit image) priceFloor in
          mret (mkAssignment image editionNumber pricePerUnit)
  end.

(** Lines 681-687. *)
Definition recordPurchase (user : User) (imageId : string) (a : Assignment)
  : M PosterPurchase :=
  now ← gets clock;
  createPosterPurchase
    (mkInsertPurchase (usr_email user) imageId (as_editionNumber a) now (as_pricePerUnit a)).

(** [{ soldCount: n }] *)
Definition soldCountUpdate (n : Z) : ImageUpdate :=
  mkImageUpdate None None None None None None None (Some (Some n)) None.

(** Lines 690-693. *)
Definition updateSoldCount (tx : Tx) (imageId : string) (a : Assignment) : M unit :=
  tx_execute tx (UpdateImage imageId (soldCountUpdate (as_editionNumber a))).

(** Lines 696-716; [draw] is the six-digit number drawn for the
    confirmation id. *)
Definition recordOrder (shippingData : ShippingData) (draw : Z) (a : Assignment)
  : M Order :=
  createOrder
    (mkOrder shippingData draw 1 (as_pricePerUnit a)
             ("/api/storage-image/" +:+ img_generatedPath (as_image a))
             (img_originalPath (as_image a))
             (as_editionNumber a) (img_totalSupply (as_image a)) "paid").

(** Lines 718-726. *)
Definition purchaseAnswer (draw : Z) (a : Assignment) (posterPurchase : PosterPurchase)
  : Response :=
  json (BodyPurchase draw (as_editionNumber a) (img_totalSupply (as_image a))
                     (as_pricePerUnit a) (pp_id posterPurchase)).

Definition purchaseTransaction (user : User) (imageId : string)
           (shippingData : ShippingData) (draw : Z) (tx : Tx) : M Response :=
  a ← readAndAssign tx imageId;
  posterPurchase ← recordPurchase user imageId a;
  updateSoldCount tx imageId a;;
  recordOrder shippingData draw a;;
  mret (purchaseAnswer draw a posterPurchase).

Definition requiredFields (d : ShippingData) : list (string * string) :=
  [("firstName", ship_firstName d); ("lastName", ship_lastName d);
   ("email", ship_email d); ("address", ship_address d); ("city", ship_city d);
   ("state", ship_state d); ("zipCode", ship_zipCode d); ("country", ship_country d)].

(** The first required field that is missing or empty. *)
Definition missingField (d : ShippingData) : option string :=
  fst <$> find (fun f => String.eqb (snd f) "") (requiredFields d).

(** What the [catch] of the purchase handler answers. *)
Definition purchaseFailure (error : Thrown) : Response :=
  statusJson 500 (BodyError match error with
                            | ThrownError e => message e
                            | ThrownUndefined => "Failed to process purchase"
                            end).

(** The body of [POST /api/purchase-poster]. *)
Record PurchaseBody := mkPurchaseBody {
  req_imageId : string;                    (* empty when absent *)
  req_shippingData : option ShippingData
}.

Definition purchasePoster (b : PurchaseBody) (draw : Z) (user : User) : Handler :=
  fun w =>
  match req_shippingData b with
  | None => (statusJson 400 (BodyError "Image ID and shipping data are required"), w)
  | Some shippingData =>
    if String.eqb (req_imageId b) "" then
      (statusJson 400 (BodyError "Image ID and shipping data are required"), w)
    else
      match missingField shippingData with
      | Some field => (statusJson 400 (BodyError ("Missing required field: " +:+ field)), w)
      | None =>
          match transaction (purchaseTransaction user (req_imageId b) shippingData draw) w with
          | (Ok r, w1) => (r, w1)
          | (Throw error, w1) => (purchaseFailure error, w1)
          end
      end
  end.

(** ** Concurrent purchases

    Several requests are in flight at once: each [await] of the purchase
    handler is a point at which another request may run.  A request is cut
    at its awaits into stages; [advance] runs one request from one await to
    the next with the very functions of the handler, and a schedule says
    which request moves next.  An update through a transaction waits while
    another open transaction holds an update of the same row. *)

Record Client := mkClient {
  cl_user : User;
  cl_imageId : string;
  cl_shippingData : ShippingData;
  cl_draw : Z
}.

Inductive Stage :=
| Arrived                                                   (* before BEGIN *)
| Begun (tx : Tx)                                           (* before the select *)
| Assigned (tx : Tx) (a : Assignment)                       (* before createPosterPurchase *)
| Recorded (tx : Tx) (a : Assignment) (p : PosterPurchase)  (* before the update *)
| Updated (tx : Tx) (a : Assignment) (p : PosterPurchase)   (* before createOrder *)
| Answered (tx : Tx) (r : Response)                         (* res.json done, before COMMIT *)
| Finished (r : Response).

Definition rowLocked (tx : Tx) (imageId : string) (w : World) : bool :=
  existsb (fun e => negb (Nat.eqb (fst e) tx)
                    && match snd e with
                       | UpdateImage id _ => String.eqb id imageId
                       | _ => false
                       end)
          (pending w).

(** The transaction rolls back and the handler's [catch] answers. *)
Definition abort (tx : Tx) (error : Thrown) (w : World) : Stage * World :=
  (Finished (purchaseFailure error), rollback tx w).

Definition advance (c : Client) (s : Stage) (w : World) : Stage * World :=
  match s with
  | Arrived => let (tx, w0) := begin w in (Begun tx, w0)
  | Begun tx =>
      match readAndAssign tx (cl_imageId c) w with
      | (Ok a, w1) => (Assigned tx a, w1)
      | (Throw error, w1) => abort tx error w1
      end
  | Assigned tx a =>
      match recordPurchase (cl_user c) (cl_imageId c) a w with
      | (Ok p, w1) => (Recorded tx a p, w1)
      | (Throw error, w1) => abort tx error w1
      end
  | Recorded tx a p =>
      if rowLocked tx (cl_imageId c) w then (s, w)
      else
        match updateSoldCount tx (cl_imageId c) a w with
        | (Ok _, w1) => (Updated tx a p, w1)
        | (Throw error, w1) => abort tx error w1
        end
  | Updated tx a p =>
      match recordOrder (cl_shippingData c) (cl_draw c) a w with
      | (Ok _, w1) => (Answered tx (purchaseAnswer (cl_draw c) a p), w1)
      | (Throw error, w1) => abort tx error w1
      end
  | Answered tx r => (Finished r, commit tx w)
  | Finished r => (s, w)
  end.

(** [schedule] names, step by step, the request that moves. *)
Fixpoint runSchedule (schedule : list nat) (clients : list Client)
         (stages : list Stage) (w : World) : list Stage * World :=
  match schedule with
  | [] => (stages, w)
  | i :: rest =>
      match clients !! i, stages !! i with
      | Some c, Some s =>
          let (s1, w1) := advance c s w in
          runSchedule rest clients (<[i := s1]> stages) w1
      | _, _ => runSchedule rest clients stages w
      end
  end.

Definition answerOf (s : Stage) : option Response :=
  match s with
  | Finished r => Some r
  | _ => None
  end.

(** The edition a response announces, if it announces a purchase. *)
Definition editionOf (r : Response) : option Z :=
  match body r with
  | BodyPurchase _ editionNumber _ _ _ => Some editionNumber
  | _ => None
  end.

(** One request running alone, from its first await to its last. *)
Definition runAlone (c : Client) (w : World) : Stage * World :=
  let (s1, w1) := advance c Arrived w in
  let (s2, w2) := advance c s1 w1 in
  let (s3, w3) := advance c s2 w2 in
  let (s4, w4) := advance c s3 w3 in
  let (s5, w5) := advance c s4 w4 in
  advance c s5 w5.

(** Requests served one after the other, each to its end before the next
    begins: the answers in order, and the world left. *)
Fixpoint purchasesInTurn (requests : list (PurchaseBody * Z * User)) (w : World)
  : list Response * World :=
  match requests with
  | [] => ([], w)
  | (b, draw, user) :: rest =>
      let (r, w1) := purchasePoster b draw user w in
      let (rs, w2) := purchasesInTurn rest w1 in
      (r :: rs, w2)
  end.

(** A well-formed purchase request for the artifact [id]. *)
Definition orderFor (id : string) (q : PurchaseBody * Z * User) : Prop :=
  req_imageId (fst (fst q)) = id
  /\ exists shippingData,
      req_shippingData (fst (fst q)) = Some shippingData
      /\ missingField shippingData = None.

(** The artifact [id] is on sale with total supply [N] and sold count [s],
    no purchase row of it carries an edition above [s], the store answers
    and no transaction is open. *)
Definition onSale (id : string) (N s : Z) (w : World) : Prop :=
  faults w = []
  /\ pending w = []
  /\ (exists image rest,
        selectImages id (store w) = image :: rest
        /\ img_isPublic image = true
        /\ img_totalSupply image = Some N
        /\ img_soldCount image = Some s)
  /\ Forall (fun r => pp_imageId r = id -> pp_editionNumber r <= s)
            (posterPurchases (store w)).

(** The [n] editions that follow [s]. *)
Fixpoint editionsAfter (s : Z) (n : nat) : list Z :=
  match n with
  | O => []
  | S k => s + 1 :: editionsAfter (s + 1) k
  end.

(** ** Sequences of calls on the publish-quota tracker *)

Inductive QuotaEvent :=
| SetPublished (decoded : string) (id : string) (b : PublicBody)
    (* an authenticated PATCH /api/images/:id/public *)
| SubscriptionChange (email : string) (u : UserUpdate)
    (* storage.updateUserSubscriptionStatus, from the payment webhooks *)
| Elapse (ms : N).

Definition quotaStep (e : QuotaEvent) (w : World) : World :=
  match e with
  | SetPublished decoded id b =>
      snd (requireAuthentication (Decoded decoded) (patchImagePublic id b) w)
  | SubscriptionChange email u => snd (updateUserSubscriptionStatus email u w)
  | Elapse ms => withClock w (clock w + Z.of_N ms)
  end.

Definition quotaRun (es : list QuotaEvent) (w : World) : World :=
  fold_left (fun w e => quotaStep e w) es w.

(** The counter of a seller, as the next request of that seller reads it. *)
Definition postersForSaleOf (email : string) (d : Database) : Z :=
  match selectUsers email d with
  | u :: _ => usr_postersForSale u
  | [] => 0
  end.

(** The seller is exempt from the quota at time [now]. *)
Definition exempt (email : string) (d : Database) (now : Z) : bool :=
  match selectUsers email d with
  | u :: _ => isSubscribed u now
  | [] => false
  end.

Definition publishedBy (email : string) (d : Database) : list GeneratedImage :=
  List.filter (fun i => String.eqb (img_userId i) email && img_isPublic i)
              (generatedImages d).

(** ** Predicates of the properties

    The vocabulary of the statements below: the design's own notions where
    they are compared with the code, and the invariants of the proofs. *)

(** A failure the design calls transient: one the executor recognises as a
    connection failure or a timeout, or one with a serialization or
    deadlock code (SQLSTATE 40001, 40P01). *)
Definition designTransient (e : JsError) : bool :=
  isConnectionError e || array_includes ["40001"; "40P01"] (code e).


(** A computation keeps a property of the world, whether it returns or
    throws. *)
Definition preserves {A} (P : World -> Prop) (m : M A) : Prop :=
  forall w, P w -> P (snd (m w)).

(** The cache has nothing to serve under [key]: no entry, or an entry
    whose time has passed. *)
Definition missing (key : string) (w : World) : Prop :=
  match queryCache w !! key with
  | None => True
  | Some (_, t) => t <> 0 /\ t < clock w
  end.

(** The delays of the first [n] retries: 100ms * 2^attempt, attempts
    counted from [first]. *)
Fixpoint backoff (n : nat) (first : Z) : list Z :=
  match n with
  | O => []
  | S k => 100 * 2 ^ first :: backoff k (first + 1)
  end.

(** The artifacts of [seller] whose present publication was made while the
    seller was not exempt: the ledger the design's quota invariant counts.
    A call that publishes an unpublished artifact enters or clears it
    according to the exemption at that moment; a call that unpublishes
    clears it. *)
Definition ledgerStep (seller : string) (e : QuotaEvent) (w : World)
           (ledger : list string) : list string :=
  match e with
  | SetPublished decoded id b =>
      let r := fst (requireAuthentication (Decoded decoded) (patchImagePublic id b) w) in
      if String.eqb decoded seller && (status r =? 200) then
        match req_isPublic b, head (selectImages id (store w)) with
        | Some true, Some image =>
            if img_isPublic image then ledger
            else if exempt seller (store w) (clock w)
                 then List.filter (fun x => negb (String.eqb x id)) ledger
                 else id :: ledger
        | Some false, _ => List.filter (fun x => negb (String.eqb x id)) ledger
        | _, _ => ledger
        end
      else ledger
  | _ => ledger
  end.

Fixpoint quotaTrace (seller : string) (es : list QuotaEvent) (w : World)
         (ledger : list string) : World * list string :=
  match es with
  | [] => (w, ledger)
  | e :: rest => quotaTrace seller rest (quotaStep e w) (ledgerStep seller e w ledger)
  end.

Definition countedPublished (seller : string) (ledger : list string) (d : Database) : Z :=
  Z.of_nat (length (List.filter (fun i => existsb (String.eqb (img_id i)) ledger)
                                (publishedBy seller d))).

(** What the amended quota property assumes of a state, for [seller]:
    artifact ids are a key, no transaction is open, the seller is not
    exempt, and the counter equals the number of the seller's published
    artifacts. *)
Definition quotaInvariant (seller : string) (w : World) : Prop :=
  NoDup (map img_id (generatedImages (store w)))
  /\ pending w = []
  /\ exempt seller (store w) (clock w) = false
  /\ postersForSaleOf seller (store w)
     = Z.of_nat (length (publishedBy seller (store w))).

(** A run made of publish and unpublish calls (and the passing of time)
    only. *)
Definition publishCallsOnly (es : list QuotaEvent) : Prop :=
  Forall (fun e => match e with
                   | SubscriptionChange _ _ => False
                   | _ => True
                   end) es.

(** The statements on the counter that the publish transaction sends after
    the update of the artifact. *)
Definition counterStatements (user : User) (isPublic : bool) (image : GeneratedImage)
           (now : Z) : list Statement :=
  if negb (isSubscribed user now) then
    if isPublic && negb (img_isPublic image) then [IncrementPosters (usr_email user)]
    else if negb isPublic && img_isPublic image then [DecrementPosters (usr_email user)]
    else []
  else [].

(** What those statements do to the counter. *)
Definition counterChange (user : User) (isPublic : bool) (image : GeneratedImage)
           (now : Z) (n : Z) : Z :=
  if negb (isSubscribed user now) then
    if isPublic && negb (img_isPublic image) then n + 1
    else if negb isPublic && img_isPublic image then Z.max 0 (n - 1)
    else n
  else n.

(** ** Sample data *)

Definition seller : User := mkUser "seller@example.com" "normal" None None 0.
Definition buyer : User := mkUser "buyer@example.com" "normal" None None 0.
Definition rival : User := mkUser "rival@example.com" "normal" None None 0.

Definition poster (id : string) (isPublic : bool) (totalSupply soldCount : option Z)
  : GeneratedImage :=
  mkImage id "seller@example.com" ("users/seller/generated/" +:+ id +:+ ".png")
          ("users/seller/original/" +:+ id +:+ ".png") "risograph"
          None None None isPublic isPublic (Some "flat") None
          totalSupply soldCount (Some (40 # 1)).

Definition shopOf (images : list GeneratedImage) (unique : bool) : Database :=
  mkDatabase images [seller; buyer; rival] [] [] unique.

Definition worldOf (d : Database) (script : list (option JsError)) : World :=
  mkWorld d [] 0%nat ∅ 0 script [] [].

(** The seller with the counter at [n], and a store with that row. *)
Definition sellerWith (n : Z) : User :=
  mkUser "seller@example.com" "normal" None None n.

Definition quotaShop (n : Z) (images : list GeneratedImage) : Database :=
  mkDatabase images [sellerWith n; buyer; rival] [] [] true.

Definition publishBody (supply : Z) (price : Q) : PublicBody :=
  mkPublicBody (Some true) (Given supply) (Given price) Undefined Undefined Undefined.

Definition unpublishBody : PublicBody :=
  mkPublicBody (Some false) Undefined Undefined Undefined Undefined Undefined.

(** Three unpublished posters of the seller. *)
Definition drafts : list GeneratedImage :=
  [poster "a" false None None; poster "b" false None None; poster "c" false None None].

Definition bySeller (id : string) (b : PublicBody) : QuotaEvent :=
  SetPublished "seller@example.com" id b.

(** Two posters go on sale, a third is refused, one is withdrawn, the
    third goes on sale. *)
Definition quotaScenario : list QuotaEvent :=
  [bySeller "a" (publishBody 5 (40 # 1)); bySeller "b" (publishBody 5 (40 # 1));
   bySeller "c" (publishBody 5 (40 # 1)); bySeller "a" unpublishBody;
   bySeller "c" (publishBody 5 (40 # 1))].

(** The seller with a subscription that is active until time 1000, and a
    store with that row. *)
Definition subscribedSeller : User :=
  mkUser "seller@example.com" "artistic_collective" (Some "active") (Some 1000) 0.

Definition subscriberShop (images : list GeneratedImage) : Database :=
  mkDatabase images [subscribedSeller; buyer; rival] [] [] true.

(** While subscribed the seller puts a first poster on sale; the
    subscription runs out; the seller puts a second poster on sale and
    withdraws the first. *)
Definition lapseScenario : list QuotaEvent :=
  [bySeller "a" (publishBody 5 (40 # 1));
   Elapse 2000;
   bySeller "b" (publishBody 5 (40 # 1));
   bySeller "a" unpublishBody].



(** A world whose cache already holds a row under its detail key. *)
Definition seededWorld (i : GeneratedImage) (expires : Z) : World :=
  mkWorld (shopOf [i] true) [] 0%nat
          {[ "generated-image:" +:+ img_id i := (VImage i, expires) ]} 0 [] [] [].

Definition toBuyer : ShippingData :=
  mkShipping "Ada" "Buyer" "buyer@example.com" "1 Main St" "Zurich" "ZH" "8000" "CH".
Definition toRival : ShippingData :=
  mkShipping "Rae" "Rival" "rival@example.com" "2 Side St" "Bern" "BE" "3000" "CH".

Definition buyerOrder : PurchaseBody := mkPurchaseBody "p1" (Some toBuyer).
Definition rivalOrder : PurchaseBody := mkPurchaseBody "p1" (Some toRival).

(** Two requests for the same poster in flight together. *)
Definition twoClients : list Client :=
  [mkClient buyer "p1" toBuyer 123456; mkClient rival "p1" toRival 654321].

(** Both begin and read the row; then the first runs to its commit, then
    the second. *)
Definition bothReadFirst : list nat :=
  [0; 1; 0; 1; 0; 0; 0; 0; 1; 1; 1; 1]%nat.

Definition serializationFailure : JsError :=
  mkError (Some "40001") "could not serialize access due to concurrent update".
Definition connectionReset : JsError :=
  mkError (Some "08006") "Connection terminated unexpectedly".

(** The state a purchase leaves that failed at the update of the sold
    count: the poster still has nothing sold, and the purchase row of
    edition 1 is there. *)
Definition afterFailedPurchase : World :=
  snd (purchasePoster (mkPurchaseBody "p1" (Some toBuyer)) 123456 buyer
         (worldOf (shopOf [poster "p1" true (Some 2) (Some 0)] true)
                  [None; None; Some connectionReset])).

(** ** Further storage methods and routes

    The other readers and writers of the rows above: the cached user
    lookup of the storage facade, the seller statistics route of
    [server/routes.ts] that reads through it, and the admin and
    availability routes of [server/catalogue-routes.ts]. *)

Definition firstUser (rows : list User) : Value :=
  match rows with
  | u :: _ => VUser u
  | [] => VUndefined
  end.

Definition asUser (v : Value) : option User :=
  match v with
  | VUser u => Some u
  | _ => None
  end.

(** The producer [getUserByEmail] hands to [cachedQuery]. *)
Definition userByEmailQuery (email : string) : M Value :=
  result ← executeWithRetry (db_selectUsers email) defaultRetries;
  mret (firstUser result).

Definition getUserByEmail (email : string) : M (option User) :=
  tryCatch
    (v ← cachedQuery ("user:" +:+ email) (userByEmailQuery email) 300;
     mret (asUser v))
    (fun _ => mret None).

(** What a route answers: a refusal with its status and message, or the
    payload of the route. *)
Inductive Reply (A : Type) :=
| Refused (status : Z) (error : string)
| Payload (a : A).
Arguments Refused {A} status error.
Arguments Payload {A} a.

Definition Route (A : Type) : Type := World -> Reply A * World.

(** [{ postersForSale, isSubscribed, canSellPoster }] *)
Record PosterStats := mkPosterStats {
  stat_postersForSale : Z;
  stat_isSubscribed : bool;
  stat_canSellPoster : bool
}.

Definition statsOf (user : User) (now : Z) : PosterStats :=
  let subscribed := isSubscribed user now in
  let postersForSale := or_default (Some (usr_postersForSale user)) 0 in
  mkPosterStats postersForSale subscribed (subscribed || (postersForSale <? 2)).

(** [GET /api/user-poster-stats]; [email] is the query parameter, empty
    when it is absent or not a string. *)
Definition userPosterStats (email : string) : Route PosterStats := fun w =>
  if String.eqb email "" then (Refused 400 "Email parameter is required", w)
  else
    match getUserByEmail email w with
    | (Ok None, w1) => (Refused 404 "User not found", w1)
    | (Ok (Some user), w1) => (Payload (statsOf user (clock w1)), w1)
    | (Throw _, w1) => (Refused 500 "Failed to get user poster stats", w1)
    end.

(** [requireAdminAuth]: any non-empty [adminSessionToken] cookie passes. *)
Definition requireAdminAuth {A} (sessionToken : string) (next : Route A) : Route A :=
  fun w =>
  if String.eqb sessionToken "" then (Refused 401 "Admin authentication required", w)
  else next w.

(** [{ success, soldCount, editionNumber, remainingSupply }] *)
Record EditionSet := mkEditionSet {
  set_to : Z;
  set_editionNumber : Z;
  set_remainingSupply : Z
}.

(** [PATCH /api/admin/images/:id/edition]; [soldCount] is the property of
    the body, [Given] when it is a number. *)
Definition adminSetEdition (id : string) (soldCount : Field Z) : Route EditionSet :=
  fun w =>
  match soldCount with
  | Given n =>
    if n <? 0 then (Refused 400 "Invalid sold count value", w)
    else
      let failed := Refused 500 "Failed to update edition number" in
      match db_selectImages id w with
      | (Throw _, w1) => (failed, w1)
      | (Ok [], w1) => (Refused 404 "Image not found", w1)
      | (Ok (image :: _), w1) =>
          let totalSupply := or_default (img_totalSupply image) 10 in
          if totalSupply <? n then
            (Refused 400 "Sold count cannot exceed total supply", w1)
          else
            match db_execute (UpdateImage id (soldCountUpdate n)) w1 with
            | (Throw _, w2) => (failed, w2)
            | (Ok _, w2) => (Payload (mkEditionSet n (n + 1) (totalSupply - n)), w2)
            end
      end
  | _ => (Refused 400 "Invalid sold count value", w)
  end.

(** [{ isApproved: true }] and [{ isPublic: false, isApproved: false }] *)
Definition approveUpdate : ImageUpdate :=
  mkImageUpdate None (Some true) None None None None None None None.
Definition rejectUpdate : ImageUpdate :=
  mkImageUpdate (Some false) (Some false) None None None None None None None.

(** The two moderation routes: the update with [.returning()], refused
    when no row came back.  The payload is the message. *)
Definition moderate (u : ImageUpdate) (done failed : string) (id : string)
  : Route string := fun w =>
  match db_execute (UpdateImage id u) w with
  | (Throw _, w1) => (Refused 500 failed, w1)
  | (Ok _, w1) =>
      match selectImages id (store w1) with
      | [] => (Refused 404 "Image not found", w1)
      | _ => (Payload done, w1)
      end
  end.

(** [PATCH /api/admin/images/:id/approve] *)
Definition adminApprove : string -> Route string :=
  moderate approveUpdate "Poster approved and added to catalogue" "Failed to approve poster".

(** [PATCH /api/admin/images/:id/reject] *)
Definition adminReject : string -> Route string :=
  moderate rejectUpdate "Poster rejected and removed from review queue"
           "Failed to reject poster".

(** The availability fields of the answer of
    [GET /api/images/:id/availability]. *)
Record Available := mkAvailable {
  av_totalSupply : Z;
  av_soldCount : Z;
  av_remainingSupply : Z;
  av_available : bool;
  av_pricePerUnit : Q;
  av_nextEditionNumber : option Z
}.

(** [GET /api/images/:id/availability], reduced to the availability fields
    of its answer.  The signed URLs come from the object storage, outside
    these sources: [urlsResolved] tells whether resolving them returned. *)
Definition imageAvailability (id : string) (urlsResolved : bool) : Route Available :=
  fun w =>
  let failed := Refused 500 "Failed to check image availability" in
  match db_selectImages id w with
  | (Throw _, w1) => (failed, w1)
  | (Ok [], w1) => (Refused 404 "Image not found", w1)
  | (Ok (image :: _), w1) =>
      if negb (img_isPublic image) then
        (Refused 403 "Image is not available for purchase", w1)
      else if negb urlsResolved then (failed, w1)
      else
        let soldCount := or_default (img_soldCount image) 0 in
        let totalSupply := or_default (img_totalSupply image) 10 in
        let remainingSupply := Z.max 0 (totalSupply - soldCount) in
        let available := 0 <? remainingSupply in
        (Payload (mkAvailable totalSupply soldCount remainingSupply available
                              (or_defaultQ (img_pricePerUnit image) priceFloor)
                              (if available then Some (soldCount + 1) else None)),
         w1)
  end.

(** ** Further predicates *)

(** An operation that begins with one round trip: refused, it throws what
    the store answered and has done nothing else. *)
Definition failsWithStore {T} (queryFn : M T) : Prop :=
  forall w e rest,
    faults w = Some e :: rest ->
    queryFn w = (Throw (ThrownError e), withFaults w rest).

(** The world after [n] refused attempts of the executor, the first of
    them attempt number [attempt]: each consumed one answer of the store
    and was followed by its delay. *)
Fixpoint afterFailures (n : nat) (attempt : Z) (w : World) : World :=
  match n with
  | O => w
  | S k =>
      afterFailures k (attempt + 1)
        (snd (setTimeout (100 * 2 ^ attempt) (withFaults w (tl (faults w)))))
  end.

(** What [invalidateCache] leaves of a cache. *)
Definition invalidated (keyPattern : string) (c : gmap string (Value * Z))
  : gmap string (Value * Z) :=
  if includes keyPattern "*" then
    let (pre, post) := splitStar keyPattern in
    filter (fun kv => regExpTest pre post kv.1 = false) c
  else delete keyPattern c.

(** What the cache holds under the key of [email], if anything, is what a
    lookup of the stored rows gives: the first row of that e-mail, or
    [undefined] when there is none. *)
Definition userCacheCoherent (email : string) (w : World) : Prop :=
  forall v t,
    queryCache w !! ("user:" +:+ email) = Some (v, t) ->
    v = firstUser (selectUsers email (store w)).

(** The e-mail addresses an event names. *)
Definition eventEmail (e : QuotaEvent) : string :=
  match e with
  | SetPublished decoded _ _ => decoded
  | SubscriptionChange email _ => email
  | Elapse _ => ""
  end.

(** What happens around the row of a seller: a call that may write it, or
    a read of the seller statistics. *)
Inductive SellerEvent :=
| Change (e : QuotaEvent)
| ReadStatistics (email : string).   (* GET /api/user-poster-stats?email= *)

Definition sellerStep (e : SellerEvent) (w : World) : World :=
  match e with
  | Change e => quotaStep e w
  | ReadStatistics email => snd (userPosterStats email w)
  end.

Definition sellerRun (es : list SellerEvent) (w : World) : World :=
  fold_left (fun w e => sellerStep e w) es w.

(** No e-mail address that a write of the run names contains the
    wildcard of [invalidateCache]. *)
Definition plainAddresses (es : list SellerEvent) : Prop :=
  Forall (fun e => match e with
                   | Change e => includes (eventEmail e) "*" = false
                   | ReadStatistics _ => True
                   end) es.

(** The seller reads the statistics, puts two posters on sale with a read
    in between, and reads again. *)
Definition statisticsScenario : list SellerEvent :=
  [ReadStatistics "seller@example.com";
   Change (bySeller "a" (publishBody 5 (40 # 1)));
   ReadStatistics "seller@example.com";
   Change (bySeller "b" (publishBody 5 (40 # 1)));
   ReadStatistics "seller@example.com"].

(** * Properties *)

(** Commit or roll back a transaction whose statements are known. *)
Ltac closeTransaction Hp :=
  unfold mret, M_ret, commit, rollback, statementsOf, othersOf;
  simpl; rewrite ?Hp; simpl; rewrite ?Nat.eqb_refl; simpl; auto;
  repeat split; auto.

(** ** The monad *)

Lemma bind_ok {A B} (m : M A) (f : A -> M B) w a w1 :
  m w = (Ok a, w1) -> (m ≫= f) w = f a w1.
Proof. intros H. unfold mbind, M_bind. now rewrite H. Qed.

Lemma bind_throw {A B} (m : M A) (f : A -> M B) w t w1 :
  m w = (Throw t, w1) -> (m ≫= f) w = (Throw t, w1).
Proof. intros H. unfold mbind, M_bind. now rewrite H. Qed.

Lemma bind_gets {A B} (f : World -> A) (k : A -> M B) w :
  (gets f ≫= k) w = k (f w) w.
Proof. reflexivity. Qed.

Lemma withFaults_same w : withFaults w (faults w) = w.
Proof. now destruct w. Qed.

Lemma roundTrip_quiet w : faults w = [] -> roundTrip w = (Ok tt, w).
Proof. intros H. unfold roundTrip. now rewrite H. Qed.

(** ** The resilient executor *)

Lemma retryLoop_ok {T} (queryFn : M T) k attempt last w v w1 :
  queryFn w = (Ok v, w1) ->
  retryLoop queryFn (S k) attempt last w = (Ok v, w1).
Proof. intros H. simpl. unfold tryCatch. now rewrite H. Qed.

Lemma executeWithRetry_ok {T} (queryFn : M T) w v w1 :
  queryFn w = (Ok v, w1) ->
  executeWithRetry queryFn defaultRetries w = (Ok v, w1).
Proof.
  intros H. unfold executeWithRetry, defaultRetries.
  change (Z.to_nat 3) with (S 2). now apply retryLoop_ok.
Qed.

Lemma retryLoop_terminal {T} (queryFn : M T) k attempt last w e w1 :
  queryFn w = (Throw (ThrownError e), w1) ->
  isConnectionError e = false ->
  retryLoop queryFn (S k) attempt last w = (Throw (ThrownError e), w1).
Proof. intros H He. simpl. unfold tryCatch. rewrite H, He. reflexivity. Qed.

Lemma retryLoop_transient {T} (queryFn : M T) k attempt last w e w1 :
  queryFn w = (Throw (ThrownError e), w1) ->
  isConnectionError e = true ->
  retryLoop queryFn (S k) attempt last w =
  retryLoop queryFn k (attempt + 1) (ThrownError e)
            (snd (setTimeout (100 * 2 ^ attempt) w1)).
Proof. intros H He. simpl. unfold tryCatch. rewrite H, He. reflexivity. Qed.

Lemma roundTrip_fault w e rest :
  faults w = Some e :: rest ->
  roundTrip w = (Throw (ThrownError e), withFaults w rest).
Proof. intros H. unfold roundTrip. now rewrite H. Qed.

Lemma roundTrip_served w rest :
  faults w = None :: rest -> roundTrip w = (Ok tt, withFaults w rest).
Proof. intros H. unfold roundTrip. now rewrite H. Qed.

(** A script of connection failures shorter than the attempts left: the
    loop runs the operation once per failure and once more, sleeping
    100 * 2^attempt after each failure. *)
Lemma retryLoop_recovers (es : list JsError) :
  forall (k : nat) (attempt : Z) (last : Thrown) (w : World) rest,
    Forall (fun e => isConnectionError e = true) es ->
    faults w = map Some es ++ None :: rest ->
    (length es < k)%nat ->
    exists w',
      retryLoop roundTrip k attempt last w = (Ok tt, w')
      /\ faults w' = rest
      /\ sleeps w' = sleeps w ++ backoff (length es) attempt
      /\ store w' = store w.
Proof.
  induction es as [|e es IH]; intros k attempt last w rest Hall Hf Hk.
  - destruct k as [|k]; [simpl in Hk; lia|].
    exists (withFaults w rest). simpl in Hf.
    rewrite (retryLoop_ok _ _ _ _ _ tt (withFaults w rest) (roundTrip_served _ _ Hf)).
    simpl. rewrite app_nil_r. auto.
  - destruct k as [|k]; [simpl in Hk; lia|].
    inversion Hall as [|? ? He Hall']; subst.
    simpl in Hf.
    rewrite (retryLoop_transient _ _ _ _ _ e _ (roundTrip_fault _ _ _ Hf) He).
    destruct (IH k (attempt + 1) (ThrownError e)
                 (snd (setTimeout (100 * 2 ^ attempt) (withFaults w (map Some es ++ None :: rest))))
                 rest Hall' eq_refl) as (w' & Hrun & Hfa & Hsl & Hst).
    { simpl in Hk. lia. }
    exists w'. rewrite Hrun. simpl in Hsl. simpl.
    rewrite Hsl, <- app_assoc. auto.
Qed.

Lemma last_nonempty {A} (l : list A) (x d d' : A) :
  List.last (x :: l) d = List.last (x :: l) d'.
Proof.
  revert x. induction l as [|y l IH]; intros x; [reflexivity|].
  change (List.last (y :: l) d = List.last (y :: l) d'). apply IH.
Qed.

(** A script of connection failures as long as the attempts allowed: every
    attempt is used, each followed by its delay, and the last failure is
    thrown. *)
Lemma retryLoop_exhausts (es : list JsError) :
  forall (attempt : Z) (last : Thrown) (w : World) rest,
    Forall (fun e => isConnectionError e = true) es ->
    faults w = map Some es ++ rest ->
    exists w',
      retryLoop roundTrip (length es) attempt last w
      = (Throw (List.last (map ThrownError es) last), w')
      /\ faults w' = rest
      /\ sleeps w' = sleeps w ++ backoff (length es) attempt
      /\ store w' = store w.
Proof.
  induction es as [|e es IH]; intros attempt last w rest Hall Hf.
  - exists w. simpl. rewrite app_nil_r. auto.
  - inversion Hall as [|? ? He Hall']; subst.
    simpl in Hf. cbn [length].
    rewrite (retryLoop_transient _ _ _ _ _ e _ (roundTrip_fault _ _ _ Hf) He).
    destruct (IH (attempt + 1) (ThrownError e)
                 (snd (setTimeout (100 * 2 ^ attempt) (withFaults w (map Some es ++ rest))))
                 rest Hall' eq_refl) as (w' & Hrun & Hfa & Hsl & Hst).
    assert (Hlast : List.last (map ThrownError (e :: es)) last
                    = List.last (map ThrownError es) (ThrownError e)).
    { destruct es as [|j es]; [reflexivity|].
      cbn [map].
      change (List.last (ThrownError e :: ThrownError j :: map ThrownError es) last)
        with (List.last (ThrownError j :: map ThrownError es) last).
      apply last_nonempty. }
    exists w'. rewrite Hrun, Hlast. simpl in Hsl. cbn [backoff].
    rewrite Hsl, <- app_assoc. repeat split; auto.
Qed.

(** A serialization or deadlock code alone does not make a failure one the
    executor retries. *)
Lemma conflict_codes_not_retried (c msg : string) :
  c = "40001" \/ c = "40P01" ->
  includes msg "connection" = false ->
  includes msg "timeout" = false ->
  isConnectionError (mkError (Some c) msg) = false.
Proof.
  intros [-> | ->] H1 H2; unfold isConnectionError; simpl; now rewrite H1, H2.
Qed.

(** C7, as amended.  [executeWithRetry] runs a failed operation again only
    when [isConnectionError] accepts the failure: one of its seven
    connection codes, or a message that contains "connection" or "timeout".
    A serialization (40001) or deadlock (40P01) code alone is not accepted.
    Any other failure is thrown to the caller after the single execution,
    with no delay.  After the failure of attempt number [attempt], counted
    from 1, it sleeps 100ms * 2^attempt; it executes the operation at most
    [maxRetries] times and then throws the last failure. *)
Theorem executeWithRetry_retries_connection_failures_only :
  (forall T (queryFn : M T) (maxRetries : Z) (w w1 : World) (e : JsError),
      1 <= maxRetries ->
      queryFn w = (Throw (ThrownError e), w1) ->
      isConnectionError e = false ->
      executeWithRetry queryFn maxRetries w = (Throw (ThrownError e), w1))
  /\ (forall c msg : string,
        c = "40001" \/ c = "40P01" ->
        includes msg "connection" = false ->
        includes msg "timeout" = false ->
        isConnectionError (mkError (Some c) msg) = false)
  /\ (forall (es : list JsError) rest (maxRetries : Z) (w : World),
        Forall (fun e => isConnectionError e = true) es ->
        faults w = map Some es ++ None :: rest ->
        Z.of_nat (length es) < maxRetries ->
        exists w',
          executeWithRetry roundTrip maxRetries w = (Ok tt, w')
          /\ faults w' = rest
          /\ sleeps w' = sleeps w ++ backoff (length es) 1
          /\ store w' = store w)
  /\ (forall (es : list JsError) rest (w : World),
        Forall (fun e => isConnectionError e = true) es ->
        faults w = map Some es ++ rest ->
        exists w',
          executeWithRetry roundTrip (Z.of_nat (length es)) w
          = (Throw (List.last (map ThrownError es) ThrownUndefined), w')
          /\ faults w' = rest
          /\ sleeps w' = sleeps w ++ backoff (length es) 1
          /\ store w' = store w).
Proof.
  split; [|split; [|split]].
  - intros T queryFn maxRetries w w1 e Hm Hq He. unfold executeWithRetry.
    destruct (Z.to_nat maxRetries) as [|k] eqn:Hk; [lia|].
    now apply retryLoop_terminal.
  - exact conflict_codes_not_retried.
  - intros es rest maxRetries w Hall Hf Hlt. unfold executeWithRetry.
    apply retryLoop_recovers; auto. lia.
  - intros es rest w Hall Hf. unfold executeWithRetry.
    rewrite Nat2Z.id. now apply retryLoop_exhausts.
Qed.

Lemma executeWithRetry_retries_connection_failures_only_witness :
  executeWithRetry roundTrip 3
    (worldOf (shopOf [] true) [Some serializationFailure; None])
  = (Throw (ThrownError serializationFailure), worldOf (shopOf [] true) [None])
  /\ isConnectionError (mkError (Some "40P01") "deadlock detected") = false
  /\ (exists w',
        executeWithRetry roundTrip 3
          (worldOf (shopOf [] true) [Some connectionReset; Some connectionReset; None])
        = (Ok tt, w')
        /\ faults w' = []
        /\ sleeps w' = [200; 400]
        /\ store w' = shopOf [] true)
  /\ (exists w',
        executeWithRetry roundTrip 3
          (worldOf (shopOf [] true)
                   [Some connectionReset; Some connectionReset; Some connectionReset; None])
        = (Throw (ThrownError connectionReset), w')
        /\ faults w' = [None]
        /\ sleeps w' = [200; 400; 800]
        /\ store w' = shopOf [] true).
Proof.
  destruct executeWithRetry_retries_connection_failures_only as (H1 & H2 & H3 & H4).
  split; [|split; [|split]].
  - apply (H1 unit roundTrip 3 _ _ serializationFailure); [lia | reflexivity | reflexivity].
  - apply H2; [right; reflexivity | reflexivity | reflexivity].
  - apply (H3 [connectionReset; connectionReset] [] 3
              (worldOf (shopOf [] true) [Some connectionReset; Some connectionReset; None])).
    + repeat constructor.
    + reflexivity.
    + simpl; lia.
  - apply (H4 [connectionReset; connectionReset; connectionReset] [None]
              (worldOf (shopOf [] true)
                 [Some connectionReset; Some connectionReset; Some connectionReset; None])).
    + repeat constructor.
    + reflexivity.
Defined.

(** C7 as stated fails: an operation that fails once with a serialization
    failure, which the design counts as transient, and would succeed on the
    next attempt is not run again. *)
Lemma serialization_failure_not_retried :
  ~ (forall (e : JsError) (w : World) rest,
        designTransient e = true ->
        faults w = Some e :: None :: rest ->
        fst (executeWithRetry roundTrip defaultRetries w) = Ok tt).
Proof.
  intros H.
  specialize (H serializationFailure
                (worldOf (shopOf [] true) [Some serializationFailure; None]) []
                eq_refl eq_refl).
  vm_compute in H. discriminate H.
Qed.

(** ** The read-through cache *)

Lemma cache_get_hit key w v t :
  queryCache w !! key = Some (v, t) ->
  t = 0 \/ clock w <= t ->
  cache_get key w = (Ok (unwrap v), w).
Proof.
  intros Hl Ht. unfold cache_get. rewrite Hl.
  destruct Ht as [-> | Ht]; [reflexivity|].
  replace (t <? clock w) with false by (symmetry; apply Z.ltb_ge; lia).
  now rewrite andb_false_r.
Qed.

Lemma cache_get_missing key w :
  missing key w -> fst (cache_get key w) = Ok VUndefined.
Proof.
  unfold missing, cache_get. destruct (queryCache w !! key) as [[v t]|]; [|reflexivity].
  intros [Ht Hlt].
  replace (t =? 0) with false by (symmetry; apply Z.eqb_neq; lia).
  replace (t <? clock w) with true by (symmetry; apply Z.ltb_lt; lia).
  reflexivity.
Qed.

Lemma cache_set_lookup key v ttl w :
  queryCache (snd (cache_set key v ttl w)) !! key
  = Some (v, if ttl =? 0 then 0 else clock w + ttl * 1000).
Proof. unfold cache_set, modify. simpl. apply lookup_insert_eq. Qed.

Lemma unwrap_defined v : unwrap v <> VUndefined.
Proof. now destruct v. Qed.

(** A live entry is served, whatever it stores, and the producer does not
    run. *)
Lemma cachedQuery_hit key queryFn ttl w v t :
  queryCache w !! key = Some (v, t) ->
  t = 0 \/ clock w <= t ->
  cachedQuery key queryFn ttl w = (Ok (unwrap v), w).
Proof.
  intros Hl Ht. unfold cachedQuery.
  rewrite (bind_ok _ _ _ _ _ (cache_get_hit key w v t Hl Ht)).
  now destruct v.
Qed.

(** With nothing to serve the producer runs, through the executor, and
    what it returns is stored. *)
Lemma cachedQuery_runs key queryFn ttl w :
  missing key w ->
  cachedQuery key queryFn ttl w
  = (result ← executeWithRetry queryFn defaultRetries;
     cache_set key result ttl;;
     mret result) (snd (cache_get key w)).
Proof.
  intros Hm. unfold cachedQuery.
  pose proof (cache_get_missing key w Hm) as Hg.
  destruct (cache_get key w) as [g wg] eqn:Eg. simpl in Hg. subst g.
  now rewrite (bind_ok _ _ _ _ _ Eg).
Qed.

(** C10, as amended.  [cachedQuery] answers from the cache exactly when
    the key has an entry whose time has not passed, whatever the entry
    stores: the producer does not run and nothing changes.  The cache
    hands a stored [undefined] back as [null], which is not [undefined],
    so it is served like any other value.  With no such entry the
    producer runs, through the executor, and its result is stored and
    returned.  So when the producer returned [undefined], the call returns
    [undefined], and every later call under that key returns [null]
    without running its producer, until the entry expires or is
    invalidated. *)
Theorem cachedQuery_serves_every_live_entry
        (key : string) (queryFn : M Value) (ttl : Z) (w : World) :
  (forall v t,
      queryCache w !! key = Some (v, t) ->
      t = 0 \/ clock w <= t ->
      cachedQuery key queryFn ttl w = (Ok (unwrap v), w)
      /\ unwrap v <> VUndefined)
  /\ (missing key w ->
      cachedQuery key queryFn ttl w
      = (result ← executeWithRetry queryFn defaultRetries;
         cache_set key result ttl;;
         mret result) (snd (cache_get key w)))
  /\ (forall w1,
        missing key w ->
        executeWithRetry queryFn defaultRetries (snd (cache_get key w))
        = (Ok VUndefined, w1) ->
        fst (cachedQuery key queryFn ttl w) = Ok VUndefined
        /\ forall (later : World) (queryFn' : M Value) (ttl' : Z),
            queryCache later !! key
            = queryCache (snd (cachedQuery key queryFn ttl w)) !! key ->
            ttl = 0 \/ clock later <= clock w1 + ttl * 1000 ->
            cachedQuery key queryFn' ttl' later = (Ok VNull, later)).
Proof.
  split; [|split].
  - intros v t Hl Ht. split; [now apply (cachedQuery_hit _ _ _ _ _ t)|apply unwrap_defined].
  - apply cachedQuery_runs.
  - intros w1 Hm Hq.
    assert (Heq : cachedQuery key queryFn ttl w
                  = (Ok VUndefined, snd (cache_set key VUndefined ttl w1))).
    { rewrite (cachedQuery_runs _ _ _ _ Hm). now rewrite (bind_ok _ _ _ _ _ Hq). }
    rewrite Heq. split; [reflexivity|]. intros later queryFn' ttl' Hsame Ht.
    cbn [snd] in Hsame. rewrite cache_set_lookup in Hsame.
    apply (cachedQuery_hit key queryFn' ttl' later VUndefined _ Hsame).
    destruct (Z.eqb_spec ttl 0); [now left|right; destruct Ht; [contradiction|lia]].
Qed.

Lemma cachedQuery_serves_every_live_entry_witness :
  cachedQuery "generated-image:p1" (imageByIdQuery "p1") 60
              (seededWorld (poster "p1" true (Some 5) (Some 0)) 60000)
  = (Ok (VImage (poster "p1" true (Some 5) (Some 0))),
     seededWorld (poster "p1" true (Some 5) (Some 0)) 60000)
  /\ cachedQuery "generated-image:gone" (imageByIdQuery "gone") 60
                 (worldOf (shopOf [] true) [])
     = (Ok VUndefined,
        snd (cache_set "generated-image:gone" VUndefined 60 (worldOf (shopOf [] true) [])))
  /\ fst (cachedQuery "generated-image:gone" (imageByIdQuery "gone") 60
                      (worldOf (shopOf [] true) [])) = Ok VUndefined
  /\ cachedQuery "generated-image:gone" (throw ThrownUndefined) 60
                 (withClock (snd (cachedQuery "generated-image:gone" (imageByIdQuery "gone")
                                    60 (worldOf (shopOf [] true) [])))
                            60000)
     = (Ok VNull,
        withClock (snd (cachedQuery "generated-image:gone" (imageByIdQuery "gone") 60
                          (worldOf (shopOf [] true) [])))
                  60000).
Proof.
  split; [|split; [|split]].
  - apply (proj1 (cachedQuery_serves_every_live_entry
                    "generated-image:p1" (imageByIdQuery "p1") 60
                    (seededWorld (poster "p1" true (Some 5) (Some 0)) 60000))
                 (VImage (poster "p1" true (Some 5) (Some 0))) 60000).
    + reflexivity.
    + right. vm_compute. discriminate.
  - rewrite (proj1 (proj2 (cachedQuery_serves_every_live_entry
                             "generated-image:gone" (imageByIdQuery "gone") 60
                             (worldOf (shopOf [] true) []))) I).
    reflexivity.
  - apply (proj2 (proj2 (cachedQuery_serves_every_live_entry
                           "generated-image:gone" (imageByIdQuery "gone") 60
                           (worldOf (shopOf [] true) [])))
                 (worldOf (shopOf [] true) []) I eq_refl).
  - apply (proj2 (proj2 (cachedQuery_serves_every_live_entry
                           "generated-image:gone" (imageByIdQuery "gone") 60
                           (worldOf (shopOf [] true) [])))
                 (worldOf (shopOf [] true) []) I eq_refl).
    + reflexivity.
    + right. vm_compute. discriminate.
Defined.

(** C10 as stated fails: a lookup of a row that does not exist stores
    [undefined]; the same lookup made again is answered [null] from the
    cache, and its producer, which would now find the row, does not run. *)
Lemma cached_undefined_is_served_as_null :
  ~ (forall (key : string) (queryFn queryFn' : M Value) (ttl : Z) (w w1 : World),
        missing key w ->
        executeWithRetry queryFn defaultRetries (snd (cache_get key w))
        = (Ok VUndefined, w1) ->
        let w2 := snd (cachedQuery key queryFn ttl w) in
        cachedQuery key queryFn' ttl w2
        = (result ← executeWithRetry queryFn' defaultRetries;
           cache_set key result ttl;;
           mret result) (snd (cache_get key w2))).
Proof.
  intros H.
  specialize (H "generated-image:p1" (imageByIdQuery "p1")
                (mret (VImage (poster "p1" true (Some 5) (Some 0)))) 60
                (worldOf (shopOf [] true) []) (worldOf (shopOf [] true) [])
                I eq_refl).
  vm_compute in H. discriminate H.
Qed.

(** ** The write circuit breaker *)







(** ** The purchase handler *)

Lemma invalidateCache_eq keyPattern w :
  invalidateCache keyPattern w
  = (Ok tt, withCache w (invalidated keyPattern (queryCache w))).
Proof.
  unfold invalidateCache, invalidated. destruct (includes keyPattern "*").
  - now destruct (splitStar keyPattern).
  - reflexivity.
Qed.

Lemma invalidateCache_frame keyPattern w :
  exists c, invalidateCache keyPattern w = (Ok tt, withCache w c).
Proof.
  unfold invalidateCache. destruct (includes keyPattern "*").
  - destruct (splitStar keyPattern). eexists. reflexivity.
  - eexists. reflexivity.
Qed.


(** The insert is admissible: the uniqueness constraint, if the table has
    it, is not broken by edition [n] of [imageId]. *)
Lemma db_insertPurchase_served p w :
  faults w = [] ->
  (uniqueEditions (store w) = true ->
   existsb (sameEdition (ipp_imageId p) (ipp_editionNumber p)) (posterPurchases (store w))
   = false) ->
  db_insertPurchase p w
  = (Ok (purchaseRow (store w) p),
     withStore w (withPurchases (store w) (posterPurchases (store w) ++ [purchaseRow (store w) p]))).
Proof.
  intros Hf Hu. unfold db_insertPurchase, db_execute, roundTrip. rewrite Hf. simpl.
  destruct (uniqueEditions (store w)); simpl; [rewrite Hu by reflexivity|]; reflexivity.
Qed.

Lemma createPosterPurchase_served p w :
  faults w = [] ->
  (uniqueEditions (store w) = true ->
   existsb (sameEdition (ipp_imageId p) (ipp_editionNumber p)) (posterPurchases (store w))
   = false) ->
  exists c,
    createPosterPurchase p w
    = (Ok (purchaseRow (store w) p),
       withCache (withStore w (withPurchases (store w)
                                 (posterPurchases (store w) ++ [purchaseRow (store w) p]))) c).
Proof.
  intros Hf Hu. unfold createPosterPurchase, tryCatch.
  rewrite (bind_ok _ _ _ _ _ (executeWithRetry_ok _ _ _ _ (db_insertPurchase_served p w Hf Hu))).
  destruct (invalidateCache_frame ("poster-purchases:" +:+ ipp_imageId p)
              (withStore w (withPurchases (store w)
                              (posterPurchases (store w) ++ [purchaseRow (store w) p]))))
    as [c Hc].
  exists c. rewrite (bind_ok _ _ _ _ _ Hc). reflexivity.
Qed.

Lemma createOrder_served o w :
  faults w = [] ->
  exists c o',
    createOrder o w
    = (Ok o', withCache (withStore w (withOrders (store w) (orders (store w) ++ [o']))) c).
Proof.
  intros Hf. unfold createOrder, tryCatch.
  set (o' := mkOrder _ _ _ _ _ _ _ _ _).
  assert (Hi : db_insertOrder o' w
               = (Ok o', withStore w (withOrders (store w) (orders (store w) ++ [o'])))).
  { unfold db_insertOrder, db_execute, roundTrip, mbind, M_bind. rewrite Hf. reflexivity. }
  rewrite (bind_ok _ _ _ _ _ (executeWithRetry_ok _ _ _ _ Hi)).
  destruct (invalidateCache_frame "orders:list"
              (withStore w (withOrders (store w) (orders (store w) ++ [o'])))) as [c Hc].
  exists c, o'. rewrite (bind_ok _ _ _ _ _ Hc). reflexivity.
Qed.

Lemma readAndAssign_served tx imageId w image rest :
  faults w = [] ->
  statementsOf tx (pending w) = [] ->
  selectImages imageId (store w) = image :: rest ->
  img_isPublic image = true ->
  readAndAssign tx imageId w
  = if or_default (img_totalSupply image) 10 <=? or_default (img_soldCount image) 0
    then (Throw (plainError "This limited edition is sold out"), w)
    else (Ok (mkAssignment image (or_default (img_soldCount image) 0 + 1)
                           (or_defaultQ (img_pricePerUnit image) priceFloor)), w).
Proof.
  intros Hf Hp Hs Hpub.
  unfold readAndAssign, tx_selectImages, roundTrip, gets, mbind, M_bind.
  rewrite Hf, Hp. simpl. rewrite Hs, Hpub. simpl.
  now destruct (or_default (img_totalSupply image) 10 <=? or_default (img_soldCount image) 0).
Qed.

Lemma tx_execute_served tx s w :
  faults w = [] ->
  tx_execute tx s w = (Ok tt, withPending w (pending w ++ [(tx, s)])).
Proof.
  intros Hf. unfold tx_execute, roundTrip, modify, mbind, M_bind. now rewrite Hf.
Qed.

(** The handler against a store that answers, with what it leaves for the
    next request. *)
Lemma purchasePoster_served
        (b : PurchaseBody) (shippingData : ShippingData) (draw : Z) (user : User)
        (w : World) (image : GeneratedImage) (rest : list GeneratedImage) (N s : Z) :
  req_shippingData b = Some shippingData ->
  req_imageId b <> "" ->
  missingField shippingData = None ->
  faults w = [] ->
  pending w = [] ->
  selectImages (req_imageId b) (store w) = image :: rest ->
  img_isPublic image = true ->
  img_totalSupply image = Some N ->
  N <> 0 ->
  or_default (img_soldCount image) 0 = s ->
  (uniqueEditions (store w) = true ->
   existsb (sameEdition (req_imageId b) (s + 1)) (posterPurchases (store w)) = false) ->
  let r := fst (purchasePoster b draw user w) in
  let w' := snd (purchasePoster b draw user w) in
  (faults w' = [] /\ pending w' = []
   /\ uniqueEditions (store w') = uniqueEditions (store w))
  /\ if N <=? s then
    r = SoldOut /\ store w' = store w
  else
    status r = 200
    /\ editionOf r = Some (s + 1)
    /\ posterPurchases (store w')
       = posterPurchases (store w)
         ++ [mkPurchase (nextPurchaseId (store w)) (usr_email user) (req_imageId b)
                        (s + 1) (clock w) (or_defaultQ (img_pricePerUnit image) priceFloor)]
    /\ generatedImages (store w')
       = updateWhere (fun i => String.eqb (img_id i) (req_imageId b))
                     (applyImageUpdate (soldCountUpdate (s + 1)))
                     (generatedImages (store w))
    /\ users (store w') = users (store w).
Proof.
  intros Hship Hid Hmiss Hf Hp Hsel Hpub Htot HN Hs Hu r w'.
  subst r w'. unfold purchasePoster. rewrite Hship.
  destruct (String.eqb_spec (req_imageId b) "") as [E|_]; [contradiction|].
  rewrite Hmiss. unfold transaction, begin.
  unfold purchaseTransaction.
  assert (Hra := readAndAssign_served (nextTx w) (req_imageId b)
                   (withNextTx w (S (nextTx w))) image rest Hf).
  simpl in Hra. rewrite Hp in Hra. specialize (Hra eq_refl Hsel Hpub).
  rewrite Htot, Hs in Hra.
  replace (or_default (Some N) 10) with N in Hra
    by (unfold or_default; destruct (Z.eqb_spec N 0); [contradiction|reflexivity]).
  destruct (N <=? s) eqn:EN.
  - rewrite (bind_throw _ _ _ _ _ Hra). simpl. rewrite Hp. repeat split; auto.
  - rewrite (bind_ok _ _ _ _ _ Hra).
    set (a := mkAssignment image (s + 1) (or_defaultQ (img_pricePerUnit image) priceFloor)).
    set (w0 := withNextTx w (S (nextTx w))).
    set (p := mkInsertPurchase (usr_email user) (req_imageId b) (s + 1) (clock w)
                               (as_pricePerUnit a)).
    destruct (createPosterPurchase_served p w0 Hf Hu) as [c1 Hc1].
    assert (Hrp : recordPurchase user (req_imageId b) a w0
                  = (Ok (purchaseRow (store w0) p),
                     withCache (withStore w0 (withPurchases (store w0)
                        (posterPurchases (store w0) ++ [purchaseRow (store w0) p]))) c1)).
    { unfold recordPurchase, gets, mbind, M_bind. exact Hc1. }
    rewrite (bind_ok _ _ _ _ _ Hrp).
    match type of Hrp with _ = (_, ?x) => set (w1 := x) end.
    assert (Hus : updateSoldCount (nextTx w) (req_imageId b) a w1
                  = (Ok tt, withPending w1
                              (pending w1 ++ [(nextTx w, UpdateImage (req_imageId b)
                                                           (soldCountUpdate (s + 1)))])))
      by (apply tx_execute_served; exact Hf).
    rewrite (bind_ok _ _ _ _ _ Hus).
    match type of Hus with _ = (_, ?x) => set (w2 := x) end.
    destruct (createOrder_served
                (mkOrder shippingData draw 1 (as_pricePerUnit a)
                   ("/api/storage-image/" +:+ img_generatedPath (as_image a))
                   (img_originalPath (as_image a)) (as_editionNumber a)
                   (img_totalSupply (as_image a)) "paid") w2 Hf) as (c2 & o' & Hco).
    unfold recordOrder. rewrite (bind_ok _ _ _ _ _ Hco).
    unfold mret, M_ret. cbn [fst snd].
    unfold commit, w2, w1, w0. cbn -[applyAll statementsOf othersOf].
    rewrite Hp. cbn [app statementsOf othersOf List.filter fst snd map].
    rewrite Nat.eqb_refl. cbn.
    repeat split; auto.
Qed.

(** The handler when the table enforces unique editions and already holds
    a row with the edition the handler assigns: the insert is refused as a
    duplicate key, which the executor does not retry, the transaction
    rolls back, and the answer is the error of the store. *)
Lemma purchasePoster_duplicate
        (b : PurchaseBody) (shippingData : ShippingData) (draw : Z) (user : User)
        (w : World) (image : GeneratedImage) (rest : list GeneratedImage) (s : Z) :
  req_shippingData b = Some shippingData ->
  req_imageId b <> "" ->
  missingField shippingData = None ->
  faults w = [] ->
  pending w = [] ->
  selectImages (req_imageId b) (store w) = image :: rest ->
  img_isPublic image = true ->
  or_default (img_soldCount image) 0 = s ->
  (or_default (img_totalSupply image) 10 <=? s) = false ->
  uniqueEditions (store w) = true ->
  existsb (sameEdition (req_imageId b) (s + 1)) (posterPurchases (store w)) = true ->
  let r := fst (purchasePoster b draw user w) in
  let w' := snd (purchasePoster b draw user w) in
  r = DuplicateEdition
  /\ store w' = store w /\ pending w' = [] /\ faults w' = []
  /\ queryCache w' = queryCache w.
Proof.
  intros Hship Hid Hmiss Hf Hp Hsel Hpub Hs Hleft Hun Hdup r w'.
  subst r w'. unfold purchasePoster. rewrite Hship.
  destruct (String.eqb_spec (req_imageId b) "") as [E|_]; [contradiction|].
  rewrite Hmiss. unfold transaction, begin, purchaseTransaction.
  set (w0 := withNextTx w (S (nextTx w))).
  assert (Hra := readAndAssign_served (nextTx w) (req_imageId b) w0 image rest Hf).
  cbn [pending store w0 withNextTx] in Hra. rewrite Hp in Hra.
  specialize (Hra eq_refl Hsel Hpub). rewrite Hs, Hleft in Hra.
  rewrite (bind_ok _ _ _ _ _ Hra).
  set (a := mkAssignment image (s + 1) (or_defaultQ (img_pricePerUnit image) priceFloor)).
  set (p := mkInsertPurchase (usr_email user) (req_imageId b) (s + 1) (clock w)
                             (as_pricePerUnit a)).
  assert (Hins : db_insertPurchase p w0 = (Throw (ThrownError uniqueViolation), w0)).
  { unfold db_insertPurchase, db_execute. rewrite (roundTrip_quiet w0 Hf).
    cbn [execute store w0 withNextTx ipp_imageId ipp_editionNumber p].
    now rewrite Hun, Hdup. }
  assert (Hrp : recordPurchase user (req_imageId b) a w0
                = (Throw (ThrownError uniqueViolation), w0)).
  { unfold recordPurchase. rewrite bind_gets. change (clock w0) with (clock w). fold p.
    unfold createPosterPurchase, tryCatch.
    rewrite (bind_throw _ _ _ (ThrownError uniqueViolation) w0); [reflexivity|].
    unfold executeWithRetry, defaultRetries. change (Z.to_nat 3) with (S 2).
    now apply retryLoop_terminal. }
  rewrite (bind_throw _ _ _ _ _ Hrp).
  cbn [fst snd rollback store pending faults queryCache withPending w0 withNextTx].
  rewrite Hp. repeat split; auto.
Qed.

(** C2, as amended.  A purchase of an existing, published artifact whose
    total supply [N] is set (and not zero, as the data model has it), run
    alone against a store that answers: with [s] the sold count (null read
    as zero), if [N <= s] the answer is the sold-out error and no row
    changes.  Otherwise the handler assigns edition [s + 1].  If the
    purchases table enforces unique editions and already holds a row of
    that artifact with edition [s + 1], the insert is refused: the answer
    is the duplicate-key error of the store and no row changes.  In every
    other case exactly one purchase row with edition [s + 1] is appended
    and the artifact's sold count becomes [s + 1]. *)
Theorem purchase_assigns_next_edition
        (b : PurchaseBody) (shippingData : ShippingData) (draw : Z) (user : User)
        (w : World) (image : GeneratedImage) (rest : list GeneratedImage) (N s : Z) :
  req_shippingData b = Some shippingData ->
  req_imageId b <> "" ->
  missingField shippingData = None ->
  faults w = [] ->
  pending w = [] ->
  selectImages (req_imageId b) (store w) = image :: rest ->
  img_isPublic image = true ->
  img_totalSupply image = Some N ->
  N <> 0 ->
  or_default (img_soldCount image) 0 = s ->
  let r := fst (purchasePoster b draw user w) in
  let w' := snd (purchasePoster b draw user w) in
  if N <=? s then
    r = SoldOut /\ store w' = store w
  else if uniqueEditions (store w)
          && existsb (sameEdition (req_imageId b) (s + 1)) (posterPurchases (store w)) then
    r = DuplicateEdition /\ store w' = store w
  else
    status r = 200
    /\ editionOf r = Some (s + 1)
    /\ posterPurchases (store w')
       = posterPurchases (store w)
         ++ [mkPurchase (nextPurchaseId (store w)) (usr_email user) (req_imageId b)
                        (s + 1) (clock w) (or_defaultQ (img_pricePerUnit image) priceFloor)]
    /\ generatedImages (store w')
       = updateWhere (fun i => String.eqb (img_id i) (req_imageId b))
                     (applyImageUpdate (soldCountUpdate (s + 1)))
                     (generatedImages (store w))
    /\ users (store w') = users (store w).
Proof.
  intros Hship Hid Hmiss Hf Hp Hsel Hpub Htot HN Hs.
  assert (HT : or_default (img_totalSupply image) 10 = N).
  { rewrite Htot. unfold or_default. destruct (Z.eqb_spec N 0); [contradiction|reflexivity]. }
  destruct (uniqueEditions (store w)
            && existsb (sameEdition (req_imageId b) (s + 1)) (posterPurchases (store w)))
    eqn:Etaken.
  - destruct (N <=? s) eqn:EN.
    + unfold purchasePoster. rewrite Hship.
      destruct (String.eqb_spec (req_imageId b) "") as [E|_]; [contradiction|].
      rewrite Hmiss. unfold transaction, begin, purchaseTransaction.
      assert (Hra := readAndAssign_served (nextTx w) (req_imageId b)
                       (withNextTx w (S (nextTx w))) image rest Hf).
      cbn [pending store withNextTx] in Hra. rewrite Hp in Hra.
      specialize (Hra eq_refl Hsel Hpub). rewrite HT, Hs, EN in Hra.
      rewrite (bind_throw _ _ _ _ _ Hra). cbn. auto.
    + apply andb_true_iff in Etaken. destruct Etaken as [Hun Hdup].
      rewrite <- HT in EN.
      pose proof (purchasePoster_duplicate b shippingData draw user w image rest s
                    Hship Hid Hmiss Hf Hp Hsel Hpub Hs EN Hun Hdup) as H.
      cbv zeta in H. destruct H as (H1 & H2 & _). auto.
  - assert (Hu : uniqueEditions (store w) = true ->
                 existsb (sameEdition (req_imageId b) (s + 1)) (posterPurchases (store w))
                 = false).
    { intros Hun. now rewrite Hun in Etaken. }
    exact (proj2 (purchasePoster_served b shippingData draw user w image rest N s
                    Hship Hid Hmiss Hf Hp Hsel Hpub Htot HN Hs Hu)).
Qed.

Lemma purchase_assigns_next_edition_witness :
  (let w := worldOf (shopOf [poster "p1" true (Some 2) (Some 1)] true) [] in
   let r := fst (purchasePoster (mkPurchaseBody "p1" (Some toBuyer)) 123456 buyer w) in
   let w' := snd (purchasePoster (mkPurchaseBody "p1" (Some toBuyer)) 123456 buyer w) in
   status r = 200
   /\ editionOf r = Some 2
   /\ posterPurchases (store w')
      = [mkPurchase 1 "buyer@example.com" "p1" 2 0 (40 # 1)]
   /\ generatedImages (store w') = [poster "p1" true (Some 2) (Some 2)]
   /\ users (store w') = [seller; buyer; rival])
  /\ (let r := fst (purchasePoster (mkPurchaseBody "p1" (Some toBuyer)) 123457 buyer
                      afterFailedPurchase) in
      let w' := snd (purchasePoster (mkPurchaseBody "p1" (Some toBuyer)) 123457 buyer
                       afterFailedPurchase) in
      r = DuplicateEdition /\ store w' = store afterFailedPurchase).
Proof.
  split.
  - apply (purchase_assigns_next_edition
             (mkPurchaseBody "p1" (Some toBuyer)) toBuyer 123456 buyer
             (worldOf (shopOf [poster "p1" true (Some 2) (Some 1)] true) [])
             (poster "p1" true (Some 2) (Some 1)) [] 2 1);
      try reflexivity; discriminate.
  - apply (purchase_assigns_next_edition
             (mkPurchaseBody "p1" (Some toBuyer)) toBuyer 123457 buyer
             afterFailedPurchase
             (poster "p1" true (Some 2) (Some 0)) [] 2 0);
      try reflexivity; discriminate.
Defined.

(** C2 as stated fails.  Take the state that the failed purchase of C1
    leaves: the poster has a total supply of 2 and nothing sold, and the
    purchase row of edition 1 is stored.  The next purchase, run alone
    against a store that answers, is not sold out, yet it is answered with
    the duplicate-key error and records nothing. *)
Lemma stale_purchase_row_blocks_the_next_edition :
  ~ (forall (b : PurchaseBody) (shippingData : ShippingData) (draw : Z) (user : User)
            (w : World) (image : GeneratedImage) (rest : list GeneratedImage) (N s : Z),
        req_shippingData b = Some shippingData ->
        req_imageId b <> "" ->
        missingField shippingData = None ->
        faults w = [] ->
        pending w = [] ->
        selectImages (req_imageId b) (store w) = image :: rest ->
        img_isPublic image = true ->
        img_totalSupply image = Some N ->
        N <> 0 ->
        or_default (img_soldCount image) 0 = s ->
        let r := fst (purchasePoster b draw user w) in
        let w' := snd (purchasePoster b draw user w) in
        if N <=? s then
          r = SoldOut /\ store w' = store w
        else
          status r = 200
          /\ editionOf r = Some (s + 1)
          /\ posterPurchases (store w')
             = posterPurchases (store w)
               ++ [mkPurchase (nextPurchaseId (store w)) (usr_email user) (req_imageId b)
                              (s + 1) (clock w)
                              (or_defaultQ (img_pricePerUnit image) priceFloor)]).
Proof.
  intros H.
  specialize (H (mkPurchaseBody "p1" (Some toBuyer)) toBuyer 123457 buyer
                afterFailedPurchase (poster "p1" true (Some 2) (Some 0)) [] 2 0
                eq_refl ltac:(discriminate) eq_refl eq_refl eq_refl eq_refl eq_refl eq_refl
                ltac:(discriminate) eq_refl).
  vm_compute in H. destruct H as [H _]. discriminate H.
Qed.

(** C1, the failing run.  The update of the sold count is the third round
    trip of the handler; let the store refuse it.  The handler answers 500
    and the transaction rolls back, so the sold count is still 0, but the
    purchase row of edition 1 stays: [createPosterPurchase] inserted it
    through [db], outside the transaction.  The same request sent again
    meets that row: with the uniqueness constraint it is refused as a
    duplicate key, without it edition 1 is assigned a second time. *)
Theorem failed_purchase_keeps_its_purchase_row :
  forall unique : bool,
    let w := worldOf (shopOf [poster "p1" true (Some 2) (Some 0)] unique)
                     [None; None; Some connectionReset] in
    let r := fst (purchasePoster buyerOrder 123456 buyer w) in
    let w' := snd (purchasePoster buyerOrder 123456 buyer w) in
    let again := purchasePoster buyerOrder 123457 buyer w' in
    r = statusJson 500 (BodyError "Connection terminated unexpectedly")
    /\ generatedImages (store w') = [poster "p1" true (Some 2) (Some 0)]
    /\ posterPurchases (store w') = [mkPurchase 1 "buyer@example.com" "p1" 1 0 (40 # 1)]
    /\ orders (store w') = []
    /\ (if unique
        then fst again
             = statusJson 500 (BodyError "duplicate key value violates unique constraint")
        else editionOf (fst again) = Some 1
             /\ map pp_editionNumber (posterPurchases (store (snd again))) = [1; 1]).
Proof. intros [|]; vm_compute; repeat split; reflexivity. Qed.

(** C4, the failing run.  A cached availability read seeds the detail key
    of the poster and a read of its purchases seeds the purchase-list key;
    a purchase then sells the only unit.  The purchase clears the
    purchase-list key and leaves the detail key, which
    [updateGeneratedImage] would have cleared, in place: the next
    availability read still announces one unit, and only a read after the
    60 seconds of the entry sees the poster sold out. *)
Theorem purchase_leaves_cached_availability_stale :
  let w0 := worldOf (shopOf [poster "p1" true (Some 1) (Some 0)] true) [] in
  let seeded := checkImageAvailability "p1" w0 in
  let listed := getPosterPurchasesByImageId "p1" (snd seeded) in
  let sold := purchasePoster buyerOrder 123456 buyer (snd listed) in
  let atOnce := checkImageAvailability "p1" (snd sold) in
  let later := checkImageAvailability "p1" (withClock (snd atOnce) 60001) in
  fst seeded = Ok (mkAvailability true 1)
  /\ queryCache (snd listed) !! "poster-purchases:p1" = Some (VPurchases [], 60000)
  /\ editionOf (fst sold) = Some 1
  /\ generatedImages (store (snd sold)) = [poster "p1" true (Some 1) (Some 1)]
  /\ queryCache (snd sold) !! "poster-purchases:p1" = None
  /\ queryCache (snd sold) !! "generated-image:p1"
     = Some (VImage (poster "p1" true (Some 1) (Some 0)), 60000)
  /\ fst atOnce = Ok (mkAvailability true 1)
  /\ fst later = Ok (mkAvailability false 0).
Proof. vm_compute. repeat split; reflexivity. Qed.

(** C3, the failing run.  A poster with a total supply of 1 and two
    requests: both read the row before either commits.  Without the
    uniqueness constraint both are answered with edition 1 and two purchase
    rows carry it; with the constraint the second insert is refused and
    that request is answered with the store's duplicate-key error, not
    with the sold-out one. *)
Theorem concurrent_purchases_oversell :
  forall unique : bool,
    let w := worldOf (shopOf [poster "p1" true (Some 1) (Some 0)] unique) [] in
    let done := runSchedule bothReadFirst twoClients [Arrived; Arrived] w in
    let answers := map answerOf (fst done) in
    generatedImages (store (snd done)) = [poster "p1" true (Some 1) (Some 1)]
    /\ pending (snd done) = []
    /\ if unique
       then map (fun a => editionOf <$> a) answers = [Some (Some 1); Some None]
            /\ answers !! 1%nat
               = Some (Some (statusJson 500
                    (BodyError "duplicate key value violates unique constraint")))
            /\ answers !! 1%nat <> Some (Some SoldOut)
            /\ map pp_editionNumber (posterPurchases (store (snd done))) = [1]
       else map (fun a => editionOf <$> a) answers = [Some (Some 1); Some (Some 1)]
            /\ map pp_editionNumber (posterPurchases (store (snd done))) = [1; 1]
            /\ map pp_userEmail (posterPurchases (store (snd done)))
               = ["buyer@example.com"; "rival@example.com"].
Proof. intros [|]; vm_compute; repeat split; try reflexivity; discriminate. Qed.

(** ** The publish handler *)

Lemma or_default_counter n : 2 <= n -> (2 <=? or_default (Some n) 0) = true.
Proof.
  intros H. unfold or_default. destruct (Z.eqb_spec n 0); [lia|]. now apply Z.leb_le.
Qed.

Lemma roundTrip_frame w :
  exists f, snd (roundTrip w) = withFaults w f
            /\ (faults w = [] -> f = [] /\ fst (roundTrip w) = Ok tt).
Proof.
  unfold roundTrip. destruct (faults w) as [|[e|] rest] eqn:E.
  - exists []. split; [|auto]. simpl. destruct w; simpl in *; now subst.
  - exists rest. split; [reflexivity|discriminate].
  - exists rest. split; [reflexivity|discriminate].
Qed.

(** C9.  A publish request of a seller who is not exempt and whose counter
    is 2 or more changes nothing: rows, open statements and cache are as
    before, and the answer is never a success.  When the request is the
    seller's own, names an existing artifact, passes validation and the
    store answers, the answer is the quota refusal. *)
Theorem publish_over_quota_changes_nothing
        (decoded id : string) (b : PublicBody) (w : World) (user : User) (rest : list User) :
  selectUsers decoded (store w) = user :: rest ->
  req_isPublic b = Some true ->
  isSubscribed user (clock w) = false ->
  2 <= usr_postersForSale user ->
  let r := fst (requireAuthentication (Decoded decoded) (patchImagePublic id b) w) in
  let w' := snd (requireAuthentication (Decoded decoded) (patchImagePublic id b) w) in
  store w' = store w
  /\ pending w' = pending w
  /\ queryCache w' = queryCache w
  /\ status r <> 200
  /\ (faults w = [] ->
      supplyInvalid (req_totalSupply b) = false ->
      priceInvalid (req_pricePerUnit b) = false ->
      forall image others,
        selectImages id (store w) = image :: others ->
        img_userId image = usr_email user ->
        r = QuotaExceeded).
Proof.
  intros Hu Hpub Hsub Hq r w'. subst r w'.
  unfold requireAuthentication, db_selectUsers, gets, mbind, M_bind.
  destruct (roundTrip_frame w) as (f1 & Hw1 & Hok1).
  destruct (roundTrip w) as [[[]|t] w1] eqn:E1; simpl in Hw1; subst w1.
  2:{ simpl. repeat split; try discriminate.
      intros Hf. destruct (Hok1 Hf) as [_ H]. discriminate H. }
  cbn [store withFaults]. rewrite Hu.
  unfold patchImagePublic. rewrite Hpub. cbn [andb].
  destruct (supplyInvalid (req_totalSupply b)) eqn:Es.
  { simpl. repeat split; try discriminate. }
  destruct (priceInvalid (req_pricePerUnit b)) eqn:Ep.
  { simpl. repeat split; try discriminate. }
  unfold db_selectImages, gets, mbind, M_bind.
  destruct (roundTrip_frame (withFaults w f1)) as (f2 & Hw2 & Hok2).
  destruct (roundTrip (withFaults w f1)) as [[[]|t] w2] eqn:E2; simpl in Hw2; subst w2.
  2:{ simpl. repeat split; try discriminate.
      intros Hf. destruct (Hok1 Hf) as [-> _].
      destruct (Hok2 eq_refl) as [_ H]. discriminate H. }
  cbn [store withFaults].
  destruct (selectImages id (store w)) as [|image others] eqn:Ei.
  { simpl. repeat split; try discriminate. }
  cbn [clock withFaults]. rewrite Hsub, (or_default_counter _ Hq). cbn [negb andb].
  destruct (negb (img_userId image =? usr_email user)%string) eqn:Eo.
  - simpl. repeat split; try discriminate.
    intros _ _ _ image' others' [= <- <-] Ho. rewrite Ho, String.eqb_refl in Eo.
    discriminate.
  - simpl. repeat split; discriminate.
Qed.

Lemma publish_over_quota_changes_nothing_witness :
  let w := worldOf (quotaShop 2 [poster "p3" false None None]) [] in
  let r := fst (requireAuthentication (Decoded "seller@example.com")
                  (patchImagePublic "p3" (publishBody 10 (40 # 1))) w) in
  let w' := snd (requireAuthentication (Decoded "seller@example.com")
                   (patchImagePublic "p3" (publishBody 10 (40 # 1))) w) in
  (store w' = store w /\ pending w' = pending w /\ queryCache w' = queryCache w
   /\ status r <> 200)
  /\ r = QuotaExceeded.
Proof.
  destruct (publish_over_quota_changes_nothing
              "seller@example.com" "p3" (publishBody 10 (40 # 1))
              (worldOf (quotaShop 2 [poster "p3" false None None]) [])
              (sellerWith 2) [] eq_refl eq_refl eq_refl ltac:(simpl; lia))
    as (H1 & H2 & H3 & H4 & H5).
  split; [auto|].
  apply (H5 eq_refl eq_refl eq_refl (poster "p3" false None None) []); reflexivity.
Defined.

Lemma counter_under_quota n :
  n < 2 -> (2 <=? or_default (Some n) 0) = false.
Proof.
  intros H. unfold or_default. destruct (Z.eqb_spec n 0); apply Z.leb_gt; lia.
Qed.

(** X26.  The guard on supply and price where it applies.  For an
    artifact that is published and has a sold count above zero, a call
    whose total supply or price differs from the stored one changes no row
    and never succeeds; when the call is the owner's, passes validation and
    the quota check and the store answers, it is refused as an invalid
    supply change. *)
Theorem published_artifact_with_sales_keeps_supply_and_price
        (id : string) (b : PublicBody) (user : User) (w : World)
        (image : GeneratedImage) (rest : list GeneratedImage) :
  selectImages id (store w) = image :: rest ->
  hasSales image = true ->
  differsZ (req_totalSupply b) (img_totalSupply image)
  || differsQ (req_pricePerUnit b) (img_pricePerUnit image) = true ->
  let r := fst (patchImagePublic id b user w) in
  let w' := snd (patchImagePublic id b user w) in
  store w' = store w
  /\ pending w' = pending w
  /\ status r <> 200
  /\ (faults w = [] ->
      img_userId image = usr_email user ->
      req_isPublic b = Some false
      \/ (req_isPublic b = Some true
          /\ supplyInvalid (req_totalSupply b) = false
          /\ priceInvalid (req_pricePerUnit b) = false
          /\ (isSubscribed user (clock w) = true \/ usr_postersForSale user < 2)) ->
      r = InvalidSupplyChange).
Proof.
  intros Hsel Hsales Hdiff r w'. subst r w'. unfold patchImagePublic.
  destruct (req_isPublic b) as [isPublic|] eqn:Epub.
  2:{ simpl. repeat split; try discriminate. intros _ _ [H|[H _]]; discriminate H. }
  destruct (isPublic && supplyInvalid (req_totalSupply b)) eqn:Es.
  { simpl. repeat split; try discriminate.
    intros _ _ [[= ->]|([= ->] & Hv & _)]; [cbn [andb] in Es; discriminate Es|].
    rewrite Hv in Es. discriminate Es. }
  destruct (isPublic && priceInvalid (req_pricePerUnit b)) eqn:Ep.
  { simpl. repeat split; try discriminate.
    intros _ _ [[= ->]|([= ->] & _ & Hv & _)]; [cbn [andb] in Ep; discriminate Ep|].
    rewrite Hv in Ep. discriminate Ep. }
  unfold db_selectImages, gets, mbind, M_bind.
  destruct (roundTrip_frame w) as (f & Hw1 & Hok).
  destruct (roundTrip w) as [[[]|t] w1] eqn:E1; simpl in Hw1; subst w1.
  2:{ simpl. repeat split; try discriminate.
      intros Hf. destruct (Hok Hf) as [_ H]. discriminate H. }
  cbn [store withFaults clock]. rewrite Hsel.
  destruct (negb (img_userId image =? usr_email user)%string) eqn:Eo.
  { simpl. repeat split; try discriminate.
    intros _ Ho. rewrite Ho, String.eqb_refl in Eo. discriminate Eo. }
  destruct (isPublic && negb (isSubscribed user (clock w))
            && (2 <=? or_default (Some (usr_postersForSale user)) 0)) eqn:Eq.
  { simpl. repeat split; try discriminate.
    intros _ _ [[= ->]|([= ->] & _ & _ & [Hsub|Hc])]; [cbn [andb] in Eq; discriminate Eq| |].
    - rewrite Hsub in Eq. discriminate Eq.
    - rewrite (counter_under_quota _ Hc), andb_false_r in Eq. discriminate Eq. }
  rewrite Hsales, Hdiff. simpl. repeat split; discriminate.
Qed.

Lemma published_artifact_with_sales_keeps_supply_and_price_witness :
  let w := worldOf (shopOf [poster "p1" true (Some 5) (Some 1)] true) [] in
  let r := fst (patchImagePublic "p1" (publishBody 9 (40 # 1)) seller w) in
  let w' := snd (patchImagePublic "p1" (publishBody 9 (40 # 1)) seller w) in
  (store w' = store w /\ pending w' = pending w /\ status r <> 200)
  /\ r = InvalidSupplyChange.
Proof.
  destruct (published_artifact_with_sales_keeps_supply_and_price
              "p1" (publishBody 9 (40 # 1)) seller
              (worldOf (shopOf [poster "p1" true (Some 5) (Some 1)] true) [])
              (poster "p1" true (Some 5) (Some 1)) [] eq_refl eq_refl eq_refl)
    as (H1 & H2 & H3 & H4).
  split; [auto|].
  apply H4; [reflexivity | reflexivity |].
  right. repeat split; try reflexivity. right. simpl. lia.
Defined.

(** ** The publish-quota tracker *)

Lemma tx_execute_frame tx s w :
  exists f,
    tx_execute tx s w = (Ok tt, withPending (withFaults w f) (pending w ++ [(tx, s)]))
    \/ exists t, tx_execute tx s w = (Throw t, withFaults w f).
Proof.
  unfold tx_execute, roundTrip, modify, mbind, M_bind.
  destruct (faults w) as [|[e|] rest] eqn:E.
  - exists []. left. do 2 f_equal. destruct w; simpl in *; now subst.
  - exists rest. right. eexists. reflexivity.
  - exists rest. left. reflexivity.
Qed.

Lemma awaited_eq w :
  awaited w
  = (Ok tt, withLags (withClock w (clock w + Z.of_N (hd 0%N (lags w)))) (tl (lags w))).
Proof.
  unfold awaited, modify. destruct (lags w) as [|ms rest] eqn:E; [|reflexivity].
  f_equal. destruct w; simpl in *. subst. now rewrite Z.add_0_r.
Qed.


(** A subscription that is over stays over. *)
Lemma isSubscribed_lapsed user t t' :
  isSubscribed user t = false -> t <= t' -> isSubscribed user t' = false.
Proof.
  unfold isSubscribed. intros H Ht.
  destruct (usr_userType user =? "artistic_collective")%string; [|reflexivity].
  destruct (usr_subscriptionStatus user) as [st|]; [|reflexivity].
  destruct (st =? "active")%string; [|reflexivity].
  destruct (usr_subscriptionEndDate user) as [e|]; [|discriminate].
  cbn [andb] in *. apply Z.ltb_ge in H. apply Z.ltb_ge. lia.
Qed.

(** The transaction of the publish handler with its result: committed with
    the statement on the counter exactly when it reports a change of the
    counter, rolled back when it throws.  The statement on the counter
    follows the subscription at the second reading of the time, which is
    the time the transaction ends at. *)
Lemma publishTransaction_outcome user id isPublic image updateData w :
  pending w = [] ->
  let r := fst (transaction (publishTransaction user id isPublic image updateData) w) in
  let w' := snd (transaction (publishTransaction user id isPublic image updateData) w) in
  pending w' = []
  /\ clock w <= clock w'
  /\ queryCache w' = queryCache w
  /\ match r with
     | Ok changed =>
         store w' = applyAll (UpdateImage id updateData
                                :: counterStatements user isPublic image (clock w'))
                             (store w)
         /\ changed = match counterStatements user isPublic image (clock w') with
                      | [] => false
                      | _ => true
                      end
         /\ clock w' = clock w + Z.of_N (hd 0%N (lags w))
     | Throw _ => store w' = store w
     end.
Proof.
  intros Hp r w'. subst r w'. unfold transaction, begin, publishTransaction.
  set (w0 := withNextTx w (S (nextTx w))).
  destruct (tx_execute_frame (nextTx w) (UpdateImage id updateData) w0) as [f1 [H1|[t H1]]].
  2:{ rewrite (bind_throw _ _ _ _ _ H1). simpl. rewrite Hp. repeat split; auto. lia. }
  rewrite (bind_ok _ _ _ _ _ H1).
  match goal with |- context [(awaited ≫= _) ?c] => pose proof (awaited_eq c) as Ha end.
  rewrite (bind_ok _ _ _ _ _ Ha). rewrite bind_gets.
  cbn [clock lags withPending withFaults w0 withNextTx withLags withClock].
  set (ms := hd 0%N (lags w)).
  assert (Hms : clock w <= clock w + Z.of_N ms) by lia.
  unfold counterStatements.
  destruct (negb (isSubscribed user (clock w + Z.of_N ms))) eqn:Esub;
    [|closeTransaction Hp; rewrite ?Esub; auto].
  destruct (isPublic && negb (img_isPublic image)).
  { match goal with |- context [(tx_execute ?a ?b ≫= _) ?c] =>
      destruct (tx_execute_frame a b c) as [f2 [H2|[t H2]]] end.
    - rewrite (bind_ok _ _ _ _ _ H2). closeTransaction Hp; rewrite ?Esub; auto.
    - rewrite (bind_throw _ _ _ _ _ H2). closeTransaction Hp. }
  destruct (negb isPublic && img_isPublic image);
    [|closeTransaction Hp; rewrite ?Esub; auto].
  match goal with |- context [(tx_execute ?a ?b ≫= _) ?c] =>
    destruct (tx_execute_frame a b c) as [f2 [H2|[t H2]]] end.
  - rewrite (bind_ok _ _ _ _ _ H2). closeTransaction Hp; rewrite ?Esub; auto.
  - rewrite (bind_throw _ _ _ _ _ H2). closeTransaction Hp.
Qed.

(** What the transaction of the publish handler leaves: nothing, or the
    update of the artifact together with the statement on the counter. *)
Lemma publishTransaction_effect user id isPublic image updateData w :
  pending w = [] ->
  let w' := snd (transaction (publishTransaction user id isPublic image updateData) w) in
  pending w' = []
  /\ clock w <= clock w'
  /\ queryCache w' = queryCache w
  /\ (store w' = store w
      \/ store w' = applyAll (UpdateImage id updateData
                               :: counterStatements user isPublic image (clock w'))
                             (store w)).
Proof.
  intros Hp w'. subst w'.
  pose proof (publishTransaction_outcome user id isPublic image updateData w Hp) as H.
  cbv zeta in H. destruct H as (H1 & H2 & H3 & H4).
  repeat split; auto.
  destruct (fst (transaction _ w)); [right; apply H4|left; exact H4].
Qed.

(** One authenticated call of the publish handler with its answer: either
    it answers something other than success and rows and cache are as
    before, or it answers success, the guards of the handler were passed
    at the time the call began, the statements of its transaction are
    applied, as the time the call ends at has them, and the cached user
    row is dropped if the counter was among them. *)
Lemma setPublished_outcome decoded id b w :
  pending w = [] ->
  let r := fst (requireAuthentication (Decoded decoded) (patchImagePublic id b) w) in
  let w' := snd (requireAuthentication (Decoded decoded) (patchImagePublic id b) w) in
  pending w' = []
  /\ clock w <= clock w'
  /\ ((status r <> 200 /\ store w' = store w /\ queryCache w' = queryCache w)
      \/ exists user urest image irest isPublic,
          r = json BodySuccess
          /\ selectUsers decoded (store w) = user :: urest
          /\ selectImages id (store w) = image :: irest
          /\ img_userId image = usr_email user
          /\ req_isPublic b = Some isPublic
          /\ isPublic && negb (isSubscribed user (clock w))
             && (2 <=? or_default (Some (usr_postersForSale user)) 0) = false
          /\ hasSales image
             && (differsZ (req_totalSupply b) (img_totalSupply image)
                 || differsQ (req_pricePerUnit b) (img_pricePerUnit image)) = false
          /\ store w' = applyAll (UpdateImage id (updateDataOf isPublic b)
                                   :: counterStatements user isPublic image (clock w'))
                                 (store w)
          /\ queryCache w'
             = match counterStatements user isPublic image (clock w') with
               | [] => queryCache w
               | _ => invalidated ("user:" +:+ usr_email user) (queryCache w)
               end
          /\ isPublic && supplyInvalid (req_totalSupply b) = false
          /\ isPublic && priceInvalid (req_pricePerUnit b) = false
          /\ clock w' = clock w + Z.of_N (hd 0%N (lags w))).
Proof.
  intros Hp r w'. subst r w'.
  assert (Hno : forall s e (w1 : World),
             s <> 200 -> pending w1 = [] -> clock w <= clock w1 -> store w1 = store w ->
             queryCache w1 = queryCache w ->
             pending (snd (statusJson s e, w1)) = []
             /\ clock w <= clock (snd (statusJson s e, w1))
             /\ ((status (fst (statusJson s e, w1)) <> 200
                  /\ store (snd (statusJson s e, w1)) = store w
                  /\ queryCache (snd (statusJson s e, w1)) = queryCache w)
                 \/ exists user urest image irest isPublic,
                     fst (statusJson s e, w1) = json BodySuccess
                     /\ selectUsers decoded (store w) = user :: urest
                     /\ selectImages id (store w) = image :: irest
                     /\ img_userId image = usr_email user
                     /\ req_isPublic b = Some isPublic
                     /\ isPublic && negb (isSubscribed user (clock w))
                        && (2 <=? or_default (Some (usr_postersForSale user)) 0) = false
                     /\ hasSales image
                        && (differsZ (req_totalSupply b) (img_totalSupply image)
                            || differsQ (req_pricePerUnit b) (img_pricePerUnit image))
                        = false
                     /\ store (snd (statusJson s e, w1))
                        = applyAll (UpdateImage id (updateDataOf isPublic b)
                                      :: counterStatements user isPublic image
                                           (clock (snd (statusJson s e, w1))))
                                   (store w)
                     /\ queryCache (snd (statusJson s e, w1))
                        = match counterStatements user isPublic image
                                  (clock (snd (statusJson s e, w1))) with
                          | [] => queryCache w
                          | _ => invalidated ("user:" +:+ usr_email user) (queryCache w)
                          end
                     /\ isPublic && supplyInvalid (req_totalSupply b) = false
                     /\ isPublic && priceInvalid (req_pricePerUnit b) = false
                     /\ clock (snd (statusJson s e, w1))
                        = clock w + Z.of_N (hd 0%N (lags w)))).
  { intros s e w1 Hs H1 H2 H3 H4. cbn [fst snd status statusJson].
    split; [exact H1|]. split; [exact H2|]. left. auto. }
  assert (Hle : clock w <= clock w) by lia.
  unfold requireAuthentication, db_selectUsers, gets, mbind, M_bind.
  destruct (roundTrip_frame w) as (f1 & Hw1 & _).
  destruct (roundTrip w) as [[[]|t] w1] eqn:E1; simpl in Hw1; subst w1;
    [|apply Hno; auto; discriminate].
  cbn [store withFaults].
  destruct (selectUsers decoded (store w)) as [|user urest] eqn:Eu;
    [apply Hno; auto; discriminate|].
  unfold patchImagePublic.
  destruct (req_isPublic b) as [isPublic|] eqn:Epub; [|apply Hno; auto; discriminate].
  destruct (isPublic && supplyInvalid (req_totalSupply b)) eqn:Evs;
    [apply Hno; auto; discriminate|].
  destruct (isPublic && priceInvalid (req_pricePerUnit b)) eqn:Evp;
    [apply Hno; auto; discriminate|].
  unfold db_selectImages, gets, mbind, M_bind.
  destruct (roundTrip_frame (withFaults w f1)) as (f2 & Hw2 & _).
  destruct (roundTrip (withFaults w f1)) as [[[]|t] w2] eqn:E2; simpl in Hw2; subst w2;
    [|apply Hno; auto; discriminate].
  cbn [store withFaults clock].
  destruct (selectImages id (store w)) as [|image irest] eqn:Ei;
    [apply Hno; auto; discriminate|].
  destruct (negb (img_userId image =? usr_email user)%string) eqn:Eo;
    [apply Hno; auto; discriminate|].
  apply negb_false_iff, String.eqb_eq in Eo.
  destruct (isPublic && negb (isSubscribed user (clock w))
            && (2 <=? or_default (Some (usr_postersForSale user)) 0)) eqn:Eq;
    [apply (Hno 403); auto; discriminate|].
  destruct (hasSales image
            && (differsZ (req_totalSupply b) (img_totalSupply image)
                || differsQ (req_pricePerUnit b) (img_pricePerUnit image))) eqn:Es;
    [apply Hno; auto; discriminate|].
  set (w1 := withFaults (withFaults w f1) f2).
  pose proof (publishTransaction_outcome user id isPublic image (updateDataOf isPublic b)
                w1 Hp) as H.
  cbv zeta in H. destruct H as (Hpe & Hcl & Hca & Hst).
  destruct (transaction (publishTransaction user id isPublic image (updateDataOf isPublic b)) w1)
    as [[changed|t] w2] eqn:Et; cbn [fst snd] in Hpe, Hcl, Hca, Hst.
  all: change (clock w1) with (clock w) in *; change (store w1) with (store w) in *;
    change (queryCache w1) with (queryCache w) in *.
  2:{ apply Hno; auto; discriminate. }
  destruct Hst as (Hst & Hch & Hms). change (lags w1) with (lags w) in Hms. cbn [fst snd].
  assert (Hfin : let w3 := if changed
                           then snd (invalidateCache ("user:" +:+ usr_email user) w2)
                           else w2 in
                 pending w3 = [] /\ clock w3 = clock w2 /\ store w3 = store w2
                 /\ queryCache w3
                    = match counterStatements user isPublic image (clock w2) with
                      | [] => queryCache w
                      | _ => invalidated ("user:" +:+ usr_email user) (queryCache w)
                      end).
  { cbv zeta. rewrite Hch.
    destruct (counterStatements user isPublic image (clock w2)); [auto|].
    rewrite invalidateCache_eq. cbn [snd pending clock store queryCache withCache].
    rewrite Hca. auto. }
  cbv zeta in Hfin. destruct Hfin as (H1 & H2 & H3 & H4).
  split; [exact H1|]. split; [rewrite H2; exact Hcl|]. right.
  exists user, urest, image, irest, isPublic. rewrite H2, H3, H4. repeat split; auto.
Qed.


(** With the store answering the transaction of the publish handler
    commits. *)
Lemma publishTransaction_served user id isPublic image updateData w :
  faults w = [] ->
  exists changed,
    fst (transaction (publishTransaction user id isPublic image updateData) w) = Ok changed.
Proof.
  intros Hf. unfold transaction, begin, publishTransaction.
  set (w0 := withNextTx w (S (nextTx w))).
  rewrite (bind_ok _ _ _ _ _ (tx_execute_served (nextTx w) _ w0 Hf)).
  match goal with |- context [(awaited ≫= _) ?c] =>
    rewrite (bind_ok _ _ c _ _ (awaited_eq c)) end.
  rewrite bind_gets.
  destruct (negb (isSubscribed user _)); [|eexists; reflexivity].
  destruct (isPublic && negb (img_isPublic image)).
  { match goal with |- context [(tx_execute ?a ?b ≫= _) ?c] =>
      rewrite (bind_ok _ _ c _ _ (tx_execute_served a b c Hf)) end.
    eexists; reflexivity. }
  destruct (negb isPublic && img_isPublic image); [|eexists; reflexivity].
  match goal with |- context [(tx_execute ?a ?b ≫= _) ?c] =>
    rewrite (bind_ok _ _ c _ _ (tx_execute_served a b c Hf)) end.
  eexists; reflexivity.
Qed.

(** With the store answering, an authenticated call of the owner that
    passes the guards of the handler is answered with success. *)
Lemma setPublished_served decoded id b w user urest image irest isPublic :
  faults w = [] ->
  selectUsers decoded (store w) = user :: urest ->
  selectImages id (store w) = image :: irest ->
  img_userId image = usr_email user ->
  req_isPublic b = Some isPublic ->
  isPublic && supplyInvalid (req_totalSupply b) = false ->
  isPublic && priceInvalid (req_pricePerUnit b) = false ->
  isPublic && negb (isSubscribed user (clock w))
  && (2 <=? or_default (Some (usr_postersForSale user)) 0) = false ->
  hasSales image
  && (differsZ (req_totalSupply b) (img_totalSupply image)
      || differsQ (req_pricePerUnit b) (img_pricePerUnit image)) = false ->
  fst (requireAuthentication (Decoded decoded) (patchImagePublic id b) w) = json BodySuccess.
Proof.
  intros Hf Hu Hi Ho Hpub Hvs Hvp Hq Hs.
  unfold requireAuthentication, db_selectUsers.
  rewrite (bind_ok _ _ _ _ _ (roundTrip_quiet w Hf)). unfold gets. rewrite Hu.
  unfold patchImagePublic. rewrite Hpub, Hvs, Hvp.
  unfold db_selectImages. rewrite (bind_ok _ _ _ _ _ (roundTrip_quiet w Hf)).
  unfold gets. rewrite Hi, Ho, String.eqb_refl. cbn [negb]. rewrite Hq, Hs.
  destruct (publishTransaction_served user id isPublic image (updateDataOf isPublic b) w Hf)
    as [changed Hc].
  destruct (transaction _ w) as [[c|t] w2]; cbn [fst] in Hc; [reflexivity|discriminate Hc].
Qed.

(** What one authenticated call of the publish handler leaves. *)
Lemma setPublished_effect decoded id b w :
  pending w = [] ->
  let w' := snd (requireAuthentication (Decoded decoded) (patchImagePublic id b) w) in
  pending w' = []
  /\ clock w <= clock w'
  /\ (store w' = store w
      \/ exists user urest image irest isPublic,
          selectUsers decoded (store w) = user :: urest
          /\ selectImages id (store w) = image :: irest
          /\ img_userId image = usr_email user
          /\ req_isPublic b = Some isPublic
          /\ store w' = applyAll (UpdateImage id (updateDataOf isPublic b)
                                   :: counterStatements user isPublic image (clock w'))
                                 (store w)).
Proof.
  intros Hp w'. subst w'.
  destruct (setPublished_outcome decoded id b w Hp) as (H1 & H2 & H).
  split; [exact H1|]. split; [exact H2|].
  destruct H as [(_ & H & _) | (user & urest & image & irest & isPublic & _ & Hu & Hi & Ho
                                 & Hpub & _ & _ & Hst & _)]; [now left|].
  right. exists user, urest, image, irest, isPublic. auto.
Qed.

Lemma updateWhere_ids p u l :
  map img_id (updateWhere p (applyImageUpdate u) l) = map img_id l.
Proof.
  induction l as [|a l IH]; [reflexivity|]. simpl. rewrite IH.
  now destruct (p a).
Qed.

Lemma updateWhere_none {A} (p : A -> bool) f l :
  (forall r, In r l -> p r = false) -> updateWhere p f l = l.
Proof.
  induction l as [|a l IH]; intros H; [reflexivity|]. simpl.
  rewrite (H a (or_introl eq_refl)). f_equal. apply IH. intros r Hr. apply H. now right.
Qed.

Lemma updateWhere_same p l :
  updateWhere p (setPostersForSale (fun n => n)) l = l.
Proof.
  induction l as [|a l IH]; [reflexivity|]. simpl. rewrite IH.
  destruct (p a); [|reflexivity]. now destruct a.
Qed.

(** Updating the one row with a given id changes a count of rows by what
    the row contributed before and contributes after. *)
Lemma count_after_update (q : GeneratedImage -> bool) u id l image irest :
  NoDup (map img_id l) ->
  List.filter (fun i => String.eqb (img_id i) id) l = image :: irest ->
  Z.of_nat (length (List.filter q
              (updateWhere (fun i => String.eqb (img_id i) id) (applyImageUpdate u) l)))
  = Z.of_nat (length (List.filter q l))
    - Z.b2z (q image) + Z.b2z (q (applyImageUpdate u image)).
Proof.
  induction l as [|a l IH]; intros Hnd Hsel; [discriminate|].
  cbn [map] in Hnd. inversion Hnd as [|? ? Hnotin Hnd']; subst.
  cbn [List.filter] in Hsel. cbn [updateWhere map List.filter].
  destruct (String.eqb_spec (img_id a) id) as [Ea|Ea].
  - injection Hsel as -> _.
    fold (updateWhere (fun i => String.eqb (img_id i) id) (applyImageUpdate u) l).
    rewrite (updateWhere_none (fun i => String.eqb (img_id i) id) (applyImageUpdate u) l).
    + destruct (q image), (q (applyImageUpdate u image));
        cbn [length Z.b2z]; rewrite ?Nat2Z.inj_succ; lia.
    + intros r Hr. apply String.eqb_neq. intros Er. apply Hnotin.
      apply list_elem_of_In. rewrite Ea, <- Er. now apply in_map.
  - fold (updateWhere (fun i => String.eqb (img_id i) id) (applyImageUpdate u) l).
    specialize (IH Hnd' Hsel).
    destruct (q a); cbn [length]; rewrite ?Nat2Z.inj_succ; lia.
Qed.

Lemma filter_users_after_update s e g l :
  (forall r, usr_email (g r) = usr_email r) ->
  List.filter (fun r => String.eqb (usr_email r) s)
              (updateWhere (fun r => String.eqb (usr_email r) e) g l)
  = if String.eqb e s
    then map g (List.filter (fun r => String.eqb (usr_email r) s) l)
    else List.filter (fun r => String.eqb (usr_email r) s) l.
Proof.
  intros Hg. induction l as [|a l IH].
  - now destruct (String.eqb e s).
  - simpl. destruct (String.eqb_spec e s) as [->|Hes].
    + destruct (String.eqb_spec (usr_email a) s) as [Ea|Ea].
      * rewrite Hg, Ea, String.eqb_refl. simpl. now rewrite IH.
      * destruct (String.eqb_spec (usr_email a) s); [contradiction|]. exact IH.
    + destruct (String.eqb_spec (usr_email a) e) as [Ea|Ea].
      * rewrite Hg. destruct (String.eqb_spec (usr_email a) s) as [Es|Es].
        -- congruence.
        -- exact IH.
      * destruct (String.eqb_spec (usr_email a) s); [f_equal|]; exact IH.
Qed.

Lemma selectUsers_email e d user rest :
  selectUsers e d = user :: rest -> usr_email user = e.
Proof.
  unfold selectUsers. intros H.
  assert (Hin : In user (List.filter (fun r => String.eqb (usr_email r) e) (users d)))
    by (rewrite H; now left).
  apply filter_In in Hin. now apply String.eqb_eq.
Qed.

(** The rows after the statements of one publish transaction. *)
Lemma applyAll_publish id u user isPublic image now d :
  let d' := applyAll (UpdateImage id u :: counterStatements user isPublic image now) d in
  generatedImages d'
  = updateWhere (fun i => String.eqb (img_id i) id) (applyImageUpdate u) (generatedImages d)
  /\ users d'
     = updateWhere (fun r => String.eqb (usr_email r) (usr_email user))
                   (setPostersForSale (counterChange user isPublic image now)) (users d).
Proof.
  unfold counterStatements, counterChange. simpl.
  destruct (negb (isSubscribed user now)); simpl.
  - destruct (isPublic && negb (img_isPublic image)); simpl; [auto|].
    destruct (negb isPublic && img_isPublic image); simpl; [auto|].
    split; [reflexivity|]. symmetry. apply updateWhere_same.
  - split; [reflexivity|]. symmetry. apply updateWhere_same.
Qed.

Lemma setPostersForSale_email f r : usr_email (setPostersForSale f r) = usr_email r.
Proof. reflexivity. Qed.

Lemma isSubscribed_setPostersForSale f r now :
  isSubscribed (setPostersForSale f r) now = isSubscribed r now.
Proof. reflexivity. Qed.

Lemma filter_nonempty {A} (q : A -> bool) l x :
  In x l -> q x = true -> 1 <= Z.of_nat (length (List.filter q l)).
Proof.
  intros Hin Hq.
  assert (H : In x (List.filter q l)) by (apply filter_In; auto).
  destruct (List.filter q l); [contradiction|]. cbn [length]. lia.
Qed.

(** One call of the publish handler, by anyone, keeps the invariant of a
    seller who is not exempt. *)
Lemma exempt_lapsed seller d t t' :
  exempt seller d t = false -> t <= t' -> exempt seller d t' = false.
Proof.
  unfold exempt. destruct (selectUsers seller d) as [|u ?]; [reflexivity|].
  apply isSubscribed_lapsed.
Qed.

Lemma setPublished_keeps_invariant seller decoded id b w :
  quotaInvariant seller w ->
  quotaInvariant seller (quotaStep (SetPublished decoded id b) w).
Proof.
  intros (Hnd & Hp & Hex0 & Hc). unfold quotaStep.
  destruct (setPublished_effect decoded id b w Hp) as (Hp' & Hcl & Hst).
  set (w' := snd (requireAuthentication (Decoded decoded) (patchImagePublic id b) w)) in *.
  pose proof (exempt_lapsed _ _ _ _ Hex0 Hcl) as Hex.
  unfold quotaInvariant.
  destruct Hst as [Hst | (user & urest & image & irest & isPublic & Hu & Hi & Ho & Hpub & Hst)].
  { rewrite Hst. auto. }
  destruct (applyAll_publish id (updateDataOf isPublic b) user isPublic image (clock w')
              (store w)) as [Himg Husr].
  rewrite <- Hst in Himg, Husr.
  pose proof (selectUsers_email _ _ _ _ Hu) as Hemail.
  assert (Hsel : List.filter (fun r => String.eqb (usr_email r) seller) (users (store w'))
                 = if String.eqb decoded seller
                   then map (setPostersForSale (counterChange user isPublic image (clock w')))
                            (selectUsers seller (store w))
                   else selectUsers seller (store w)).
  { rewrite Husr, Hemail. apply filter_users_after_update. reflexivity. }
  assert (Hcount : Z.of_nat (length (publishedBy seller (store w')))
                   = Z.of_nat (length (publishedBy seller (store w)))
                     - Z.b2z (String.eqb decoded seller && img_isPublic image)
                     + Z.b2z (String.eqb decoded seller && isPublic)).
  { unfold publishedBy. rewrite Himg.
    rewrite (count_after_update _ _ _ _ image irest Hnd Hi).
    cbn [applyImageUpdate img_userId img_isPublic updateDataOf set_isPublic assign].
    now rewrite Ho, Hemail. }
  repeat split.
  - rewrite Himg, updateWhere_ids. exact Hnd.
  - exact Hp'.
  - unfold exempt, selectUsers in *. rewrite Hsel.
    destruct (String.eqb decoded seller); [|exact Hex].
    destruct (List.filter _ (users (store w))); [reflexivity|exact Hex].
  - unfold postersForSaleOf, selectUsers in *. rewrite Hsel, Hcount.
    destruct (String.eqb_spec decoded seller) as [->|Hne]; cbn [andb Z.b2z]; [|lia].
    unfold exempt, selectUsers in Hex. unfold selectUsers in Hu. rewrite Hu in *. cbn [map].
    cbn [setPostersForSale usr_postersForSale].
    unfold counterChange. rewrite Hex. cbn [negb].
    destruct isPublic, (img_isPublic image) eqn:Epub; cbn [andb negb Z.b2z]; try lia.
    assert (1 <= Z.of_nat (length (publishedBy seller (store w)))).
    { unfold publishedBy. apply (filter_nonempty _ _ image).
      - assert (Hin : In image (selectImages id (store w))) by (rewrite Hi; now left).
        unfold selectImages in Hin. now apply filter_In in Hin.
      - now rewrite Ho, Hemail, String.eqb_refl, Epub. }
    lia.
Qed.

Lemma quotaRun_keeps_invariant seller es :
  forall w,
    publishCallsOnly es ->
    quotaInvariant seller w ->
    quotaInvariant seller (quotaRun es w).
Proof.
  induction es as [|e es IH]; intros w Hes Hi; [exact Hi|].
  inversion Hes as [|? ? He Hes']; subst.
  unfold quotaRun. cbn [fold_left]. apply IH; [exact Hes'|].
  destruct e as [decoded id b | email u | ms].
  - now apply setPublished_keeps_invariant.
  - contradiction.
  - destruct Hi as (Hnd & Hp & Hex & Hc). unfold quotaInvariant, quotaStep.
    cbn [store pending clock withClock]. repeat split; auto.
    apply (exempt_lapsed _ _ _ _ Hex). lia.
Qed.

(** The executor keeps whatever every attempt and every delay keep. *)
Lemma retryLoop_preserves {T} (P : World -> Prop) (queryFn : M T) :
  (forall w, P w -> P (snd (queryFn w))) ->
  (forall ms w, P w -> P (snd (setTimeout ms w))) ->
  forall k attempt last w, P w -> P (snd (retryLoop queryFn k attempt last w)).
Proof.
  intros Hq Hs. induction k as [|k IH]; intros attempt last w Hw; [exact Hw|].
  simpl. unfold tryCatch. specialize (Hq w Hw).
  destruct (queryFn w) as [[v|[e|]] w1]; simpl in Hq; [exact Hq| |exact Hq].
  destruct (negb (isConnectionError e)); [exact Hq|].
  unfold mbind, M_bind. specialize (Hs (100 * 2 ^ attempt) w1 Hq).
  destruct (setTimeout (100 * 2 ^ attempt) w1) as [[[]|t] w2]; simpl in Hs.
  - apply IH. exact Hs.
  - exact Hs.
Qed.

Lemma counterChange_nonneg user isPublic image now n :
  0 <= n -> 0 <= counterChange user isPublic image now n.
Proof.
  intros H. unfold counterChange.
  destruct (negb (isSubscribed user now)); [|exact H].
  destruct (isPublic && negb (img_isPublic image)); [lia|].
  destruct (negb isPublic && img_isPublic image); lia.
Qed.

Lemma setPublished_keeps_counter_nonneg seller decoded id b w :
  pending w = [] ->
  0 <= postersForSaleOf seller (store w) ->
  pending (quotaStep (SetPublished decoded id b) w) = []
  /\ 0 <= postersForSaleOf seller (store (quotaStep (SetPublished decoded id b) w)).
Proof.
  intros Hp Hn. unfold quotaStep.
  destruct (setPublished_effect decoded id b w Hp) as (Hp' & _ & Hst).
  split; [exact Hp'|].
  destruct Hst as [-> | (user & urest & image & irest & isPublic & Hu & _ & _ & _ & Hst)];
    [exact Hn|].
  destruct (applyAll_publish id (updateDataOf isPublic b) user isPublic image
              (clock (snd (requireAuthentication (Decoded decoded) (patchImagePublic id b) w)))
              (store w)) as [_ Husr].
  rewrite <- Hst in Husr. unfold postersForSaleOf, selectUsers in *.
  rewrite Husr, filter_users_after_update by reflexivity.
  destruct (String.eqb (usr_email user) seller); [|exact Hn].
  destruct (List.filter _ (users (store w))) as [|u l]; [exact Hn|].
  cbn [map setPostersForSale usr_postersForSale]. now apply counterChange_nonneg.
Qed.

Lemma subscriptionChange_keeps_counter seller email u w :
  pending (snd (updateUserSubscriptionStatus email u w)) = pending w
  /\ postersForSaleOf seller (store (snd (updateUserSubscriptionStatus email u w)))
     = postersForSaleOf seller (store w).
Proof.
  set (P := fun w' : World =>
              pending w' = pending w
              /\ postersForSaleOf seller (store w') = postersForSaleOf seller (store w)).
  assert (Hex : P (snd (executeWithRetry (db_execute (UpdateUser email u)) defaultRetries w))).
  { unfold executeWithRetry. apply retryLoop_preserves; [| |split; reflexivity].
    - intros w1 [H1 H2]. unfold db_execute.
      destruct (roundTrip_frame w1) as (f & Hw & _).
      destruct (roundTrip w1) as [[[]|t] w2]; simpl in Hw; subst w2;
        [|split; assumption].
      cbn [execute snd store withStore withFaults pending]. split; [exact H1|].
      rewrite <- H2. unfold postersForSaleOf, selectUsers.
      cbn [users withUsers store withStore].
      rewrite filter_users_after_update by reflexivity.
      destruct (String.eqb email seller); [|reflexivity].
      now destruct (List.filter _ (users (store w1))).
    - intros ms w1 H. exact H. }
  change (P (snd (updateUserSubscriptionStatus email u w))).
  unfold updateUserSubscriptionStatus, tryCatch.
  unfold mbind at 1, M_bind at 1.
  destruct (executeWithRetry (db_execute (UpdateUser email u)) defaultRetries w)
    as [[[]|t] w1]; cbn [snd] in Hex; [|exact Hex].
  rewrite bind_gets.
  destruct (invalidateCache_frame ("user:" +:+ email) w1) as [c Hc].
  rewrite (bind_ok _ _ _ _ _ Hc). exact Hex.
Qed.

(** Whatever the calls and the changes of subscription, the counter of a
    seller never becomes negative. *)
Lemma quotaRun_keeps_counter_nonneg seller es :
  forall w,
    pending w = [] ->
    0 <= postersForSaleOf seller (store w) ->
    0 <= postersForSaleOf seller (store (quotaRun es w)).
Proof.
  induction es as [|e es IH]; intros w Hp Hn; [exact Hn|].
  unfold quotaRun. cbn [fold_left].
  destruct e as [decoded id b | email u | ms].
  - destruct (setPublished_keeps_counter_nonneg seller decoded id b w Hp Hn) as [Hp' Hn'].
    now apply IH.
  - destruct (subscriptionChange_keeps_counter seller email u w) as [Hp' Hn'].
    apply IH; cbn [quotaStep]; [now rewrite Hp'|now rewrite Hn'].
  - now apply IH.
Qed.

(** C5, as amended.  Take a seller who is not exempt and whose counter
    equals the number of the seller's published artifacts.  After any
    sequence of publish and unpublish calls, by that seller or by others,
    whatever round trips the store refuses, the counter still equals the
    number of the seller's published artifacts, each of them published
    while the seller was not exempt, and the seller is still not exempt.
    The counter is never negative, and that part holds for any sequence,
    changes of subscription included. *)
Theorem quota_counter_matches_published_artifacts
        (seller : string) (es : list QuotaEvent) (w : World) :
  (quotaInvariant seller w ->
   publishCallsOnly es ->
   postersForSaleOf seller (store (quotaRun es w))
   = Z.of_nat (length (publishedBy seller (store (quotaRun es w))))
   /\ exempt seller (store (quotaRun es w)) (clock (quotaRun es w)) = false)
  /\ (pending w = [] ->
      0 <= postersForSaleOf seller (store w) ->
      0 <= postersForSaleOf seller (store (quotaRun es w))).
Proof.
  split.
  - intros Hi Hes.
    destruct (quotaRun_keeps_invariant seller es w Hes Hi) as (_ & _ & Hex & Hc). auto.
  - apply quotaRun_keeps_counter_nonneg.
Qed.

Lemma drafts_ids_distinct : NoDup (map img_id drafts).
Proof.
  cbn. repeat (constructor;
               [intros Hin; apply list_elem_of_In in Hin; simpl in Hin;
                intuition discriminate|]).
  constructor.
Qed.

Lemma quota_counter_matches_published_artifacts_witness :
  let w := quotaRun quotaScenario (worldOf (shopOf drafts true) []) in
  (postersForSaleOf "seller@example.com" (store w)
   = Z.of_nat (length (publishedBy "seller@example.com" (store w)))
   /\ exempt "seller@example.com" (store w) (clock w) = false)
  /\ 0 <= postersForSaleOf "seller@example.com" (store w).
Proof.
  destruct (quota_counter_matches_published_artifacts
              "seller@example.com" quotaScenario (worldOf (shopOf drafts true) []))
    as [H1 H2].
  split.
  - apply H1.
    + repeat split; try reflexivity.
      exact drafts_ids_distinct.
    + repeat constructor.
  - apply H2; [reflexivity | vm_compute; discriminate].
Defined.

Lemma quotaTrace_run seller es :
  forall w ledger, fst (quotaTrace seller es w ledger) = quotaRun es w.
Proof.
  induction es as [|e es IH]; intros w ledger; [reflexivity|].
  cbn [quotaTrace]. rewrite IH. reflexivity.
Qed.

(** C5 as stated fails: starting with nothing on sale and the counter at
    0, a seller whose subscription is still running publishes a first
    poster (the counter stays 0).  The subscription runs out.  The seller,
    no longer exempt, publishes a second poster (counter 1) and withdraws
    the first: the withdrawal decrements the counter to 0, while the second
    poster, published while the seller was not exempt, is still on sale. *)
Lemma lapsed_subscription_breaks_quota_count :
  ~ (forall (seller : string) (es : list QuotaEvent) (w : World),
        pending w = [] ->
        faults w = [] ->
        NoDup (map img_id (generatedImages (store w))) ->
        publishedBy seller (store w) = [] ->
        postersForSaleOf seller (store w) = 0 ->
        let w' := fst (quotaTrace seller es w []) in
        let ledger := snd (quotaTrace seller es w []) in
        exempt seller (store w') (clock w') = false ->
        postersForSaleOf seller (store w') = countedPublished seller ledger (store w')).
Proof.
  intros H.
  specialize (H "seller@example.com" lapseScenario (worldOf (subscriberShop drafts) [])
                eq_refl eq_refl drafts_ids_distinct eq_refl eq_refl).
  vm_compute in H. specialize (H eq_refl). discriminate H.
Qed.

(** ** A request running alone is the handler *)

Lemma readAndAssign_pending tx imageId w :
  pending (snd (readAndAssign tx imageId w)) = pending w.
Proof.
  unfold readAndAssign, tx_selectImages, gets, mbind, M_bind.
  destruct (roundTrip_frame w) as (f & Hw & _).
  destruct (roundTrip w) as [[[]|t] w1]; simpl in Hw; subst w1; [|reflexivity].
  destruct (selectImages _ _) as [|image ?]; [reflexivity|].
  destruct (negb (img_isPublic image)); [reflexivity|].
  now destruct (_ <=? _).
Qed.

Lemma createPosterPurchase_pending p w :
  pending (snd (createPosterPurchase p w)) = pending w.
Proof.
  assert (Hex : pending (snd (executeWithRetry (db_insertPurchase p) defaultRetries w))
                = pending w).
  { unfold executeWithRetry.
    apply (retryLoop_preserves (fun w' => pending w' = pending w)); [| |reflexivity].
    - intros w1 H. unfold db_insertPurchase, db_execute.
      destruct (roundTrip_frame w1) as (f & Hw & _).
      destruct (roundTrip w1) as [[[]|t] w2]; simpl in Hw; subst w2; [|exact H].
      destruct (execute (InsertPurchase p) (store (withFaults w1 f))); exact H.
    - intros ms w1 H. exact H. }
  unfold createPosterPurchase, tryCatch. unfold mbind at 1, M_bind at 1.
  destruct (executeWithRetry (db_insertPurchase p) defaultRetries w) as [[v|t] w1];
    cbn [snd] in Hex; [|exact Hex].
  destruct (invalidateCache_frame ("poster-purchases:" +:+ ipp_imageId p) w1) as [c Hc].
  rewrite (bind_ok _ _ _ _ _ Hc). exact Hex.
Qed.

(** The six steps of a request that runs alone make the handler: the
    stages of [advance] are the handler cut at its awaits. *)
Lemma runAlone_is_purchasePoster c w :
  pending w = [] ->
  cl_imageId c <> "" ->
  missingField (cl_shippingData c) = None ->
  runAlone c w
  = (Finished (fst (purchasePoster (mkPurchaseBody (cl_imageId c) (Some (cl_shippingData c)))
                                   (cl_draw c) (cl_user c) w)),
     snd (purchasePoster (mkPurchaseBody (cl_imageId c) (Some (cl_shippingData c)))
                         (cl_draw c) (cl_user c) w)).
Proof.
  intros Hp Hid Hmiss. unfold purchasePoster. cbn [req_shippingData req_imageId].
  destruct (String.eqb_spec (cl_imageId c) "") as [E|_]; [contradiction|].
  rewrite Hmiss. unfold transaction, begin, purchaseTransaction, runAlone.
  cbn [advance begin]. set (tx := nextTx w). set (w0 := withNextTx w (S tx)).
  pose proof (readAndAssign_pending tx (cl_imageId c) w0) as Hp1.
  destruct (readAndAssign tx (cl_imageId c) w0) as [[a|t] w1] eqn:E1; cbn [snd] in Hp1.
  2:{ rewrite (bind_throw _ _ _ _ _ E1). reflexivity. }
  rewrite (bind_ok _ _ _ _ _ E1). cbn [advance].
  assert (Hp2 : pending (snd (recordPurchase (cl_user c) (cl_imageId c) a w1)) = pending w1).
  { unfold recordPurchase. rewrite bind_gets. apply createPosterPurchase_pending. }
  cbn [advance].
  destruct (recordPurchase (cl_user c) (cl_imageId c) a w1) as [[p|t] w2] eqn:E2;
    cbn [snd] in Hp2.
  2:{ rewrite (bind_throw _ _ _ _ _ E2). reflexivity. }
  rewrite (bind_ok _ _ _ _ _ E2). cbn [advance].
  assert (Hfree : rowLocked tx (cl_imageId c) w2 = false).
  { unfold rowLocked. rewrite Hp2, Hp1. subst w0. cbn [pending withNextTx].
    now rewrite Hp. }
  rewrite Hfree.
  destruct (updateSoldCount tx (cl_imageId c) a w2) as [[[]|t] w3] eqn:E3.
  2:{ rewrite (bind_throw _ _ _ _ _ E3). reflexivity. }
  rewrite (bind_ok _ _ _ _ _ E3). cbn [advance].
  destruct (recordOrder (cl_shippingData c) (cl_draw c) a w3) as [[o|t] w4] eqn:E4.
  2:{ rewrite (bind_throw _ _ _ _ _ E4). reflexivity. }
  rewrite (bind_ok _ _ _ _ _ E4). cbn [advance]. reflexivity.
Qed.

(** ** Purchases served in turn *)

Lemma filter_images_after_update id f l :
  (forall i, img_id (f i) = img_id i) ->
  List.filter (fun i => String.eqb (img_id i) id)
              (updateWhere (fun i => String.eqb (img_id i) id) f l)
  = map f (List.filter (fun i => String.eqb (img_id i) id) l).
Proof.
  intros Hf. induction l as [|a l IH]; [reflexivity|].
  cbn [updateWhere map List.filter].
  destruct (String.eqb_spec (img_id a) id) as [E|E].
  - rewrite Hf, E, String.eqb_refl. cbn [map]. f_equal. exact IH.
  - destruct (String.eqb_spec (img_id a) id); [contradiction|]. exact IH.
Qed.

Lemma no_edition_above id s l :
  Forall (fun r => pp_imageId r = id -> pp_editionNumber r <= s) l ->
  existsb (sameEdition id (s + 1)) l = false.
Proof.
  induction 1 as [|r l Hr _ IH]; [reflexivity|].
  cbn [existsb]. rewrite IH, orb_false_r. unfold sameEdition.
  destruct (String.eqb_spec (pp_imageId r) id) as [E|_]; [|reflexivity].
  cbn [andb]. apply Z.eqb_neq. specialize (Hr E). lia.
Qed.

Lemma or_default_sold s : 0 <= s -> or_default (Some s) 0 = s.
Proof. intros H. unfold or_default. destruct (Z.eqb_spec s 0); congruence. Qed.

(** One request served while the artifact is on sale. *)
Lemma purchase_in_turn id N s q w :
  id <> "" -> 1 <= N -> 0 <= s ->
  onSale id N s w ->
  orderFor id q ->
  let r := fst (purchasePoster (fst (fst q)) (snd (fst q)) (snd q) w) in
  let w' := snd (purchasePoster (fst (fst q)) (snd (fst q)) (snd q) w) in
  if N <=? s then
    r = SoldOut /\ onSale id N s w'
    /\ selectPurchases id (store w') = selectPurchases id (store w)
  else
    status r = 200 /\ editionOf r = Some (s + 1) /\ onSale id N (s + 1) w'
    /\ map pp_editionNumber (selectPurchases id (store w'))
       = map pp_editionNumber (selectPurchases id (store w)) ++ [s + 1].
Proof.
  intros Hid HN Hs (Hf & Hp & (image & rest & Hsel & Hpub & Htot & Hsold) & Hall)
         (Hq & sd & Hsd & Hmiss).
  destruct q as [[b draw] user]. cbn [fst snd] in *. subst id.
  assert (Hor : or_default (img_soldCount image) 0 = s)
    by (rewrite Hsold; now apply or_default_sold).
  pose proof (purchasePoster_served b sd draw user w image rest N s
                Hsd Hid Hmiss Hf Hp Hsel Hpub Htot ltac:(lia) Hor
                (fun _ => no_edition_above _ _ _ Hall)) as H.
  cbv zeta in H. destruct H as ((Hf' & Hp' & Hu') & H).
  destruct (N <=? s).
  - destruct H as [Hr Hst]. split; [exact Hr|]. unfold onSale. rewrite Hst.
    split; [|reflexivity].
    repeat split; auto. exists image, rest. auto.
  - destruct H as (H200 & Hed & Hpur & Himg & _).
    split; [exact H200|]. split; [exact Hed|]. split.
    + unfold onSale. repeat split; auto.
      * exists (applyImageUpdate (soldCountUpdate (s + 1)) image),
               (map (applyImageUpdate (soldCountUpdate (s + 1))) rest).
        unfold selectImages in *. rewrite Himg, filter_images_after_update, Hsel
          by reflexivity.
        cbn [map applyImageUpdate soldCountUpdate img_isPublic img_totalSupply
                 img_soldCount set_isPublic set_totalSupply set_soldCount assign].
        auto.
      * rewrite Hpur. apply Forall_app. split.
        -- eapply Forall_impl; [exact Hall|]. intros r Hr E. specialize (Hr E). lia.
        -- constructor; [|constructor]. cbn [pp_editionNumber]. lia.
    + unfold selectPurchases. rewrite Hpur, List.filter_app, List.map_app. f_equal.
      cbn [List.filter pp_imageId]. now rewrite String.eqb_refl.
Qed.

(** X1.  Served in turn, requests for an artifact on sale with [s] of [N]
    sold are answered with the editions [s + 1], [s + 2], ... in the order of
    arrival until [N] is reached, and with the sold-out error from then on;
    the purchase rows gain exactly those editions, in that order. *)
Lemma purchases_in_turn_fill_the_edition id N requests :
  id <> "" -> 1 <= N ->
  forall s w,
    0 <= s <= N ->
    onSale id N s w ->
    Forall (orderFor id) requests ->
    let answers := fst (purchasesInTurn requests w) in
    let w' := snd (purchasesInTurn requests w) in
    (forall (i : nat) r,
        answers !! i = Some r ->
        if s + Z.of_nat i <? N
        then status r = 200 /\ editionOf r = Some (s + Z.of_nat i + 1)
        else r = SoldOut)
    /\ map pp_editionNumber (selectPurchases id (store w'))
       = map pp_editionNumber (selectPurchases id (store w))
         ++ editionsAfter s (Nat.min (Z.to_nat (N - s)) (length requests)).
Proof.
  intros Hid HN. induction requests as [|q requests IH]; intros s w Hs Hon Hall.
  - cbn. split; [intros i r H; destruct i; discriminate|].
    rewrite Nat.min_0_r. cbn. now rewrite app_nil_r.
  - inversion Hall as [|? ? Hq Hall']; subst.
    pose proof (purchase_in_turn id N s q w Hid HN (proj1 Hs) Hon Hq) as H.
    cbv zeta in H. destruct q as [[b draw] user]. cbn [fst snd] in H.
    cbn [purchasesInTurn].
    destruct (purchasePoster b draw user w) as [r w1] eqn:E. cbn [fst snd] in H.
    destruct (Z.leb_spec N s) as [Hfull|Hleft].
    + destruct H as (Hr & Hon1 & Hsame).
      specialize (IH s w1 Hs Hon1 Hall').
      destruct (purchasesInTurn requests w1) as [rs w2]. cbn [fst snd] in *.
      destruct IH as [IHa IHe]. split.
      * intros [|i] r' Hl.
        -- injection Hl as <-.
           replace (s + Z.of_nat 0 <? N) with false by (symmetry; apply Z.ltb_ge; lia).
           exact Hr.
        -- specialize (IHa i r' Hl).
           replace (s + Z.of_nat (S i) <? N) with false by (symmetry; apply Z.ltb_ge; lia).
           replace (s + Z.of_nat i <? N) with false in IHa
             by (symmetry; apply Z.ltb_ge; lia).
           exact IHa.
      * rewrite IHe, Hsame. f_equal.
        replace (Z.to_nat (N - s)) with 0%nat by lia. reflexivity.
    + destruct H as (H200 & Hed & Hon1 & Hrows).
      specialize (IH (s + 1) w1 ltac:(lia) Hon1 Hall').
      destruct (purchasesInTurn requests w1) as [rs w2]. cbn [fst snd] in *.
      destruct IH as [IHa IHe]. split.
      * intros [|i] r' Hl.
        -- injection Hl as <-.
           replace (s + Z.of_nat 0 <? N) with true by (symmetry; apply Z.ltb_lt; lia).
           rewrite Z.add_0_r. auto.
        -- specialize (IHa i r' Hl).
           replace (s + Z.of_nat (S i)) with (s + 1 + Z.of_nat i) by lia.
           exact IHa.
      * rewrite IHe, Hrows, <- app_assoc. f_equal.
        replace (Z.to_nat (N - s)) with (S (Z.to_nat (N - (s + 1)))) by lia.
        reflexivity.
Qed.

Lemma purchases_in_turn_fill_the_edition_witness :
  let w := worldOf (shopOf [poster "p1" true (Some 2) (Some 0)] true) [] in
  let requests := [(buyerOrder, 111111, buyer); (rivalOrder, 222222, rival);
                   (buyerOrder, 333333, buyer)] in
  (forall (i : nat) r,
      fst (purchasesInTurn requests w) !! i = Some r ->
      if 0 + Z.of_nat i <? 2
      then status r = 200 /\ editionOf r = Some (0 + Z.of_nat i + 1)
      else r = SoldOut)
  /\ map pp_editionNumber (selectPurchases "p1" (store (snd (purchasesInTurn requests w))))
     = [1; 2].
Proof.
  apply (purchases_in_turn_fill_the_edition "p1" 2
           [(buyerOrder, 111111, buyer); (rivalOrder, 222222, rival);
            (buyerOrder, 333333, buyer)]
           ltac:(discriminate) ltac:(lia) 0
           (worldOf (shopOf [poster "p1" true (Some 2) (Some 0)] true) [])).
  - lia.
  - repeat split; try reflexivity.
    + exists (poster "p1" true (Some 2) (Some 0)), []. repeat split; reflexivity.
    + constructor.
  - constructor; [split; [reflexivity|exists toBuyer; split; reflexivity]|].
    constructor; [split; [reflexivity|exists toRival; split; reflexivity]|].
    constructor; [split; [reflexivity|exists toBuyer; split; reflexivity]|].
    constructor.
Defined.

(** ** What a failed purchase does keep *)

Lemma preserves_bind {A B} P (m : M A) (f : A -> M B) :
  preserves P m -> (forall a, preserves P (f a)) -> preserves P (m ≫= f).
Proof.
  intros Hm Hf w Hw. unfold mbind, M_bind. specialize (Hm w Hw).
  destruct (m w) as [[a|t] w1]; cbn [snd] in Hm; [now apply Hf|exact Hm].
Qed.

Lemma preserves_tryCatch {A} P (m : M A) (h : Thrown -> M A) :
  preserves P m -> (forall t, preserves P (h t)) -> preserves P (tryCatch m h).
Proof.
  intros Hm Hh w Hw. unfold tryCatch. specialize (Hm w Hw).
  destruct (m w) as [[a|t] w1]; cbn [snd] in Hm; [exact Hm|now apply Hh].
Qed.

Lemma preserves_executeWithRetry {T} P (queryFn : M T) n :
  preserves P queryFn ->
  (forall ms, preserves P (setTimeout ms)) ->
  preserves P (executeWithRetry queryFn n).
Proof.
  intros Hq Hs w Hw. unfold executeWithRetry. now apply retryLoop_preserves.
Qed.

(** A property of the artifact rows alone. *)
Lemma preserves_images_roundTrip (R : list GeneratedImage -> Prop) :
  preserves (fun w => R (generatedImages (store w))) roundTrip.
Proof.
  intros w Hw. destruct (roundTrip_frame w) as (f & -> & _). exact Hw.
Qed.

Lemma preserves_images_invalidateCache (R : list GeneratedImage -> Prop) k :
  preserves (fun w => R (generatedImages (store w))) (invalidateCache k).
Proof.
  intros w Hw. destruct (invalidateCache_frame k w) as [c ->]. exact Hw.
Qed.

Lemma preserves_images_insert (R : list GeneratedImage -> Prop) s :
  (forall d d', execute s d = Ok d' -> generatedImages d' = generatedImages d) ->
  preserves (fun w => R (generatedImages (store w))) (db_execute s).
Proof.
  intros Hs w Hw. unfold db_execute.
  pose proof (preserves_images_roundTrip R w Hw) as H1.
  destruct (roundTrip w) as [[[]|t] w1]; cbn [snd] in H1; [|exact H1].
  destruct (execute s (store w1)) as [d'|t] eqn:E; [|exact H1].
  cbn [snd store withStore]. now rewrite (Hs _ _ E).
Qed.

Lemma preserves_images_insertPurchase (R : list GeneratedImage -> Prop) p :
  preserves (fun w => R (generatedImages (store w))) (db_insertPurchase p).
Proof.
  intros w Hw. unfold db_insertPurchase.
  assert (H : forall d d', execute (InsertPurchase p) d = Ok d' ->
                           generatedImages d' = generatedImages d).
  { intros d d' E. cbn in E.
    destruct (uniqueEditions d && _); [discriminate|]. now injection E as <-. }
  pose proof (preserves_images_insert R (InsertPurchase p) H w Hw) as H1.
  destruct (db_execute (InsertPurchase p) w) as [[[]|t] w1]; exact H1.
Qed.

Lemma purchaseTransaction_keeps_images (R : list GeneratedImage -> Prop)
      user imageId shippingData draw tx :
  preserves (fun w => R (generatedImages (store w)))
            (purchaseTransaction user imageId shippingData draw tx).
Proof.
  set (P := fun w => R (generatedImages (store w))).
  assert (Hsleep : forall ms, preserves P (setTimeout ms)) by (intros ms w Hw; exact Hw).
  assert (Hret : forall A (a : A), preserves P (mret a)) by (intros A a w Hw; exact Hw).
  assert (Hthrow : forall A t, preserves P (@throw A t)) by (intros A t w Hw; exact Hw).
  assert (Hgets : forall A (f : World -> A), preserves P (gets f))
    by (intros A f w Hw; exact Hw).
  assert (Hmod : forall f, (forall w, store (f w) = store w) -> preserves P (modify f)).
  { intros f Hf w Hw. unfold P, modify. cbn [snd]. now rewrite Hf. }
  unfold purchaseTransaction.
  apply preserves_bind.
  { unfold readAndAssign, tx_selectImages.
    apply preserves_bind; [apply preserves_bind; [apply preserves_images_roundTrip|auto]|].
    intros [|image ?]; [apply Hthrow|].
    destruct (negb (img_isPublic image)); [apply Hthrow|].
    destruct (_ <=? _); [apply Hthrow|apply Hret]. }
  intros a. apply preserves_bind.
  { unfold recordPurchase. apply preserves_bind; [apply Hgets|]. intros now.
    unfold createPosterPurchase. apply preserves_tryCatch; [|intros t; apply Hthrow].
    apply preserves_bind.
    - apply preserves_executeWithRetry; [|exact Hsleep].
      apply preserves_images_insertPurchase.
    - intros p. apply preserves_bind; [apply preserves_images_invalidateCache|auto]. }
  intros p. apply preserves_bind.
  { unfold updateSoldCount, tx_execute.
    apply preserves_bind; [apply preserves_images_roundTrip|]. intros _.
    apply Hmod. reflexivity. }
  intros _. apply preserves_bind; [|intros o; apply Hret].
  unfold recordOrder, createOrder. apply preserves_tryCatch; [|intros t; apply Hthrow].
  apply preserves_bind.
  - apply preserves_executeWithRetry; [|exact Hsleep].
    unfold db_insertOrder. apply preserves_bind; [|intros; apply Hret].
    apply preserves_images_insert. intros d d' E. cbn in E. now injection E as <-.
  - intros o. apply preserves_bind; [apply preserves_images_invalidateCache|auto].
Qed.

(** X2.  Whatever round trips the store refuses, a purchase that does not
    succeed leaves every artifact row, and so every sold count, as it was:
    the statement on the sold count is the transaction's own. *)
Lemma failed_purchase_keeps_sold_count b draw user w :
  pending w = [] ->
  status (fst (purchasePoster b draw user w)) <> 200 ->
  generatedImages (store (snd (purchasePoster b draw user w)))
  = generatedImages (store w).
Proof.
  intros Hp. unfold purchasePoster.
  destruct (req_shippingData b) as [shippingData|]; [|reflexivity].
  destruct (String.eqb (req_imageId b) ""); [reflexivity|].
  destruct (missingField shippingData); [reflexivity|].
  unfold transaction, begin.
  pose proof (purchaseTransaction_keeps_images
                (fun l => l = generatedImages (store w)) user (req_imageId b)
                shippingData draw (nextTx w) (withNextTx w (S (nextTx w))) eq_refl) as H.
  destruct (purchaseTransaction user (req_imageId b) shippingData draw (nextTx w)
              (withNextTx w (S (nextTx w)))) as [[r|t] w1] eqn:E; cbn [fst snd] in *.
  - intros Hst. exfalso. apply Hst.
    revert E. unfold purchaseTransaction, mbind, M_bind.
    destruct (readAndAssign _ _ _) as [[a|?] ?]; [|discriminate].
    destruct (recordPurchase _ _ _ _) as [[p|?] ?]; [|discriminate].
    destruct (updateSoldCount _ _ _ _) as [[[]|?] ?]; [|discriminate].
    destruct (recordOrder _ _ _ _) as [[o|?] ?]; [|discriminate].
    intros [= <- _]. reflexivity.
  - intros _. exact H.
Qed.

Lemma failed_purchase_keeps_sold_count_witness :
  let w := worldOf (shopOf [poster "p1" true (Some 2) (Some 0)] true)
                   [None; None; Some serializationFailure] in
  generatedImages (store (snd (purchasePoster buyerOrder 123456 buyer w)))
  = [poster "p1" true (Some 2) (Some 0)].
Proof.
  apply (failed_purchase_keeps_sold_count buyerOrder 123456 buyer
           (worldOf (shopOf [poster "p1" true (Some 2) (Some 0)] true)
                    [None; None; Some serializationFailure])).
  - reflexivity.
  - vm_compute. discriminate.
Defined.

(** ** Store operations under the executor *)

Lemma roundTrip_failsWithStore : failsWithStore roundTrip.
Proof. intros w e rest H. now apply roundTrip_fault. Qed.

Lemma bind_failsWithStore {A B} (m : M A) (f : A -> M B) :
  failsWithStore m -> failsWithStore (m ≫= f).
Proof. intros Hm w e rest H. apply bind_throw. now apply Hm. Qed.

Lemma db_execute_failsWithStore s : failsWithStore (db_execute s).
Proof. intros w e rest H. unfold db_execute. now rewrite (roundTrip_fault _ _ _ H). Qed.

Lemma db_insertPurchase_failsWithStore p : failsWithStore (db_insertPurchase p).
Proof.
  intros w e rest H. unfold db_insertPurchase.
  now rewrite (db_execute_failsWithStore _ _ _ _ H).
Qed.

Lemma db_insertOrder_failsWithStore o : failsWithStore (db_insertOrder o).
Proof. apply bind_failsWithStore, db_execute_failsWithStore. Qed.

Lemma db_selectImages_failsWithStore id : failsWithStore (db_selectImages id).
Proof. apply bind_failsWithStore, roundTrip_failsWithStore. Qed.

Lemma db_selectUsers_failsWithStore email : failsWithStore (db_selectUsers email).
Proof. apply bind_failsWithStore, roundTrip_failsWithStore. Qed.

Lemma db_selectPurchases_failsWithStore id : failsWithStore (db_selectPurchases id).
Proof. apply bind_failsWithStore, roundTrip_failsWithStore. Qed.

Lemma last_cons_thrown (e : JsError) (es : list JsError) (last : Thrown) :
  List.last (map ThrownError (e :: es)) last
  = List.last (map ThrownError es) (ThrownError e).
Proof.
  destruct es as [|j es]; [reflexivity|]. cbn [map].
  change (List.last (ThrownError e :: ThrownError j :: map ThrownError es) last)
    with (List.last (ThrownError j :: map ThrownError es) last).
  apply last_nonempty.
Qed.

(** Connection failures at the head of the script: the loop spends one
    attempt and one delay on each and goes on from there. *)
Lemma retryLoop_after_failures {T} (queryFn : M T) (es : list JsError) :
  failsWithStore queryFn ->
  forall (k : nat) (attempt : Z) (last : Thrown) (w : World) rest,
    Forall (fun e => isConnectionError e = true) es ->
    faults w = map Some es ++ rest ->
    retryLoop queryFn (length es + k) attempt last w
    = retryLoop queryFn k (attempt + Z.of_nat (length es))
                (List.last (map ThrownError es) last)
                (afterFailures (length es) attempt w).
Proof.
  intros Hq. induction es as [|e es IH]; intros k attempt last w rest Hall Hf.
  - cbn. now rewrite Z.add_0_r.
  - inversion Hall as [|? ? He Hall']; subst. cbn [map app] in Hf.
    cbn [length Nat.add afterFailures].
    rewrite (retryLoop_transient _ _ _ _ _ e _ (Hq _ _ _ Hf) He).
    rewrite Hf. cbn [tl].
    rewrite (IH k (attempt + 1) (ThrownError e)
               (snd (setTimeout (100 * 2 ^ attempt) (withFaults w (map Some es ++ rest))))
               rest Hall' eq_refl).
    rewrite last_cons_thrown. f_equal. lia.
Qed.

Lemma drop_tl {A} n (l : list A) : drop n (tl l) = drop (S n) l.
Proof. destruct l; [now destruct n|reflexivity]. Qed.

(** What the refused attempts leave: the answers consumed, the delays
    slept, and nothing else. *)
Lemma afterFailures_frame n :
  forall attempt w,
    0 <= attempt ->
    store (afterFailures n attempt w) = store w
    /\ pending (afterFailures n attempt w) = pending w
    /\ nextTx (afterFailures n attempt w) = nextTx w
    /\ queryCache (afterFailures n attempt w) = queryCache w
    /\ faults (afterFailures n attempt w) = drop n (faults w)
    /\ sleeps (afterFailures n attempt w) = sleeps w ++ backoff n attempt
    /\ clock (afterFailures n attempt w)
       = clock w + 100 * 2 ^ attempt * (2 ^ Z.of_nat n - 1).
Proof.
  induction n as [|n IH]; intros attempt w Ha.
  - cbn [afterFailures backoff]. rewrite app_nil_r. repeat split; auto.
    change (2 ^ Z.of_nat 0) with 1. lia.
  - cbn [afterFailures backoff].
    destruct (IH (attempt + 1)
                 (snd (setTimeout (100 * 2 ^ attempt) (withFaults w (tl (faults w)))))
                 ltac:(lia)) as (H1 & H2 & H3 & H4 & H5 & H6 & H7).
    rewrite H1, H2, H3, H4, H5, H6, H7.
    cbn [setTimeout modify snd store pending nextTx queryCache faults sleeps clock
         withClock withSleeps withFaults].
    repeat split; auto.
    + apply drop_tl.
    + now rewrite <- app_assoc.
    + rewrite Nat2Z.inj_succ, Z.pow_succ_r by lia.
      rewrite (Z.pow_add_r 2 attempt 1) by lia. change (2 ^ 1) with 2. ring.
Qed.

Lemma afterFailures_faults (es : list JsError) rest attempt w :
  0 <= attempt ->
  faults w = map Some es ++ rest ->
  faults (afterFailures (length es) attempt w) = rest.
Proof.
  intros Ha Hf. destruct (afterFailures_frame (length es) attempt w Ha)
    as (_ & _ & _ & _ & H & _).
  rewrite H, Hf. rewrite <- (length_map Some es). apply drop_app_length.
Qed.

(** X3.  Any operation that begins with a round trip to the store (every
    statement and select of the storage facade does), run under
    [executeWithRetry] against [n] connection failures in a row with [n]
    attempts allowed: the last failure is thrown after exactly [n] round
    trips, the store, the open statements and the cache are untouched, and
    the caller has waited 200 * (2^n - 1) ms in all, the delay after the
    last attempt included although no attempt follows it. *)
Theorem exhausted_retries_wait_the_whole_backoff :
  (forall s, failsWithStore (db_execute s))
  /\ (forall id, failsWithStore (db_selectImages id))
  /\ (forall p, failsWithStore (db_insertPurchase p))
  /\ (forall o, failsWithStore (db_insertOrder o))
  /\ (forall T (queryFn : M T) (es : list JsError) rest (w : World),
        failsWithStore queryFn ->
        Forall (fun e => isConnectionError e = true) es ->
        faults w = map Some es ++ rest ->
        let n := Z.of_nat (length es) in
        let w' := snd (executeWithRetry queryFn n w) in
        fst (executeWithRetry queryFn n w)
        = Throw (List.last (map ThrownError es) ThrownUndefined)
        /\ faults w' = rest
        /\ sleeps w' = sleeps w ++ backoff (length es) 1
        /\ clock w' = clock w + 200 * (2 ^ n - 1)
        /\ store w' = store w
        /\ pending w' = pending w
        /\ queryCache w' = queryCache w).
Proof.
  split; [exact db_execute_failsWithStore|].
  split; [exact db_selectImages_failsWithStore|].
  split; [exact db_insertPurchase_failsWithStore|].
  split; [exact db_insertOrder_failsWithStore|].
  intros T queryFn es rest w Hq Hall Hf n w'. subst n w'.
  unfold executeWithRetry. rewrite Nat2Z.id.
  pose proof (retryLoop_after_failures queryFn es Hq 0 1 ThrownUndefined w rest Hall Hf) as H.
  rewrite Nat.add_0_r in H. rewrite H. cbn [retryLoop throw fst snd].
  destruct (afterFailures_frame (length es) 1 w ltac:(lia))
    as (H1 & H2 & _ & H4 & _ & H6 & H7).
  rewrite (afterFailures_faults es rest 1 w ltac:(lia) Hf).
  repeat split; auto.
Qed.

Lemma exhausted_retries_wait_the_whole_backoff_witness :
  let w := worldOf (shopOf [poster "p1" true (Some 5) (Some 0)] true)
                   [Some connectionReset; Some connectionReset; Some connectionReset; None] in
  let w' := snd (executeWithRetry (db_execute (UpdateImage "p1" (soldCountUpdate 1))) 3 w) in
  fst (executeWithRetry (db_execute (UpdateImage "p1" (soldCountUpdate 1))) 3 w)
  = Throw (ThrownError connectionReset)
  /\ faults w' = [None]
  /\ sleeps w' = [200; 400; 800]
  /\ clock w' = 1400
  /\ store w' = store w
  /\ pending w' = []
  /\ queryCache w' = ∅.
Proof.
  destruct exhausted_retries_wait_the_whole_backoff as (H & _ & _ & _ & H5).
  apply (H5 unit (db_execute (UpdateImage "p1" (soldCountUpdate 1)))
            [connectionReset; connectionReset; connectionReset] [None]
            (worldOf (shopOf [poster "p1" true (Some 5) (Some 0)] true)
               [Some connectionReset; Some connectionReset; Some connectionReset; None])
            (H _)).
  - repeat constructor.
  - reflexivity.
Defined.

(** ** Cached lookups after a write *)

Lemma invalidated_key keyPattern c :
  includes keyPattern "*" = false -> invalidated keyPattern c = delete keyPattern c.
Proof. intros H. unfold invalidated. now rewrite H. Qed.

Lemma includes_image_key id :
  includes ("generated-image:" +:+ id) "*" = includes id "*".
Proof. reflexivity. Qed.

Lemma includes_purchases_key id :
  includes ("poster-purchases:" +:+ id) "*" = includes id "*".
Proof. reflexivity. Qed.

Lemma includes_user_key email :
  includes ("user:" +:+ email) "*" = includes email "*".
Proof. reflexivity. Qed.

Lemma user_key_inj a b : "user:" +:+ a = "user:" +:+ b -> a = b.
Proof. intros H. now injection H. Qed.

(** A lookup through the cache that finds nothing to serve runs the
    producer and stores what it returned. *)
Lemma cachedQuery_miss key queryFn ttl w v w1 :
  missing key w ->
  executeWithRetry queryFn defaultRetries (snd (cache_get key w)) = (Ok v, w1) ->
  cachedQuery key queryFn ttl w = (Ok v, snd (cache_set key v ttl w1)).
Proof.
  intros Hm Hq. unfold cachedQuery.
  pose proof (cache_get_missing key w Hm) as Hg.
  destruct (cache_get key w) as [g wg] eqn:Eg. cbn [fst snd] in *. subst g.
  rewrite (bind_ok _ _ _ _ _ Eg). now rewrite (bind_ok _ _ _ _ _ Hq).
Qed.

Lemma cache_get_frame key w :
  store (snd (cache_get key w)) = store w
  /\ faults (snd (cache_get key w)) = faults w
  /\ pending (snd (cache_get key w)) = pending w
  /\ clock (snd (cache_get key w)) = clock w.
Proof.
  unfold cache_get. destruct (queryCache w !! key) as [[v t]|]; [|auto].
  destruct (negb (t =? 0) && (t <? clock w)); auto.
Qed.

(** X4.  What [cachedQuery] stored is served, without running any
    producer, as long as the entry stands and its time has not passed: for
    [ttl] seconds from the moment the producer returned, and for ever when
    [ttl] is 0.  The later calls get the stored value as the cache hands
    it back, which is [null] where the producer had returned [undefined].
    One millisecond later the key has nothing to serve again. *)
Theorem cachedQuery_serves_until_expiry
        (key : string) (queryFn : M Value) (ttl : Z) (w w1 : World) (v : Value) :
  missing key w ->
  executeWithRetry queryFn defaultRetries (snd (cache_get key w)) = (Ok v, w1) ->
  let w2 := snd (cachedQuery key queryFn ttl w) in
  fst (cachedQuery key queryFn ttl w) = Ok v
  /\ (forall (later : World) (queryFn' : M Value) (ttl' : Z),
        queryCache later !! key = queryCache w2 !! key ->
        ttl = 0 \/ clock later <= clock w1 + ttl * 1000 ->
        cachedQuery key queryFn' ttl' later = (Ok (unwrap v), later))
  /\ (forall later : World,
        queryCache later !! key = queryCache w2 !! key ->
        0 < ttl -> 0 <= clock w1 ->
        clock w1 + ttl * 1000 < clock later ->
        missing key later).
Proof.
  intros Hm Hq w2. subst w2. rewrite (cachedQuery_miss _ _ ttl _ _ _ Hm Hq).
  cbn [fst snd cache_set modify queryCache withCache].
  split; [reflexivity|]. split.
  - intros later queryFn' ttl' Hl Ht. rewrite lookup_insert_eq in Hl.
    apply (cachedQuery_hit key queryFn' ttl' later v _ Hl).
    destruct (Z.eqb_spec ttl 0); [now left|right; lia].
  - intros later Hl Httl Hc Hlate. rewrite lookup_insert_eq in Hl.
    unfold missing. rewrite Hl.
    destruct (Z.eqb_spec ttl 0); lia.
Qed.

Lemma cachedQuery_serves_until_expiry_witness :
  let w := worldOf (shopOf [poster "p1" true (Some 5) (Some 0)] true) [] in
  let w2 := snd (cachedQuery "generated-image:p1" (imageByIdQuery "p1") 60 w) in
  fst (cachedQuery "generated-image:p1" (imageByIdQuery "p1") 60 w)
  = Ok (VImage (poster "p1" true (Some 5) (Some 0)))
  /\ cachedQuery "generated-image:p1" (throw ThrownUndefined) 60 (withClock w2 60000)
     = (Ok (VImage (poster "p1" true (Some 5) (Some 0))), withClock w2 60000)
  /\ missing "generated-image:p1" (withClock w2 60001).
Proof.
  destruct (cachedQuery_serves_until_expiry
              "generated-image:p1" (imageByIdQuery "p1") 60
              (worldOf (shopOf [poster "p1" true (Some 5) (Some 0)] true) [])
              (worldOf (shopOf [poster "p1" true (Some 5) (Some 0)] true) [])
              (VImage (poster "p1" true (Some 5) (Some 0)))
              I eq_refl) as (H1 & H2 & H3).
  split; [exact H1|]. split.
  - apply H2; [reflexivity|]. right. vm_compute. discriminate.
  - apply H3; [reflexivity | lia | vm_compute; discriminate | reflexivity].
Defined.

Lemma asImage_firstImage l : asImage (firstImage l) = head l.
Proof. now destruct l. Qed.

Lemma asUser_firstUser l : asUser (firstUser l) = head l.
Proof. now destruct l. Qed.

(** The lookup of an artifact when the cache has nothing to serve and the
    store answers: the first stored row with that id. *)
Lemma getGeneratedImageById_fresh id w :
  faults w = [] ->
  missing ("generated-image:" +:+ id) w ->
  fst (getGeneratedImageById id w) = Ok (head (selectImages id (store w))).
Proof.
  intros Hf Hm. unfold getGeneratedImageById, tryCatch.
  destruct (cache_get_frame ("generated-image:" +:+ id) w) as (Hst & Hfa & _).
  set (wg := snd (cache_get ("generated-image:" +:+ id) w)) in *.
  assert (Hq : executeWithRetry (imageByIdQuery id) defaultRetries wg
               = (Ok (firstImage (selectImages id (store w))), wg)).
  { apply executeWithRetry_ok. unfold imageByIdQuery.
    assert (Hs : executeWithRetry (db_selectImages id) defaultRetries wg
                 = (Ok (selectImages id (store wg)), wg)).
    { apply executeWithRetry_ok. unfold db_selectImages.
      now rewrite (bind_ok _ _ _ _ _ (roundTrip_quiet wg ltac:(now rewrite Hfa))). }
    rewrite (bind_ok _ _ _ _ _ Hs), Hst. reflexivity. }
  rewrite (bind_ok _ _ _ _ _ (cachedQuery_miss _ _ 60 _ _ _ Hm Hq)).
  cbn [mret M_ret fst]. now rewrite asImage_firstImage.
Qed.

(** X5.  [updateGeneratedImage] followed by [getGeneratedImageById]: with
    the store answering, the lookup returns the row as the update left it,
    whatever the cache held under the detail key before; both return the
    same row, and nothing when no row has that id. *)
Theorem updated_artifact_is_read_back (id : string) (updates : ImageUpdate) (w : World) :
  faults w = [] ->
  includes id "*" = false ->
  let w1 := snd (updateGeneratedImage id updates w) in
  generatedImages (store w1)
  = updateWhere (fun i => String.eqb (img_id i) id) (applyImageUpdate updates)
                (generatedImages (store w))
  /\ fst (updateGeneratedImage id updates w) = Ok (head (selectImages id (store w1)))
  /\ fst (getGeneratedImageById id w1) = Ok (head (selectImages id (store w1)))
  /\ head (selectImages id (store w1))
     = applyImageUpdate updates <$> head (selectImages id (store w)).
Proof.
  intros Hf Hstar w1. subst w1. unfold updateGeneratedImage, tryCatch.
  assert (Hx : executeWithRetry (db_execute (UpdateImage id updates)) defaultRetries w
               = (Ok tt, withStore w (withImages (store w)
                    (updateWhere (fun i => String.eqb (img_id i) id)
                                 (applyImageUpdate updates) (generatedImages (store w)))))).
  { apply executeWithRetry_ok. unfold db_execute.
    now rewrite (roundTrip_quiet w Hf). }
  rewrite (bind_ok _ _ _ _ _ Hx), bind_gets.
  rewrite (bind_ok _ _ _ _ _ (invalidateCache_eq _ _)).
  cbn [mret M_ret fst snd].
  rewrite invalidated_key by (now rewrite includes_image_key).
  split; [reflexivity|]. split; [reflexivity|]. split.
  - rewrite getGeneratedImageById_fresh; [reflexivity|exact Hf|].
    unfold missing. cbn [queryCache withCache]. now rewrite lookup_delete_eq.
  - unfold selectImages. cbn [store withStore withCache generatedImages withImages].
    rewrite filter_images_after_update by reflexivity.
    now destruct (List.filter _ (generatedImages (store w))).
Qed.

Lemma updated_artifact_is_read_back_witness :
  let i := poster "p1" true (Some 5) (Some 0) in
  let w1 := snd (updateGeneratedImage "p1" (soldCountUpdate 3) (seededWorld i 60000)) in
  generatedImages (store w1) = [poster "p1" true (Some 5) (Some 3)]
  /\ fst (updateGeneratedImage "p1" (soldCountUpdate 3) (seededWorld i 60000))
     = Ok (Some (poster "p1" true (Some 5) (Some 3)))
  /\ fst (getGeneratedImageById "p1" w1) = Ok (Some (poster "p1" true (Some 5) (Some 3)))
  /\ Some (poster "p1" true (Some 5) (Some 3)) = Some (poster "p1" true (Some 5) (Some 3)).
Proof.
  apply (updated_artifact_is_read_back "p1" (soldCountUpdate 3)
           (seededWorld (poster "p1" true (Some 5) (Some 0)) 60000));
    reflexivity.
Defined.

(** X6.  [createPosterPurchase] followed by
    [getPosterPurchasesByImageId]: with the store answering and the insert
    admissible, the list returned is the stored purchases of the artifact
    with the new row at the end, whatever the cache held under the list key
    before, and [getNextEditionNumber] is their number plus one. *)
Theorem recorded_purchase_is_listed (p : InsertPosterPurchase) (w : World) :
  faults w = [] ->
  includes (ipp_imageId p) "*" = false ->
  (uniqueEditions (store w) = true ->
   existsb (sameEdition (ipp_imageId p) (ipp_editionNumber p)) (posterPurchases (store w))
   = false) ->
  let w1 := snd (createPosterPurchase p w) in
  fst (createPosterPurchase p w) = Ok (purchaseRow (store w) p)
  /\ fst (getPosterPurchasesByImageId (ipp_imageId p) w1)
     = Ok (selectPurchases (ipp_imageId p) (store w) ++ [purchaseRow (store w) p])
  /\ fst (getNextEditionNumber (ipp_imageId p) w1)
     = Ok (Z.of_nat (length (selectPurchases (ipp_imageId p) (store w))) + 2).
Proof.
  intros Hf Hstar Hu w1. subst w1. unfold createPosterPurchase at 1 2 3, tryCatch.
  rewrite (bind_ok _ _ _ _ _ (executeWithRetry_ok _ _ _ _ (db_insertPurchase_served p w Hf Hu))).
  rewrite (bind_ok _ _ _ _ _ (invalidateCache_eq _ _)).
  cbn [mret M_ret fst snd].
  rewrite invalidated_key by (now rewrite includes_purchases_key).
  set (w1 := withCache _ _).
  assert (Hf1 : faults w1 = []) by exact Hf.
  assert (Hm : missing ("poster-purchases:" +:+ ipp_imageId p) w1).
  { unfold missing, w1. cbn [queryCache withCache]. now rewrite lookup_delete_eq. }
  destruct (cache_get_frame ("poster-purchases:" +:+ ipp_imageId p) w1) as (Hst & Hfa & _).
  set (wg := snd (cache_get ("poster-purchases:" +:+ ipp_imageId p) w1)) in *.
  assert (Hq : executeWithRetry
                 (l ← executeWithRetry (db_selectPurchases (ipp_imageId p)) defaultRetries;
                  mret (VPurchases l)) defaultRetries wg
               = (Ok (VPurchases (selectPurchases (ipp_imageId p) (store w1))), wg)).
  { apply executeWithRetry_ok.
    assert (Hs : executeWithRetry (db_selectPurchases (ipp_imageId p)) defaultRetries wg
                 = (Ok (selectPurchases (ipp_imageId p) (store wg)), wg)).
    { apply executeWithRetry_ok. unfold db_selectPurchases.
      now rewrite (bind_ok _ _ _ _ _ (roundTrip_quiet wg ltac:(now rewrite Hfa))). }
    rewrite (bind_ok _ _ _ _ _ Hs), Hst. reflexivity. }
  assert (Hlist : getPosterPurchasesByImageId (ipp_imageId p) w1
                  = (Ok (selectPurchases (ipp_imageId p) (store w)
                         ++ [purchaseRow (store w) p]),
                     snd (cache_set ("poster-purchases:" +:+ ipp_imageId p)
                            (VPurchases (selectPurchases (ipp_imageId p) (store w1))) 60 wg))).
  { unfold getPosterPurchasesByImageId, tryCatch.
    rewrite (bind_ok _ _ _ _ _ (cachedQuery_miss _ _ 60 _ _ _ Hm Hq)).
    cbn [mret M_ret asPurchases]. f_equal. f_equal.
    unfold selectPurchases, w1.
    cbn [store withStore withCache posterPurchases withPurchases].
    rewrite List.filter_app. cbn [List.filter purchaseRow pp_imageId].
    now rewrite String.eqb_refl. }
  split; [reflexivity|]. split; [now rewrite Hlist|].
  unfold getNextEditionNumber, tryCatch. rewrite (bind_ok _ _ _ _ _ Hlist).
  cbn [mret M_ret fst]. rewrite length_app, Nat2Z.inj_add. cbn [length]. f_equal. lia.
Qed.

Lemma recorded_purchase_is_listed_witness :
  let p := mkInsertPurchase "buyer@example.com" "p1" 1 0 (40 # 1) in
  let w := worldOf (shopOf [poster "p1" true (Some 5) (Some 0)] true) [] in
  let w1 := snd (createPosterPurchase p w) in
  fst (createPosterPurchase p w) = Ok (mkPurchase 1 "buyer@example.com" "p1" 1 0 (40 # 1))
  /\ fst (getPosterPurchasesByImageId "p1" w1)
     = Ok [mkPurchase 1 "buyer@example.com" "p1" 1 0 (40 # 1)]
  /\ fst (getNextEditionNumber "p1" w1) = Ok 2.
Proof.
  apply (recorded_purchase_is_listed
           (mkInsertPurchase "buyer@example.com" "p1" 1 0 (40 # 1))
           (worldOf (shopOf [poster "p1" true (Some 5) (Some 0)] true) []));
    reflexivity.
Defined.

(** ** Retries inside retries *)

(** The producer of [getGeneratedImageById] has an executor of its own:
    against three connection failures it gives up with the third. *)
Lemma imageByIdQuery_refused id e1 e2 e3 rest w :
  isConnectionError e1 = true ->
  isConnectionError e2 = true ->
  isConnectionError e3 = true ->
  faults w = Some e1 :: Some e2 :: Some e3 :: rest ->
  imageByIdQuery id w = (Throw (ThrownError e3), afterFailures 3 1 w).
Proof.
  intros H1 H2 H3 Hf. unfold imageByIdQuery. apply bind_throw.
  unfold executeWithRetry, defaultRetries. change (Z.to_nat 3) with (3 + 0)%nat.
  apply (retryLoop_after_failures (db_selectImages id) [e1; e2; e3]
           (db_selectImages_failsWithStore id) 0 1 ThrownUndefined w rest).
  - repeat constructor; assumption.
  - exact Hf.
Qed.

Lemma imageByIdQuery_retried id k attempt last e1 e2 e3 rest w :
  isConnectionError e1 = true ->
  isConnectionError e2 = true ->
  isConnectionError e3 = true ->
  faults w = Some e1 :: Some e2 :: Some e3 :: rest ->
  retryLoop (imageByIdQuery id) (S k) attempt last w
  = retryLoop (imageByIdQuery id) k (attempt + 1) (ThrownError e3)
              (snd (setTimeout (100 * 2 ^ attempt) (afterFailures 3 1 w))).
Proof.
  intros H1 H2 H3 Hf. apply retryLoop_transient; [|exact H3].
  now apply (imageByIdQuery_refused id e1 e2 e3 rest).
Qed.

(** X7.  [getGeneratedImageById] wraps its select in [executeWithRetry]
    and hands it to [cachedQuery], which wraps it again.  While the
    connection is down one lookup makes nine round trips and sleeps twelve
    times, 5.6 seconds in all, before it answers that there is no such
    artifact; nothing is cached. *)
Theorem lookup_retries_nine_times
        (id : string) (es : list JsError) (rest : list (option JsError)) (w : World) :
  length es = 9%nat ->
  Forall (fun e => isConnectionError e = true) es ->
  faults w = map Some es ++ rest ->
  queryCache w !! ("generated-image:" +:+ id) = None ->
  let w' := snd (getGeneratedImageById id w) in
  fst (getGeneratedImageById id w) = Ok None
  /\ faults w' = rest
  /\ sleeps w' = sleeps w ++ [200; 400; 800; 200; 200; 400; 800; 400; 200; 400; 800; 800]
  /\ clock w' = clock w + 5600
  /\ store w' = store w
  /\ queryCache w' = queryCache w.
Proof.
  intros Hlen Hall Hf Hc w'. subst w'.
  do 9 (destruct es as [|? es]; [discriminate Hlen|]).
  destruct es; [|discriminate Hlen]. clear Hlen.
  repeat match goal with
         | H : Forall _ (_ :: _) |- _ => inversion H; subst; clear H
         end.
  cbn [map app] in Hf.
  assert (Hq : exists t w1,
             cachedQuery ("generated-image:" +:+ id) (imageByIdQuery id) 60 w = (Throw t, w1)
             /\ faults w1 = rest
             /\ sleeps w1
                = sleeps w ++ [200; 400; 800; 200; 200; 400; 800; 400; 200; 400; 800; 800]
             /\ clock w1 = clock w + 5600
             /\ store w1 = store w
             /\ queryCache w1 = queryCache w).
  { unfold cachedQuery.
    assert (Hg : cache_get ("generated-image:" +:+ id) w = (Ok VUndefined, w))
      by (unfold cache_get; now rewrite Hc).
    rewrite (bind_ok _ _ _ _ _ Hg).
    unfold executeWithRetry at 1, defaultRetries. change (Z.to_nat 3) with 3%nat.
    destruct w as [d p n c t f s l]. cbn [faults] in Hf. subst f.
    do 2 eexists. split.
    - apply bind_throw.
      erewrite imageByIdQuery_retried; [ | | | |reflexivity]. 2-4: assumption.
      erewrite imageByIdQuery_retried; [ | | | |reflexivity]. 2-4: assumption.
      erewrite imageByIdQuery_retried; [ | | | |reflexivity]. 2-4: assumption.
      reflexivity.
    - cbn. rewrite <- !app_assoc. cbn.
      change (100 * 2 ^ 1) with 200. change (100 * 2 ^ (1 + 1)) with 400.
      change (100 * 2 ^ (1 + 1 + 1)) with 800.
      repeat split. lia. }
  destruct Hq as (t & w1 & Hq & Hq1 & Hq2 & Hq3 & Hq4 & Hq5).
  unfold getGeneratedImageById, tryCatch. rewrite (bind_throw _ _ _ _ _ Hq).
  cbn [mret M_ret fst snd]. repeat split; assumption.
Qed.

Lemma lookup_retries_nine_times_witness :
  let w := worldOf (shopOf [poster "p1" true (Some 5) (Some 0)] true)
                   (map Some (repeat connectionReset 9)) in
  let w' := snd (getGeneratedImageById "p1" w) in
  fst (getGeneratedImageById "p1" w) = Ok None
  /\ faults w' = []
  /\ sleeps w' = [200; 400; 800; 200; 200; 400; 800; 400; 200; 400; 800; 800]
  /\ clock w' = 5600
  /\ store w' = store w
  /\ queryCache w' = ∅.
Proof.
  apply (lookup_retries_nine_times "p1" (repeat connectionReset 9) []
           (worldOf (shopOf [poster "p1" true (Some 5) (Some 0)] true)
                    (map Some (repeat connectionReset 9)))).
  - reflexivity.
  - repeat constructor.
  - reflexivity.
  - reflexivity.
Defined.

(** ** The purchase handler, further *)

Lemma roundTrip_first_served w (es : list JsError) :
  (faults w = [] /\ es = []) \/ faults w = None :: map Some es ->
  roundTrip w = (Ok tt, withFaults w (map Some es)).
Proof.
  intros [[Hf ->]|Hf].
  - rewrite (roundTrip_quiet w Hf). cbn [map]. now rewrite <- Hf, withFaults_same.
  - now apply roundTrip_served.
Qed.

Lemma price_not_zero p : Qeq_bool (or_defaultQ p priceFloor) 0 = false.
Proof.
  unfold or_defaultQ. destruct p as [v|]; [|reflexivity].
  destruct (Qeq_bool v 0) eqn:E; [reflexivity|exact E].
Qed.

(** [createOrder] against a store that answers: the row it inserts and
    returns, and what it leaves. *)
Lemma createOrder_row o w :
  faults w = [] ->
  createOrder o w
  = (Ok (mkOrder (ord_shipping o) (ord_confirmationId o)
                 (or_default (Some (ord_quantity o)) 1)
                 (or_defaultQ (Some (ord_amount o)) priceFloor)
                 (ord_posterImageUrl o) (ord_originalImageUrl o)
                 (ord_editionNumber o) (ord_totalSupply o)
                 (if String.eqb (ord_status o) "" then "pending" else ord_status o)),
     withCache (withStore w (withOrders (store w)
        (orders (store w)
         ++ [mkOrder (ord_shipping o) (ord_confirmationId o)
                     (or_default (Some (ord_quantity o)) 1)
                     (or_defaultQ (Some (ord_amount o)) priceFloor)
                     (ord_posterImageUrl o) (ord_originalImageUrl o)
                     (ord_editionNumber o) (ord_totalSupply o)
                     (if String.eqb (ord_status o) "" then "pending" else ord_status o)])))
       (invalidated "orders:list" (queryCache w))).
Proof.
  intros Hf. unfold createOrder, tryCatch.
  set (o' := mkOrder _ _ _ _ _ _ _ _ _).
  assert (Hi : db_insertOrder o' w
               = (Ok o', withStore w (withOrders (store w) (orders (store w) ++ [o'])))).
  { unfold db_insertOrder, db_execute, roundTrip, mbind, M_bind. rewrite Hf. reflexivity. }
  rewrite (bind_ok _ _ _ _ _ (executeWithRetry_ok _ _ _ _ Hi)).
  rewrite (bind_ok _ _ _ _ _ (invalidateCache_eq _ _)). reflexivity.
Qed.

(** The handler when the store serves the read of the artifact and then
    refuses the insert of the purchase row with connection failures, fewer
    than the executor has attempts; [es] is empty when the store simply
    answers. *)
Lemma purchasePoster_answered
        (b : PurchaseBody) (shippingData : ShippingData) (draw : Z) (user : User)
        (w : World) (image : GeneratedImage) (rest : list GeneratedImage)
        (es : list JsError) (s : Z) :
  req_shippingData b = Some shippingData ->
  req_imageId b <> "" ->
  missingField shippingData = None ->
  (faults w = [] /\ es = []) \/ faults w = None :: map Some es ->
  Forall (fun e => isConnectionError e = true) es ->
  (length es < 3)%nat ->
  pending w = [] ->
  selectImages (req_imageId b) (store w) = image :: rest ->
  img_isPublic image = true ->
  or_default (img_soldCount image) 0 = s ->
  (uniqueEditions (store w) = true ->
   existsb (sameEdition (req_imageId b) (s + 1)) (posterPurchases (store w)) = false) ->
  let r := fst (purchasePoster b draw user w) in
  let w' := snd (purchasePoster b draw user w) in
  pending w' = []
  /\ if or_default (img_totalSupply image) 10 <=? s then
       r = SoldOut /\ store w' = store w
     else
       r = json (BodyPurchase draw (s + 1) (img_totalSupply image)
                              (or_defaultQ (img_pricePerUnit image) priceFloor)
                              (nextPurchaseId (store w)))
       /\ posterPurchases (store w')
          = posterPurchases (store w)
            ++ [mkPurchase (nextPurchaseId (store w)) (usr_email user) (req_imageId b)
                           (s + 1) (clock w) (or_defaultQ (img_pricePerUnit image) priceFloor)]
       /\ generatedImages (store w')
          = updateWhere (fun i => String.eqb (img_id i) (req_imageId b))
                        (applyImageUpdate (soldCountUpdate (s + 1)))
                        (generatedImages (store w))
       /\ users (store w') = users (store w)
       /\ faults w' = []
       /\ sleeps w' = sleeps w ++ backoff (length es) 1
       /\ orders (store w')
          = orders (store w)
            ++ [mkOrder shippingData draw 1 (or_defaultQ (img_pricePerUnit image) priceFloor)
                        ("/api/storage-image/" +:+ img_generatedPath image)
                        (img_originalPath image) (s + 1) (img_totalSupply image) "paid"].
Proof.
  intros Hship Hid Hmiss Hf Hall Hlen Hp Hsel Hpub Hs Hu r w'.
  subst r w'. unfold purchasePoster. rewrite Hship.
  destruct (String.eqb_spec (req_imageId b) "") as [E|_]; [contradiction|].
  rewrite Hmiss. unfold transaction, begin, purchaseTransaction.
  set (w0 := withNextTx w (S (nextTx w))).
  set (wr := withFaults w0 (map Some es)).
  assert (Hra : readAndAssign (nextTx w) (req_imageId b) w0
                = if or_default (img_totalSupply image) 10 <=? s
                  then (Throw (plainError "This limited edition is sold out"), wr)
                  else (Ok (mkAssignment image (s + 1)
                              (or_defaultQ (img_pricePerUnit image) priceFloor)), wr)).
  { unfold readAndAssign, tx_selectImages.
    rewrite (bind_ok _ _ _ _ _ (bind_ok _ _ _ _ _ (roundTrip_first_served w0 es Hf))).
    unfold gets. cbn [pending store withFaults withNextTx w0]. rewrite Hp.
    cbn [statementsOf List.filter map applyAll]. rewrite Hsel, Hpub, Hs. cbn [negb].
    now destruct (or_default (img_totalSupply image) 10 <=? s). }
  destruct (or_default (img_totalSupply image) 10 <=? s).
  { rewrite (bind_throw _ _ _ _ _ Hra). cbn. rewrite Hp. auto. }
  rewrite (bind_ok _ _ _ _ _ Hra).
  set (a := mkAssignment image (s + 1) (or_defaultQ (img_pricePerUnit image) priceFloor)).
  set (p := mkInsertPurchase (usr_email user) (req_imageId b) (s + 1) (clock w)
                             (as_pricePerUnit a)).
  set (wa := afterFailures (length es) 1 wr).
  destruct (afterFailures_frame (length es) 1 wr ltac:(lia))
    as (Ha1 & Ha2 & Ha3 & Ha4 & _ & Ha6 & Ha7).
  assert (Ha5 : faults wa = []).
  { apply (afterFailures_faults es [] 1 wr); [lia|]. unfold wr. cbn [faults withFaults].
    now rewrite app_nil_r. }
  fold wa in Ha1, Ha2, Ha3, Ha4, Ha6, Ha7.
  cbn [store pending nextTx queryCache sleeps clock wr w0 withFaults withNextTx]
    in Ha1, Ha2, Ha3, Ha4, Ha6, Ha7.
  assert (Hins : executeWithRetry (db_insertPurchase p) defaultRetries wr
                 = (Ok (purchaseRow (store w) p),
                    withStore wa (withPurchases (store w)
                      (posterPurchases (store w) ++ [purchaseRow (store w) p])))).
  { unfold executeWithRetry, defaultRetries.
    replace (Z.to_nat 3) with (length es + S (2 - length es))%nat by lia.
    rewrite (retryLoop_after_failures _ es (db_insertPurchase_failsWithStore p)
               (S (2 - length es)) 1 ThrownUndefined wr [] Hall)
      by (unfold wr; cbn [faults withFaults]; now rewrite app_nil_r).
    fold wa. rewrite <- Ha1. apply retryLoop_ok.
    apply db_insertPurchase_served; [exact Ha5|]. rewrite Ha1. exact Hu. }
  assert (Hrp : recordPurchase user (req_imageId b) a wr
                = (Ok (purchaseRow (store w) p),
                   withCache (withStore wa (withPurchases (store w)
                      (posterPurchases (store w) ++ [purchaseRow (store w) p])))
                     (invalidated ("poster-purchases:" +:+ req_imageId b) (queryCache w)))).
  { unfold recordPurchase. rewrite bind_gets.
    change (clock wr) with (clock w). fold p.
    unfold createPosterPurchase, tryCatch.
    rewrite (bind_ok _ _ _ _ _ Hins).
    rewrite (bind_ok _ _ _ _ _ (invalidateCache_eq _ _)).
    cbn [mret M_ret queryCache withStore ipp_imageId p]. now rewrite Ha4. }
  rewrite (bind_ok _ _ _ _ _ Hrp).
  match type of Hrp with _ = (_, ?x) => set (w1 := x) end.
  assert (Hus : updateSoldCount (nextTx w) (req_imageId b) a w1
                = (Ok tt, withPending w1
                            (pending w1 ++ [(nextTx w, UpdateImage (req_imageId b)
                                                         (soldCountUpdate (s + 1)))])))
    by (apply tx_execute_served; exact Ha5).
  rewrite (bind_ok _ _ _ _ _ Hus).
  match type of Hus with _ = (_, ?x) => set (w2 := x) end.
  pose proof (createOrder_row
                (mkOrder shippingData draw 1 (as_pricePerUnit a)
                   ("/api/storage-image/" +:+ img_generatedPath (as_image a))
                   (img_originalPath (as_image a)) (as_editionNumber a)
                   (img_totalSupply (as_image a)) "paid") w2 Ha5) as Hco.
  unfold recordOrder. rewrite (bind_ok _ _ _ _ _ Hco).
  unfold mret, M_ret. cbn [fst snd].
  unfold commit, w2, w1. cbn -[applyAll statementsOf othersOf afterFailures or_defaultQ].
  fold wa. rewrite Ha2, Hp, Ha5, Ha6.
  cbn [app statementsOf othersOf List.filter fst snd map].
  rewrite Nat.eqb_refl. cbn -[or_defaultQ].
  repeat split; auto.
  do 3 f_equal. unfold or_defaultQ at 1. now rewrite price_not_zero.
Qed.

(** X8.  A purchase whose insert of the purchase row meets one or two
    connection failures completes all the same: the executor inside
    [createPosterPurchase] sends the insert again after 200 ms, and after
    400 ms more.  The answer, the edition and the rows are those of an
    undisturbed purchase; exactly one purchase row is added, dated at the
    moment the handler asked for the insert, before the waiting. *)
Theorem purchase_completes_after_retried_insert
        (b : PurchaseBody) (shippingData : ShippingData) (draw : Z) (user : User)
        (w : World) (image : GeneratedImage) (rest : list GeneratedImage)
        (es : list JsError) :
  req_shippingData b = Some shippingData ->
  req_imageId b <> "" ->
  missingField shippingData = None ->
  faults w = None :: map Some es ->
  Forall (fun e => isConnectionError e = true) es ->
  (length es < 3)%nat ->
  pending w = [] ->
  selectImages (req_imageId b) (store w) = image :: rest ->
  img_isPublic image = true ->
  or_default (img_soldCount image) 0 < or_default (img_totalSupply image) 10 ->
  (uniqueEditions (store w) = true ->
   existsb (sameEdition (req_imageId b) (or_default (img_soldCount image) 0 + 1))
           (posterPurchases (store w)) = false) ->
  let r := fst (purchasePoster b draw user w) in
  let w' := snd (purchasePoster b draw user w) in
  status r = 200
  /\ editionOf r = Some (or_default (img_soldCount image) 0 + 1)
  /\ posterPurchases (store w')
     = posterPurchases (store w)
       ++ [mkPurchase (nextPurchaseId (store w)) (usr_email user) (req_imageId b)
                      (or_default (img_soldCount image) 0 + 1) (clock w)
                      (or_defaultQ (img_pricePerUnit image) priceFloor)]
  /\ generatedImages (store w')
     = updateWhere (fun i => String.eqb (img_id i) (req_imageId b))
                   (applyImageUpdate (soldCountUpdate (or_default (img_soldCount image) 0 + 1)))
                   (generatedImages (store w))
  /\ faults w' = []
  /\ pending w' = []
  /\ sleeps w' = sleeps w ++ backoff (length es) 1.
Proof.
  intros Hship Hid Hmiss Hf Hall Hlen Hp Hsel Hpub Hleft Hu.
  pose proof (purchasePoster_answered b shippingData draw user w image rest es _
                Hship Hid Hmiss (or_intror Hf) Hall Hlen Hp Hsel Hpub eq_refl Hu) as H.
  cbv zeta in H. destruct H as [Hp' H].
  replace (or_default (img_totalSupply image) 10 <=? or_default (img_soldCount image) 0)
    with false in H by (symmetry; apply Z.leb_gt; exact Hleft).
  destruct H as (Hr & H1 & H2 & _ & H4 & H5 & _).
  cbv zeta. rewrite Hr. repeat split; auto.
Qed.

Lemma purchase_completes_after_retried_insert_witness :
  let w := worldOf (shopOf [poster "p1" true (Some 2) (Some 1)] true)
                   [None; Some connectionReset; Some connectionReset] in
  let r := fst (purchasePoster buyerOrder 123456 buyer w) in
  let w' := snd (purchasePoster buyerOrder 123456 buyer w) in
  status r = 200
  /\ editionOf r = Some 2
  /\ posterPurchases (store w') = [mkPurchase 1 "buyer@example.com" "p1" 2 0 (40 # 1)]
  /\ generatedImages (store w') = [poster "p1" true (Some 2) (Some 2)]
  /\ faults w' = []
  /\ pending w' = []
  /\ sleeps w' = [200; 400].
Proof.
  apply (purchase_completes_after_retried_insert
           buyerOrder toBuyer 123456 buyer
           (worldOf (shopOf [poster "p1" true (Some 2) (Some 1)] true)
                    [None; Some connectionReset; Some connectionReset])
           (poster "p1" true (Some 2) (Some 1)) [] [connectionReset; connectionReset]);
    try reflexivity.
  - discriminate.
  - repeat constructor.
  - simpl. lia.
Defined.

(** X9.  A purchase that succeeds writes one purchase row and one order
    row, and the two agree with each other and with the answer: the same
    edition, the same amount (the stored price, 29.95 when none is
    stored), the order paid, of quantity one, under the confirmation
    number of the answer and with the shipping data of the request. *)
Theorem purchase_writes_one_matching_order
        (b : PurchaseBody) (shippingData : ShippingData) (draw : Z) (user : User)
        (w : World) (image : GeneratedImage) (rest : list GeneratedImage) :
  req_shippingData b = Some shippingData ->
  req_imageId b <> "" ->
  missingField shippingData = None ->
  faults w = [] ->
  pending w = [] ->
  selectImages (req_imageId b) (store w) = image :: rest ->
  img_isPublic image = true ->
  or_default (img_soldCount image) 0 < or_default (img_totalSupply image) 10 ->
  (uniqueEditions (store w) = true ->
   existsb (sameEdition (req_imageId b) (or_default (img_soldCount image) 0 + 1))
           (posterPurchases (store w)) = false) ->
  let r := fst (purchasePoster b draw user w) in
  let w' := snd (purchasePoster b draw user w) in
  exists purchase order,
    posterPurchases (store w') = posterPurchases (store w) ++ [purchase]
    /\ orders (store w') = orders (store w) ++ [order]
    /\ r = json (BodyPurchase (ord_confirmationId order) (pp_editionNumber purchase)
                              (img_totalSupply image) (pp_amountPaid purchase)
                              (pp_id purchase))
    /\ ord_editionNumber order = pp_editionNumber purchase
    /\ pp_editionNumber purchase = or_default (img_soldCount image) 0 + 1
    /\ ord_amount order = pp_amountPaid purchase
    /\ pp_amountPaid purchase = or_defaultQ (img_pricePerUnit image) priceFloor
    /\ ord_confirmationId order = draw
    /\ ord_shipping order = shippingData
    /\ ord_quantity order = 1
    /\ ord_status order = "paid"
    /\ pp_userEmail purchase = usr_email user
    /\ pp_imageId purchase = req_imageId b.
Proof.
  intros Hship Hid Hmiss Hf Hp Hsel Hpub Hleft Hu.
  pose proof (purchasePoster_answered b shippingData draw user w image rest [] _
                Hship Hid Hmiss (or_introl (conj Hf eq_refl)) (List.Forall_nil _)
                ltac:(simpl; lia) Hp Hsel Hpub eq_refl Hu) as H.
  cbv zeta in H. destruct H as [_ H].
  replace (or_default (img_totalSupply image) 10 <=? or_default (img_soldCount image) 0)
    with false in H by (symmetry; apply Z.leb_gt; exact Hleft).
  destruct H as (Hr & Hpur & _ & _ & _ & _ & Hord).
  cbv zeta. do 2 eexists. split; [exact Hpur|]. split; [exact Hord|].
  rewrite Hr. repeat split.
Qed.

Lemma purchase_writes_one_matching_order_witness :
  let w := worldOf (shopOf [poster "p1" true (Some 2) (Some 1)] true) [] in
  let r := fst (purchasePoster buyerOrder 123456 buyer w) in
  let w' := snd (purchasePoster buyerOrder 123456 buyer w) in
  exists purchase order,
    posterPurchases (store w') = posterPurchases (store w) ++ [purchase]
    /\ orders (store w') = orders (store w) ++ [order]
    /\ r = json (BodyPurchase (ord_confirmationId order) (pp_editionNumber purchase)
                              (Some 2) (pp_amountPaid purchase) (pp_id purchase))
    /\ ord_editionNumber order = pp_editionNumber purchase
    /\ pp_editionNumber purchase = 2
    /\ ord_amount order = pp_amountPaid purchase
    /\ pp_amountPaid purchase = 40 # 1
    /\ ord_confirmationId order = 123456
    /\ ord_shipping order = toBuyer
    /\ ord_quantity order = 1
    /\ ord_status order = "paid"
    /\ pp_userEmail purchase = "buyer@example.com"
    /\ pp_imageId purchase = "p1".
Proof.
  apply (purchase_writes_one_matching_order
           buyerOrder toBuyer 123456 buyer
           (worldOf (shopOf [poster "p1" true (Some 2) (Some 1)] true) [])
           (poster "p1" true (Some 2) (Some 1)) []);
    try reflexivity; discriminate.
Defined.

(** X10.  The purchase handler answers 400 exactly when the body lacks the
    shipping data or the image id or one of the eight required shipping
    fields (or holds it empty); it does so before anything else: no round
    trip, no row, no transaction.  Every other answer is 200 or 500. *)
Theorem purchase_validates_before_it_reads
        (b : PurchaseBody) (draw : Z) (user : User) (w : World) :
  let r := fst (purchasePoster b draw user w) in
  let w' := snd (purchasePoster b draw user w) in
  (status r = 400 <->
   req_shippingData b = None
   \/ req_imageId b = ""
   \/ exists shippingData,
        req_shippingData b = Some shippingData /\ missingField shippingData <> None)
  /\ (status r = 400 -> w' = w)
  /\ (status r = 200 \/ status r = 400 \/ status r = 500).
Proof.
  cbv zeta. unfold purchasePoster.
  destruct (req_shippingData b) as [shippingData|] eqn:Es.
  2:{ cbn [fst snd status statusJson]. repeat split; auto. }
  destruct (String.eqb_spec (req_imageId b) "") as [Ei|Ei].
  { cbn [fst snd status statusJson]. repeat split; auto. }
  destruct (missingField shippingData) as [field|] eqn:Em.
  { cbn [fst snd status statusJson]. repeat split; auto. intros _. right. right. exists shippingData.
    split; [reflexivity|]. now rewrite Em. }
  assert (Hst : status (fst (let (r, w1) :=
                  transaction (purchaseTransaction user (req_imageId b) shippingData draw) w
                  in match r with
                     | Ok r => (r, w1)
                     | Throw error => (purchaseFailure error, w1)
                     end)) = 200
                \/ status (fst (let (r, w1) :=
                  transaction (purchaseTransaction user (req_imageId b) shippingData draw) w
                  in match r with
                     | Ok r => (r, w1)
                     | Throw error => (purchaseFailure error, w1)
                     end)) = 500).
  { unfold transaction, begin, purchaseTransaction, mbind, M_bind.
    destruct (readAndAssign _ _ _) as [[a|?] ?]; [|now right].
    destruct (recordPurchase _ _ _ _) as [[p|?] ?]; [|now right].
    destruct (updateSoldCount _ _ _ _) as [[[]|?] ?]; [|now right].
    destruct (recordOrder _ _ _ _) as [[o|?] ?]; [|now right].
    now left. }
  destruct (transaction (purchaseTransaction user (req_imageId b) shippingData draw) w)
    as [[r|t] w1]; cbn [fst snd] in *.
  - split; [|split].
    + split; [lia|]. intros [H|[H|(sd & [= <-] & H)]]; [discriminate|contradiction|].
      now contradict H.
    + lia.
    + destruct Hst; auto.
  - split; [|split].
    + split; [cbn; discriminate|].
      intros [H|[H|(sd & [= <-] & H)]]; [discriminate|contradiction|]. now contradict H.
    + cbn. discriminate.
    + auto.
Qed.

Lemma purchase_validates_before_it_reads_witness :
  let b := mkPurchaseBody "p1" None in
  let w := worldOf (shopOf [poster "p1" true (Some 2) (Some 0)] true) [] in
  status (fst (purchasePoster b 123456 buyer w)) = 400
  /\ snd (purchasePoster b 123456 buyer w) = w.
Proof.
  destruct (purchase_validates_before_it_reads
              (mkPurchaseBody "p1" None) 123456 buyer
              (worldOf (shopOf [poster "p1" true (Some 2) (Some 0)] true) []))
    as (H1 & H2 & _).
  assert (H : status (fst (purchasePoster (mkPurchaseBody "p1" None) 123456 buyer
                             (worldOf (shopOf [poster "p1" true (Some 2) (Some 0)] true) [])))
              = 400)
    by (apply H1; left; reflexivity).
  split; [exact H|exact (H2 H)].
Defined.

(** The handler when the read of the artifact finds no row, or a row that
    is not published. *)
Lemma purchasePoster_unlisted
        (b : PurchaseBody) (shippingData : ShippingData) (draw : Z) (user : User)
        (w : World) :
  req_shippingData b = Some shippingData ->
  req_imageId b <> "" ->
  missingField shippingData = None ->
  faults w = [] ->
  pending w = [] ->
  let r := fst (purchasePoster b draw user w) in
  let w' := snd (purchasePoster b draw user w) in
  (selectImages (req_imageId b) (store w) = [] ->
   r = statusJson 500 (BodyError "Image not found")
   /\ store w' = store w /\ pending w' = [] /\ queryCache w' = queryCache w)
  /\ (forall image rest,
        selectImages (req_imageId b) (store w) = image :: rest ->
        img_isPublic image = false ->
        r = statusJson 500 (BodyError "Image is not available for purchase")
        /\ store w' = store w /\ pending w' = [] /\ queryCache w' = queryCache w).
Proof.
  intros Hship Hid Hmiss Hf Hp r w'. subst r w'. unfold purchasePoster. rewrite Hship.
  destruct (String.eqb_spec (req_imageId b) "") as [E|_]; [contradiction|].
  rewrite Hmiss. unfold transaction, begin, purchaseTransaction.
  unfold readAndAssign, tx_selectImages.
  set (w0 := withNextTx w (S (nextTx w))).
  assert (Hsel : (roundTrip;;
                  gets (fun w1 => selectImages (req_imageId b)
                                    (applyAll (statementsOf (nextTx w) (pending w1)) (store w1))))
                   w0
                 = (Ok (selectImages (req_imageId b) (store w)), w0)).
  { rewrite (bind_ok _ _ _ _ _ (roundTrip_quiet w0 Hf)). unfold gets.
    cbn [pending store w0 withNextTx]. now rewrite Hp. }
  split.
  - intros Hnone. rewrite Hnone in Hsel.
    rewrite (bind_throw _ _ _ _ _ (bind_ok _ _ _ _ _ Hsel)). cbn. now rewrite Hp.
  - intros image rest Hsome Hpub. rewrite Hsome in Hsel.
    rewrite (bind_throw _ _ _ (plainError "Image is not available for purchase") w0).
    + cbn. now rewrite Hp.
    + rewrite (bind_ok _ _ _ _ _ Hsel). now rewrite Hpub.
Qed.


(** X11.  A purchase of an artifact that does not exist, or that is not
    published, is refused with the error of that name and status 500
    after the one read; with the store answering no row changes and the
    transaction is closed. *)
Theorem purchase_of_unlisted_artifact_is_refused
        (b : PurchaseBody) (shippingData : ShippingData) (draw : Z) (user : User)
        (w : World) :
  req_shippingData b = Some shippingData ->
  req_imageId b <> "" ->
  missingField shippingData = None ->
  faults w = [] ->
  pending w = [] ->
  let r := fst (purchasePoster b draw user w) in
  let w' := snd (purchasePoster b draw user w) in
  (selectImages (req_imageId b) (store w) = [] ->
   r = statusJson 500 (BodyError "Image not found")
   /\ store w' = store w /\ pending w' = [] /\ queryCache w' = queryCache w)
  /\ (forall image rest,
        selectImages (req_imageId b) (store w) = image :: rest ->
        img_isPublic image = false ->
        r = statusJson 500 (BodyError "Image is not available for purchase")
        /\ store w' = store w /\ pending w' = [] /\ queryCache w' = queryCache w).
Proof. exact (purchasePoster_unlisted b shippingData draw user w). Qed.

Lemma purchase_of_unlisted_artifact_is_refused_witness :
  (let w := worldOf (shopOf [] true) [] in
   fst (purchasePoster buyerOrder 123456 buyer w)
   = statusJson 500 (BodyError "Image not found")
   /\ store (snd (purchasePoster buyerOrder 123456 buyer w)) = store w
   /\ pending (snd (purchasePoster buyerOrder 123456 buyer w)) = []
   /\ queryCache (snd (purchasePoster buyerOrder 123456 buyer w)) = queryCache w)
  /\ (let w := worldOf (shopOf [poster "p1" false (Some 5) (Some 0)] true) [] in
      fst (purchasePoster buyerOrder 123456 buyer w)
      = statusJson 500 (BodyError "Image is not available for purchase")
      /\ store (snd (purchasePoster buyerOrder 123456 buyer w)) = store w
      /\ pending (snd (purchasePoster buyerOrder 123456 buyer w)) = []
      /\ queryCache (snd (purchasePoster buyerOrder 123456 buyer w)) = queryCache w).
Proof.
  split.
  - apply (proj1 (purchase_of_unlisted_artifact_is_refused
                    buyerOrder toBuyer 123456 buyer (worldOf (shopOf [] true) [])
                    eq_refl ltac:(discriminate) eq_refl eq_refl eq_refl)).
    reflexivity.
  - apply (proj2 (purchase_of_unlisted_artifact_is_refused
                    buyerOrder toBuyer 123456 buyer
                    (worldOf (shopOf [poster "p1" false (Some 5) (Some 0)] true) [])
                    eq_refl ltac:(discriminate) eq_refl eq_refl eq_refl)
                 (poster "p1" false (Some 5) (Some 0)) []); reflexivity.
Defined.

(** ** The admin and availability routes *)

Lemma db_execute_frame s w :
  exists f,
    (db_execute s w = (Ok tt, withStore (withFaults w f)
                                match execute s (store w) with
                                | Ok d => d
                                | Throw _ => store w
                                end)
     /\ (exists d, execute s (store w) = Ok d)
     /\ (faults w = [] -> f = []))
    \/ exists t, db_execute s w = (Throw t, withFaults w f).
Proof.
  unfold db_execute. destruct (roundTrip_frame w) as (f & Hw & Hok).
  exists f. destruct (roundTrip w) as [[[]|t] w1]; cbn [snd] in Hw; subst w1.
  - cbn [store withFaults]. destruct (execute s (store w)) as [d|t] eqn:E.
    + left. split; [reflexivity|]. split; [now exists d|].
      intros Hf. now destruct (Hok Hf).
    + right. now exists t.
  - right. now exists t.
Qed.

(** X12.  [PATCH /api/admin/images/:id/edition] writes a sold count only
    with a session token, for an artifact that exists, and only a count
    [n] with [0 <= n <= totalSupply] (10 when the total supply is unset);
    it then answers edition [n + 1] and the remaining supply, and sets the
    sold count of that artifact and of no other.  Refused, it changes no
    row.  In no case does it touch users, purchases, open statements or
    the cache: a cached copy of the artifact keeps the old count. *)
Theorem admin_edition_stays_within_supply
        (token id : string) (soldCount : Field Z) (w : World) :
  let r := fst (requireAdminAuth token (adminSetEdition id soldCount) w) in
  let w' := snd (requireAdminAuth token (adminSetEdition id soldCount) w) in
  queryCache w' = queryCache w
  /\ pending w' = pending w
  /\ users (store w') = users (store w)
  /\ posterPurchases (store w') = posterPurchases (store w)
  /\ match r with
     | Payload answer =>
         token <> ""
         /\ exists n image rest,
             soldCount = Given n
             /\ selectImages id (store w) = image :: rest
             /\ 0 <= n <= or_default (img_totalSupply image) 10
             /\ answer = mkEditionSet n (n + 1) (or_default (img_totalSupply image) 10 - n)
             /\ generatedImages (store w')
                = updateWhere (fun i => String.eqb (img_id i) id)
                              (applyImageUpdate (soldCountUpdate n))
                              (generatedImages (store w))
     | Refused _ _ => store w' = store w
     end.
Proof.
  cbv zeta. unfold requireAdminAuth.
  destruct (String.eqb_spec token "") as [Et|Et]; [cbn; auto|].
  unfold adminSetEdition. destruct soldCount as [| |n]; [cbn; auto..|].
  destruct (Z.ltb_spec n 0) as [Hn|Hn]; [cbn; auto|].
  unfold db_selectImages, gets, mbind, M_bind.
  destruct (roundTrip_frame w) as (f1 & Hw1 & _).
  destruct (roundTrip w) as [[[]|t] w1]; cbn [snd] in Hw1; subst w1; [|cbn; auto].
  cbn [store withFaults].
  destruct (selectImages id (store w)) as [|image rest] eqn:Ei; [cbn; auto|].
  destruct (Z.ltb_spec (or_default (img_totalSupply image) 10) n) as [Ht|Ht]; [cbn; auto|].
  destruct (db_execute_frame (UpdateImage id (soldCountUpdate n)) (withFaults w f1))
    as [f2 [(Hx & _ & _)|[t Hx]]]; rewrite Hx; [|cbn; auto].
  cbn. repeat split; auto. exists n, image, rest. repeat split; auto.
Qed.

Lemma admin_edition_stays_within_supply_witness :
  let w := seededWorld (poster "p1" true (Some 5) (Some 4)) 60000 in
  let w' := snd (requireAdminAuth "session" (adminSetEdition "p1" (Given 1)) w) in
  queryCache w' = queryCache w
  /\ fst (requireAdminAuth "session" (adminSetEdition "p1" (Given 1)) w)
     = Payload (mkEditionSet 1 2 4)
  /\ generatedImages (store w') = [poster "p1" true (Some 5) (Some 1)].
Proof.
  pose proof (admin_edition_stays_within_supply
                "session" "p1" (Given 1)
                (seededWorld (poster "p1" true (Some 5) (Some 4)) 60000)) as H.
  cbv zeta in H. destruct H as (Hc & _ & _ & _ & H).
  split; [exact Hc|].
  destruct (fst (requireAdminAuth "session" (adminSetEdition "p1" (Given 1))
                   (seededWorld (poster "p1" true (Some 5) (Some 4)) 60000)))
    as [status error|answer] eqn:E; [vm_compute in E; discriminate E|].
  destruct H as (_ & n & image & rest & Hn & Hsel & _ & -> & Himg).
  injection Hn as <-. vm_compute in Hsel. injection Hsel as <- <-.
  split; [reflexivity|]. rewrite Himg. reflexivity.
Defined.

Lemma or_default_given n : 0 <= n -> or_default (Some n) 0 = n.
Proof. intros _. unfold or_default. destruct (Z.eqb_spec n 0); congruence. Qed.

Lemma head_updateWhere id u d image rest :
  selectImages id d = image :: rest ->
  selectImages id (withImages d (updateWhere (fun i => String.eqb (img_id i) id)
                                             (applyImageUpdate u) (generatedImages d)))
  = applyImageUpdate u image :: map (applyImageUpdate u) rest.
Proof.
  intros H. unfold selectImages in *. cbn [generatedImages withImages].
  now rewrite filter_images_after_update, H by reflexivity.
Qed.

(** X13.  After the admin route has set the sold count of a published
    artifact to [n], below its total supply, the next purchase is assigned
    edition [n + 1], whatever editions the stored purchases carry: the
    handler numbers editions from the sold count alone. *)
Theorem purchase_after_admin_edition_takes_the_next_number
        (token id : string) (n : Z) (b : PurchaseBody) (shippingData : ShippingData)
        (draw : Z) (user : User) (w : World)
        (image : GeneratedImage) (rest : list GeneratedImage) :
  token <> "" ->
  faults w = [] ->
  pending w = [] ->
  selectImages id (store w) = image :: rest ->
  img_isPublic image = true ->
  0 <= n < or_default (img_totalSupply image) 10 ->
  req_imageId b = id ->
  id <> "" ->
  req_shippingData b = Some shippingData ->
  missingField shippingData = None ->
  (uniqueEditions (store w) = true ->
   existsb (sameEdition id (n + 1)) (posterPurchases (store w)) = false) ->
  let w1 := snd (requireAdminAuth token (adminSetEdition id (Given n)) w) in
  let r := fst (purchasePoster b draw user w1) in
  let w2 := snd (purchasePoster b draw user w1) in
  fst (requireAdminAuth token (adminSetEdition id (Given n)) w)
  = Payload (mkEditionSet n (n + 1) (or_default (img_totalSupply image) 10 - n))
  /\ status r = 200
  /\ editionOf r = Some (n + 1)
  /\ map pp_editionNumber (selectPurchases id (store w2))
     = map pp_editionNumber (selectPurchases id (store w)) ++ [n + 1]
  /\ (forall image', head (selectImages id (store w2)) = Some image' ->
                     img_soldCount image' = Some (n + 1)).
Proof.
  intros Ht Hf Hp Hsel Hpub Hn Hb Hid Hship Hmiss Hu. subst id. cbv zeta.
  assert (Hadmin : requireAdminAuth token (adminSetEdition (req_imageId b) (Given n)) w
                   = (Payload (mkEditionSet n (n + 1)
                                 (or_default (img_totalSupply image) 10 - n)),
                      withStore w (withImages (store w)
                        (updateWhere (fun i => String.eqb (img_id i) (req_imageId b))
                                     (applyImageUpdate (soldCountUpdate n))
                                     (generatedImages (store w)))))).
  { unfold requireAdminAuth. destruct (String.eqb_spec token "") as [E|_]; [contradiction|].
    unfold adminSetEdition.
    replace (n <? 0) with false by (symmetry; apply Z.ltb_ge; lia).
    unfold db_selectImages. rewrite (bind_ok _ _ _ _ _ (roundTrip_quiet w Hf)).
    unfold gets. rewrite Hsel.
    replace (or_default (img_totalSupply image) 10 <? n) with false
      by (symmetry; apply Z.ltb_ge; lia).
    unfold db_execute. now rewrite (roundTrip_quiet w Hf). }
  rewrite Hadmin. cbn [fst snd]. split; [reflexivity|].
  set (w1 := withStore w _).
  pose proof (purchasePoster_answered b shippingData draw user w1
                (applyImageUpdate (soldCountUpdate n) image)
                (map (applyImageUpdate (soldCountUpdate n)) rest) [] n
                Hship Hid Hmiss (or_introl (conj Hf eq_refl)) (List.Forall_nil _)
                ltac:(simpl; lia) Hp (head_updateWhere _ _ _ _ _ Hsel) Hpub
                (or_default_given n (proj1 Hn)) Hu) as H.
  cbv zeta in H. destruct H as [_ H].
  cbn [applyImageUpdate soldCountUpdate img_totalSupply set_totalSupply assign] in H.
  replace (or_default (img_totalSupply image) 10 <=? n) with false in H
    by (symmetry; apply Z.leb_gt; lia).
  destruct H as (Hr & Hpur & Himg & _).
  rewrite Hr. split; [reflexivity|]. split; [reflexivity|]. split.
  - unfold selectPurchases. rewrite Hpur, List.filter_app, List.map_app.
    cbn [List.filter pp_imageId map pp_editionNumber posterPurchases store w1 withStore
         withImages]. now rewrite String.eqb_refl.
  - intros image'. unfold selectImages in *. rewrite Himg.
    cbn [store w1 withStore generatedImages withImages].
    rewrite !filter_images_after_update, Hsel by reflexivity.
    cbn. now intros [= <-].
Qed.

Lemma purchase_after_admin_edition_takes_the_next_number_witness :
  let w := worldOf (shopOf [poster "p1" true (Some 5) (Some 4)] false) [] in
  let w1 := snd (requireAdminAuth "session" (adminSetEdition "p1" (Given 1)) w) in
  let r := fst (purchasePoster buyerOrder 123456 buyer w1) in
  let w2 := snd (purchasePoster buyerOrder 123456 buyer w1) in
  fst (requireAdminAuth "session" (adminSetEdition "p1" (Given 1)) w)
  = Payload (mkEditionSet 1 2 4)
  /\ status r = 200
  /\ editionOf r = Some 2
  /\ map pp_editionNumber (selectPurchases "p1" (store w2)) = [2]
  /\ (forall image', head (selectImages "p1" (store w2)) = Some image' ->
                     img_soldCount image' = Some 2).
Proof.
  apply (purchase_after_admin_edition_takes_the_next_number
           "session" "p1" 1 buyerOrder toBuyer 123456 buyer
           (worldOf (shopOf [poster "p1" true (Some 5) (Some 4)] false) [])
           (poster "p1" true (Some 5) (Some 4)) []);
    try reflexivity; try discriminate.
  simpl. lia.
Defined.


Lemma updateWhere_no_match id f l :
  (forall i, img_id (f i) = img_id i) ->
  List.filter (fun i => String.eqb (img_id i) id)
              (updateWhere (fun i => String.eqb (img_id i) id) f l) = [] ->
  updateWhere (fun i => String.eqb (img_id i) id) f l = l.
Proof.
  intros Hf H. rewrite filter_images_after_update in H by exact Hf.
  apply updateWhere_none. intros r Hr.
  destruct (String.eqb (img_id r) id) eqn:E; [|reflexivity].
  assert (Hin : In r (List.filter (fun i => String.eqb (img_id i) id) l))
    by (apply filter_In; auto).
  destruct (List.filter _ l); [contradiction|discriminate H].
Qed.

(** X14.  [PATCH /api/admin/images/:id/reject] takes the artifact off sale
    and off the review queue, and a purchase of it is refused from then
    on.  It never writes to the users: the counter of the seller stays as
    it was, so a published artifact that is rejected keeps occupying one of
    the seller's free slots although it is no longer on sale. *)
Theorem rejected_artifact_keeps_its_quota_slot
        (token id : string) (w : World) (image : GeneratedImage)
        (rest : list GeneratedImage)
        (b : PurchaseBody) (shippingData : ShippingData) (draw : Z) (user : User) :
  token <> "" ->
  faults w = [] ->
  pending w = [] ->
  NoDup (map img_id (generatedImages (store w))) ->
  selectImages id (store w) = image :: rest ->
  img_isPublic image = true ->
  req_imageId b = id ->
  id <> "" ->
  req_shippingData b = Some shippingData ->
  missingField shippingData = None ->
  let w1 := snd (requireAdminAuth token (adminReject id) w) in
  fst (requireAdminAuth token (adminReject id) w)
  = Payload "Poster rejected and removed from review queue"
  /\ Forall (fun i => img_isPublic i = false /\ img_isApproved i = false)
            (selectImages id (store w1))
  /\ users (store w1) = users (store w)
  /\ postersForSaleOf (img_userId image) (store w1)
     = postersForSaleOf (img_userId image) (store w)
  /\ Z.of_nat (length (publishedBy (img_userId image) (store w1)))
     = Z.of_nat (length (publishedBy (img_userId image) (store w))) - 1
  /\ fst (purchasePoster b draw user w1)
     = statusJson 500 (BodyError "Image is not available for purchase")
  /\ store (snd (purchasePoster b draw user w1)) = store w1.
Proof.
  intros Ht Hf Hp Hnd Hsel Hpub Hb Hid Hship Hmiss w1. subst w1 id.
  assert (Hrej : requireAdminAuth token (adminReject (req_imageId b)) w
                 = (Payload "Poster rejected and removed from review queue",
                    withStore w (withImages (store w)
                      (updateWhere (fun i => String.eqb (img_id i) (req_imageId b))
                                   (applyImageUpdate rejectUpdate)
                                   (generatedImages (store w)))))).
  { unfold requireAdminAuth. destruct (String.eqb_spec token "") as [E|_]; [contradiction|].
    unfold adminReject, moderate, db_execute. rewrite (roundTrip_quiet w Hf).
    cbn [execute store withStore]. now rewrite (head_updateWhere _ _ _ _ _ Hsel). }
  rewrite Hrej. cbn [fst snd]. set (w1 := withStore w _).
  assert (Hsel1 : selectImages (req_imageId b) (store w1)
                  = applyImageUpdate rejectUpdate image
                    :: map (applyImageUpdate rejectUpdate) rest)
    by (apply head_updateWhere; exact Hsel).
  split; [reflexivity|]. split.
  { rewrite Hsel1. constructor; [split; reflexivity|].
    apply List.Forall_forall. intros i Hi. apply in_map_iff in Hi.
    destruct Hi as (j & <- & _). split; reflexivity. }
  split; [reflexivity|]. split; [reflexivity|]. split.
  { unfold publishedBy. cbn [store w1 withStore generatedImages withImages].
    unfold selectImages in Hsel.
    rewrite (count_after_update _ _ _ _ image rest Hnd Hsel).
    cbn [applyImageUpdate rejectUpdate img_userId img_isPublic set_isPublic assign].
    rewrite Hpub, String.eqb_refl. cbn. lia. }
  destruct (proj2 (purchasePoster_unlisted b shippingData draw user w1
                     Hship Hid Hmiss Hf Hp)
                  (applyImageUpdate rejectUpdate image)
                  (map (applyImageUpdate rejectUpdate) rest) Hsel1 eq_refl)
    as (Hr & Hst & _).
  now split.
Qed.

Lemma rejected_artifact_keeps_its_quota_slot_witness :
  let w := worldOf (quotaShop 1 [poster "p1" true (Some 5) (Some 0)]) [] in
  let w1 := snd (requireAdminAuth "session" (adminReject "p1") w) in
  fst (requireAdminAuth "session" (adminReject "p1") w)
  = Payload "Poster rejected and removed from review queue"
  /\ Forall (fun i => img_isPublic i = false /\ img_isApproved i = false)
            (selectImages "p1" (store w1))
  /\ users (store w1) = users (store w)
  /\ postersForSaleOf "seller@example.com" (store w1) = 1
  /\ Z.of_nat (length (publishedBy "seller@example.com" (store w1))) = 1 - 1
  /\ fst (purchasePoster buyerOrder 123456 buyer w1)
     = statusJson 500 (BodyError "Image is not available for purchase")
  /\ store (snd (purchasePoster buyerOrder 123456 buyer w1)) = store w1.
Proof.
  apply (rejected_artifact_keeps_its_quota_slot
           "session" "p1" (worldOf (quotaShop 1 [poster "p1" true (Some 5) (Some 0)]) [])
           (poster "p1" true (Some 5) (Some 0)) [] buyerOrder toBuyer 123456 buyer);
    try reflexivity; try discriminate.
  constructor; [|constructor]. intros H. apply list_elem_of_In in H. contradiction.
Defined.


(** X15.  [GET /api/images/:id/availability] against the purchase
    handler, for a published artifact in the same state.  Both read a null
    sold count as 0 and a null or zero total supply as 10, and both go to
    the store itself, not to the cache.  When the route says that nothing
    is available the purchase is answered sold out.  When it says
    available it announces edition sold count + 1, and the purchase is
    assigned that edition and charged the announced price, with one
    exception: if the purchases table enforces unique editions and already
    holds a row of the artifact with that edition, the route announces the
    edition all the same, and the purchase is answered with the
    duplicate-key error of the store and records nothing. *)
Theorem availability_route_agrees_with_purchase
        (id : string) (b : PurchaseBody) (shippingData : ShippingData) (draw : Z)
        (user : User) (w : World) (image : GeneratedImage) (rest : list GeneratedImage) :
  faults w = [] ->
  pending w = [] ->
  selectImages id (store w) = image :: rest ->
  img_isPublic image = true ->
  req_imageId b = id ->
  id <> "" ->
  req_shippingData b = Some shippingData ->
  missingField shippingData = None ->
  let r := fst (purchasePoster b draw user w) in
  let w' := snd (purchasePoster b draw user w) in
  let s := or_default (img_soldCount image) 0 in
  exists answer,
    imageAvailability id true w = (Payload answer, w)
    /\ av_soldCount answer = s
    /\ av_totalSupply answer = or_default (img_totalSupply image) 10
    /\ (av_available answer = false ->
        r = SoldOut /\ av_nextEditionNumber answer = None
        /\ av_remainingSupply answer = 0)
    /\ (av_available answer = true ->
        av_nextEditionNumber answer = Some (s + 1)
        /\ if uniqueEditions (store w)
              && existsb (sameEdition id (s + 1)) (posterPurchases (store w))
           then r = DuplicateEdition /\ store w' = store w
           else r = json (BodyPurchase draw (s + 1) (img_totalSupply image)
                                       (av_pricePerUnit answer) (nextPurchaseId (store w)))
                /\ editionOf r = av_nextEditionNumber answer
                /\ status r = 200).
Proof.
  intros Hf Hp Hsel Hpub Hb Hid Hship Hmiss r w' s. subst r w' s id.
  eexists. split.
  { unfold imageAvailability, db_selectImages.
    rewrite (bind_ok _ _ _ _ _ (roundTrip_quiet w Hf)). unfold gets.
    rewrite Hsel, Hpub. reflexivity. }
  cbn [av_soldCount av_totalSupply av_available av_nextEditionNumber av_pricePerUnit
       av_remainingSupply].
  set (s := or_default (img_soldCount image) 0) in *.
  set (T := or_default (img_totalSupply image) 10) in *.
  split; [reflexivity|]. split; [reflexivity|].
  destruct (Z.leb_spec T s) as [Hfull|Hleft].
  - replace (0 <? Z.max 0 (T - s)) with false by (symmetry; apply Z.ltb_ge; lia).
    split; [|discriminate]. intros _. split; [|split; [reflexivity|lia]].
    unfold purchasePoster. rewrite Hship.
    destruct (String.eqb_spec (req_imageId b) "") as [E|_]; [contradiction|].
    rewrite Hmiss. unfold transaction, begin, purchaseTransaction.
    assert (Hra := readAndAssign_served (nextTx w) (req_imageId b)
                     (withNextTx w (S (nextTx w))) image rest Hf).
    cbn [pending store withNextTx] in Hra. rewrite Hp in Hra.
    specialize (Hra eq_refl Hsel Hpub). fold T s in Hra.
    replace (T <=? s) with true in Hra by (symmetry; apply Z.leb_le; lia).
    now rewrite (bind_throw _ _ _ _ _ Hra).
  - replace (0 <? Z.max 0 (T - s)) with true by (symmetry; apply Z.ltb_lt; lia).
    split; [discriminate|]. intros _. split; [reflexivity|].
    destruct (uniqueEditions (store w)
              && existsb (sameEdition (req_imageId b) (s + 1)) (posterPurchases (store w)))
      eqn:Etaken.
    + apply andb_true_iff in Etaken. destruct Etaken as [Hun Hdup].
      pose proof (purchasePoster_duplicate b shippingData draw user w image rest s
                    Hship Hid Hmiss Hf Hp Hsel Hpub eq_refl
                    ltac:(apply Z.leb_gt; exact Hleft) Hun Hdup) as H.
      cbv zeta in H. destruct H as (H1 & H2 & _). auto.
    + assert (Hu : uniqueEditions (store w) = true ->
                   existsb (sameEdition (req_imageId b) (s + 1)) (posterPurchases (store w))
                   = false).
      { intros Hun. now rewrite Hun in Etaken. }
      pose proof (purchasePoster_answered b shippingData draw user w image rest [] _
                    Hship Hid Hmiss (or_introl (conj Hf eq_refl)) (List.Forall_nil _)
                    ltac:(simpl; lia) Hp Hsel Hpub eq_refl Hu) as H.
      cbv zeta in H. destruct H as [_ H]. fold T s in H.
      replace (T <=? s) with false in H by (symmetry; apply Z.leb_gt; lia).
      destruct H as (Hr & _). rewrite Hr. repeat split.
Qed.

Lemma availability_route_agrees_with_purchase_witness :
  (let w := worldOf (shopOf [poster "p1" true None (Some 9)] true) [] in
   let r := fst (purchasePoster buyerOrder 123456 buyer w) in
   exists answer,
     imageAvailability "p1" true w = (Payload answer, w)
     /\ av_soldCount answer = 9
     /\ av_totalSupply answer = 10
     /\ (av_available answer = false ->
         r = SoldOut /\ av_nextEditionNumber answer = None
         /\ av_remainingSupply answer = 0)
     /\ (av_available answer = true ->
         av_nextEditionNumber answer = Some 10
         /\ r = json (BodyPurchase 123456 10 None (av_pricePerUnit answer) 1)
         /\ editionOf r = av_nextEditionNumber answer
         /\ status r = 200))
  /\ (let w := afterFailedPurchase in
      let r := fst (purchasePoster buyerOrder 123457 buyer w) in
      let w' := snd (purchasePoster buyerOrder 123457 buyer w) in
      exists answer,
        imageAvailability "p1" true w = (Payload answer, w)
        /\ av_soldCount answer = 0
        /\ av_totalSupply answer = 2
        /\ (av_available answer = false ->
            r = SoldOut /\ av_nextEditionNumber answer = None
            /\ av_remainingSupply answer = 0)
        /\ (av_available answer = true ->
            av_nextEditionNumber answer = Some 1
            /\ r = DuplicateEdition /\ store w' = store w)).
Proof.
  split.
  - apply (availability_route_agrees_with_purchase
             "p1" buyerOrder toBuyer 123456 buyer
             (worldOf (shopOf [poster "p1" true None (Some 9)] true) [])
             (poster "p1" true None (Some 9)) []);
      try reflexivity; discriminate.
  - apply (availability_route_agrees_with_purchase
             "p1" buyerOrder toBuyer 123457 buyer afterFailedPurchase
             (poster "p1" true (Some 2) (Some 0)) []);
      try reflexivity; discriminate.
Defined.

(** X16.  [checkImageAvailability] of the storage facade reads a null or
    zero total supply as 0 where the handlers read 10: for a published
    artifact whose total supply is not set it answers that nothing is
    left, while a purchase made in the same state succeeds. *)
Theorem storage_availability_differs_when_supply_is_unset
        (id : string) (b : PurchaseBody) (shippingData : ShippingData) (draw : Z)
        (user : User) (w : World) (image : GeneratedImage) (rest : list GeneratedImage) :
  faults w = [] ->
  pending w = [] ->
  missing ("generated-image:" +:+ id) w ->
  selectImages id (store w) = image :: rest ->
  img_isPublic image = true ->
  img_supplyType image <> Some "unlimited" ->
  img_totalSupply image = None \/ img_totalSupply image = Some 0 ->
  0 <= or_default (img_soldCount image) 0 < 10 ->
  req_imageId b = id ->
  id <> "" ->
  req_shippingData b = Some shippingData ->
  missingField shippingData = None ->
  (uniqueEditions (store w) = true ->
   existsb (sameEdition id (or_default (img_soldCount image) 0 + 1))
           (posterPurchases (store w)) = false) ->
  fst (checkImageAvailability id w) = Ok (mkAvailability false 0)
  /\ status (fst (purchasePoster b draw user w)) = 200
  /\ editionOf (fst (purchasePoster b draw user w))
     = Some (or_default (img_soldCount image) 0 + 1).
Proof.
  intros Hf Hp Hm Hsel Hpub Hty Htot Hs Hb Hid Hship Hmiss Hu. subst id. split.
  - unfold checkImageAvailability, tryCatch.
    pose proof (getGeneratedImageById_fresh (req_imageId b) w Hf Hm) as Hg.
    rewrite Hsel in Hg. cbn [head] in Hg.
    destruct (getGeneratedImageById (req_imageId b) w) as [g wg] eqn:Eg.
    cbn [fst] in Hg. subst g. rewrite (bind_ok _ _ _ _ _ Eg).
    assert (Hun : match img_supplyType image with
                  | Some t => String.eqb t "unlimited"
                  | None => false
                  end = false).
    { destruct (img_supplyType image) as [t|]; [|reflexivity].
      apply String.eqb_neq. congruence. }
    rewrite Hun.
    assert (Hz : or_default (img_totalSupply image) 0 = 0)
      by (destruct Htot as [-> | ->]; reflexivity).
    rewrite Hz. cbn [mret M_ret fst]. f_equal. f_equal.
    + apply Z.ltb_ge. lia.
    + lia.
  - pose proof (purchasePoster_answered b shippingData draw user w image rest [] _
                  Hship Hid Hmiss (or_introl (conj Hf eq_refl)) (List.Forall_nil _)
                  ltac:(simpl; lia) Hp Hsel Hpub eq_refl Hu) as H.
    cbv zeta in H. destruct H as [_ H].
    assert (Ht : or_default (img_totalSupply image) 10 = 10)
      by (destruct Htot as [-> | ->]; reflexivity).
    rewrite Ht in H.
    replace (10 <=? or_default (img_soldCount image) 0) with false in H
      by (symmetry; apply Z.leb_gt; lia).
    destruct H as (Hr & _). rewrite Hr. split; reflexivity.
Qed.

Lemma storage_availability_differs_when_supply_is_unset_witness :
  let w := worldOf (shopOf [poster "p1" true None (Some 3)] true) [] in
  fst (checkImageAvailability "p1" w) = Ok (mkAvailability false 0)
  /\ status (fst (purchasePoster buyerOrder 123456 buyer w)) = 200
  /\ editionOf (fst (purchasePoster buyerOrder 123456 buyer w)) = Some 4.
Proof.
  apply (storage_availability_differs_when_supply_is_unset
           "p1" buyerOrder toBuyer 123456 buyer
           (worldOf (shopOf [poster "p1" true None (Some 3)] true) [])
           (poster "p1" true None (Some 3)) []);
    try reflexivity; try discriminate.
  - now left.
  - simpl. lia.
Defined.

(** ** The publish handler, further *)

Lemma users_after_publish id u user isPublic image now d :
  users (applyAll (UpdateImage id u :: counterStatements user isPublic image now) d)
  = match counterStatements user isPublic image now with
    | [] => users d
    | _ => updateWhere (fun r => String.eqb (usr_email r) (usr_email user))
                       (setPostersForSale (counterChange user isPublic image now)) (users d)
    end.
Proof.
  unfold counterStatements, counterChange. cbn [applyAll execute].
  destruct (negb (isSubscribed user now)); [|reflexivity].
  destruct (isPublic && negb (img_isPublic image)); [reflexivity|].
  destruct (negb isPublic && img_isPublic image); reflexivity.
Qed.

Lemma images_after_publish id u user isPublic image now d :
  generatedImages (applyAll (UpdateImage id u :: counterStatements user isPublic image now) d)
  = updateWhere (fun i => String.eqb (img_id i) id) (applyImageUpdate u) (generatedImages d).
Proof. now destruct (applyAll_publish id u user isPublic image now d). Qed.

Lemma map_updateWhere {A B} (f : A -> B) p g l :
  (forall r, f (g r) = f r) -> map f (updateWhere p g l) = map f l.
Proof.
  intros H. induction l as [|a l IH]; [reflexivity|]. cbn [updateWhere map].
  fold (updateWhere p g l). rewrite IH. now destruct (p a); rewrite ?H.
Qed.

(** C6, the failing run in general.  The handler's comment says that
    changes of supply and price are prevented once an artifact has
    purchases, but its guard tests [image.isPublic] first: an artifact
    that has sales and is not published at the moment passes it.  When the
    owner publishes such an artifact again with a valid total supply and a
    valid price, the store answering and the quota allowing it, the call
    is answered with success, not with the invalid-supply-change error,
    and the row takes the supply and the price of the request, whatever
    they were before and however many were sold. *)
Theorem republished_artifact_with_sales_takes_new_supply_and_price
        (decoded id : string) (b : PublicBody) (w : World)
        (user : User) (urest : list User)
        (image : GeneratedImage) (irest : list GeneratedImage)
        (n supply : Z) (price : Q) :
  faults w = [] ->
  pending w = [] ->
  selectUsers decoded (store w) = user :: urest ->
  selectImages id (store w) = image :: irest ->
  img_userId image = usr_email user ->
  img_isPublic image = false ->
  img_soldCount image = Some n ->
  0 < n ->
  req_isPublic b = Some true ->
  req_totalSupply b = Given supply ->
  supplyInvalid (Given supply) = false ->
  req_pricePerUnit b = Given price ->
  priceInvalid (Given price) = false ->
  isSubscribed user (clock w) = true \/ usr_postersForSale user < 2 ->
  let r := fst (requireAuthentication (Decoded decoded) (patchImagePublic id b) w) in
  let w' := snd (requireAuthentication (Decoded decoded) (patchImagePublic id b) w) in
  r = json BodySuccess
  /\ r <> InvalidSupplyChange
  /\ exists image' rest',
      selectImages id (store w') = image' :: rest'
      /\ img_isPublic image' = true
      /\ img_soldCount image' = Some n
      /\ img_totalSupply image' = Some supply
      /\ img_pricePerUnit image' = Some price.
Proof.
  intros Hf Hp Hu Hi Ho Hunp Hsold Hn Hpub Hts Hvs Hpp Hvp Hquota r w'. subst r w'.
  assert (Hok : fst (requireAuthentication (Decoded decoded) (patchImagePublic id b) w)
                = json BodySuccess).
  { apply (setPublished_served decoded id b w user urest image irest true);
      try assumption.
    - now rewrite Hts.
    - now rewrite Hpp.
    - destruct Hquota as [Hsub|Hc]; [now rewrite Hsub|].
      rewrite (counter_under_quota _ Hc). now rewrite andb_false_r.
    - unfold hasSales. now rewrite Hunp. }
  split; [exact Hok|]. split; [rewrite Hok; discriminate|].
  destruct (setPublished_outcome decoded id b w Hp) as (_ & _ & H).
  destruct H as [(Hno & _) | (user' & urest' & image' & irest' & isPublic & _ & _ & Hi'
                              & _ & Hpub' & _ & _ & Hst & _)].
  { rewrite Hok in Hno. now contradict Hno. }
  rewrite Hi in Hi'. injection Hi' as <- <-.
  rewrite Hpub in Hpub'. injection Hpub' as <-.
  unfold selectImages in *. rewrite Hst, images_after_publish.
  rewrite filter_images_after_update by reflexivity. rewrite Hi. cbn [map].
  do 2 eexists. split; [reflexivity|].
  cbn [applyImageUpdate updateDataOf img_isPublic img_soldCount img_totalSupply
       img_pricePerUnit set_isPublic set_soldCount set_totalSupply set_pricePerUnit assign].
  rewrite Hts, Hpp. cbn [toSet assign]. auto.
Qed.

Lemma republished_artifact_with_sales_takes_new_supply_and_price_witness :
  let w := worldOf (shopOf [poster "p1" false (Some 5) (Some 3)] true) [] in
  let r := fst (requireAuthentication (Decoded "seller@example.com")
                  (patchImagePublic "p1" (publishBody 2 (50 # 1))) w) in
  let w' := snd (requireAuthentication (Decoded "seller@example.com")
                   (patchImagePublic "p1" (publishBody 2 (50 # 1))) w) in
  r = json BodySuccess
  /\ r <> InvalidSupplyChange
  /\ exists image' rest',
      selectImages "p1" (store w') = image' :: rest'
      /\ img_isPublic image' = true
      /\ img_soldCount image' = Some 3
      /\ img_totalSupply image' = Some 2
      /\ img_pricePerUnit image' = Some (50 # 1).
Proof.
  apply (republished_artifact_with_sales_takes_new_supply_and_price
           "seller@example.com" "p1" (publishBody 2 (50 # 1))
           (worldOf (shopOf [poster "p1" false (Some 5) (Some 3)] true) [])
           seller [] (poster "p1" false (Some 5) (Some 3)) [] 3 2 (50 # 1));
    try reflexivity.
  right. vm_compute. reflexivity.
Defined.

(** X17.  Only the owner's call changes an artifact: an authenticated call
    of the publish handler for an artifact whose owner is someone else is
    never answered with success and changes no row and no cache entry,
    whatever its body and whatever round trips the store refuses. *)
Theorem only_the_owner_changes_an_artifact
        (decoded id : string) (b : PublicBody) (w : World)
        (image : GeneratedImage) (rest : list GeneratedImage) :
  pending w = [] ->
  selectImages id (store w) = image :: rest ->
  img_userId image <> decoded ->
  let r := fst (requireAuthentication (Decoded decoded) (patchImagePublic id b) w) in
  let w' := snd (requireAuthentication (Decoded decoded) (patchImagePublic id b) w) in
  status r <> 200 /\ store w' = store w /\ queryCache w' = queryCache w /\ pending w' = [].
Proof.
  intros Hp Hsel Hother r w'. subst r w'.
  destruct (setPublished_outcome decoded id b w Hp) as (Hp' & _ & H).
  destruct H as [(H1 & H2 & H3) | (user & urest & image' & irest & isPublic & _ & Hu & Hi
                                   & Ho & _)].
  - auto.
  - exfalso. apply Hother. rewrite Hsel in Hi. injection Hi as <- _.
    rewrite Ho. exact (selectUsers_email _ _ _ _ Hu).
Qed.

Lemma only_the_owner_changes_an_artifact_witness :
  let w := worldOf (shopOf [poster "p1" false None None] true) [] in
  let r := fst (requireAuthentication (Decoded "rival@example.com")
                  (patchImagePublic "p1" (publishBody 5 (40 # 1))) w) in
  let w' := snd (requireAuthentication (Decoded "rival@example.com")
                   (patchImagePublic "p1" (publishBody 5 (40 # 1))) w) in
  status r <> 200 /\ store w' = store w /\ queryCache w' = queryCache w /\ pending w' = [].
Proof.
  apply (only_the_owner_changes_an_artifact
           "rival@example.com" "p1" (publishBody 5 (40 # 1))
           (worldOf (shopOf [poster "p1" false None None] true) [])
           (poster "p1" false None None) []);
    [reflexivity | reflexivity | discriminate].
Defined.

(** X18.  What the publish handler leaves alone.  No call changes a sold
    count, an owner or an id.  A call that unpublishes changes no total
    supply and no price either.  A call that asks for the state the
    artifact is already in leaves every user row, the counter included, as
    it was. *)
Theorem publish_handler_leaves_sales_figures
        (decoded id : string) (b : PublicBody) (w : World) :
  pending w = [] ->
  let w' := snd (requireAuthentication (Decoded decoded) (patchImagePublic id b) w) in
  map img_soldCount (generatedImages (store w'))
  = map img_soldCount (generatedImages (store w))
  /\ map img_userId (generatedImages (store w')) = map img_userId (generatedImages (store w))
  /\ map img_id (generatedImages (store w')) = map img_id (generatedImages (store w))
  /\ posterPurchases (store w') = posterPurchases (store w)
  /\ (req_isPublic b = Some false ->
      map img_totalSupply (generatedImages (store w'))
      = map img_totalSupply (generatedImages (store w))
      /\ map img_pricePerUnit (generatedImages (store w'))
         = map img_pricePerUnit (generatedImages (store w)))
  /\ (forall image rest,
        selectImages id (store w) = image :: rest ->
        req_isPublic b = Some (img_isPublic image) ->
        users (store w') = users (store w)).
Proof.
  intros Hp w'. subst w'.
  destruct (setPublished_outcome decoded id b w Hp) as (_ & _ & H).
  destruct H as [(_ & -> & _) | (user & urest & image & irest & isPublic & _ & Hu & Hi
                                 & Ho & Hpub & _ & _ & Hst & _)].
  - repeat split; auto.
  - rewrite Hst, images_after_publish, users_after_publish.
    rewrite !map_updateWhere by reflexivity.
    split; [reflexivity|]. split; [reflexivity|]. split; [reflexivity|]. split.
    { unfold counterStatements. cbn [applyAll execute].
      destruct (negb (isSubscribed user _)); [|reflexivity].
      destruct (isPublic && negb (img_isPublic image)); [reflexivity|].
      destruct (negb isPublic && img_isPublic image); reflexivity. }
    split.
    + intros Hf. rewrite Hf in Hpub. injection Hpub as <-.
      rewrite !map_updateWhere by reflexivity. split; reflexivity.
    + intros image' rest Hsel Hsame. rewrite Hsel in Hi. injection Hi as -> _.
      rewrite Hsame in Hpub. injection Hpub as <-.
      unfold counterStatements.
      destruct (negb (isSubscribed user _)); [|reflexivity].
      now destruct (img_isPublic image).
Qed.

Lemma publish_handler_leaves_sales_figures_witness :
  let w := worldOf (quotaShop 1 [poster "p1" true (Some 5) (Some 2)]) [] in
  let w' := snd (requireAuthentication (Decoded "seller@example.com")
                   (patchImagePublic "p1" unpublishBody) w) in
  map img_soldCount (generatedImages (store w')) = [Some 2]
  /\ map img_userId (generatedImages (store w')) = ["seller@example.com"]
  /\ map img_id (generatedImages (store w')) = ["p1"]
  /\ posterPurchases (store w') = []
  /\ map img_totalSupply (generatedImages (store w')) = [Some 5]
  /\ map img_pricePerUnit (generatedImages (store w')) = [Some (40 # 1)].
Proof.
  destruct (publish_handler_leaves_sales_figures
              "seller@example.com" "p1" unpublishBody
              (worldOf (quotaShop 1 [poster "p1" true (Some 5) (Some 2)]) []) eq_refl)
    as (H1 & H2 & H3 & H4 & H5 & _).
  destruct (H5 eq_refl) as [H6 H7].
  repeat split; assumption.
Defined.






(** ** The cached user row *)

(** A statement under the executor, whatever the store refuses: it takes
    effect once when the executor returns and not at all when it throws. *)
Lemma retryLoop_db_execute s k :
  forall attempt last w,
    let r := fst (retryLoop (db_execute s) k attempt last w) in
    let w1 := snd (retryLoop (db_execute s) k attempt last w) in
    pending w1 = pending w
    /\ queryCache w1 = queryCache w
    /\ match r with
       | Ok _ => execute s (store w) = Ok (store w1)
       | Throw _ => store w1 = store w
       end.
Proof.
  induction k as [|k IH]; intros attempt last w; [cbn; auto|].
  cbn [retryLoop]. unfold tryCatch.
  destruct (db_execute_frame s w) as [f [(Hx & (d & Hd) & _)|[t Hx]]]; rewrite Hx.
  - rewrite Hd. cbn. auto.
  - destruct t as [e|]; [|cbn; auto].
    destruct (negb (isConnectionError e)); [cbn; auto|].
    unfold mbind, M_bind. cbn [setTimeout modify].
    specialize (IH (attempt + 1) (ThrownError e)
                   (withClock (withSleeps (withFaults w f) (sleeps (withFaults w f)
                                                              ++ [100 * 2 ^ attempt]))
                              (clock (withFaults w f) + 100 * 2 ^ attempt))).
    exact IH.
Qed.

(** What [updateUserSubscriptionStatus] leaves: nothing, or the update of
    the rows of that e-mail with the cached row dropped. *)
Lemma updateUserSubscriptionStatus_outcome email u w :
  let w' := snd (updateUserSubscriptionStatus email u w) in
  pending w' = pending w
  /\ ((store w' = store w /\ queryCache w' = queryCache w)
      \/ (users (store w')
          = updateWhere (fun r => String.eqb (usr_email r) email) (applyUserUpdate u)
                        (users (store w))
          /\ queryCache w' = invalidated ("user:" +:+ email) (queryCache w))).
Proof.
  cbv zeta. unfold updateUserSubscriptionStatus, tryCatch, executeWithRetry.
  pose proof (retryLoop_db_execute (UpdateUser email u) (Z.to_nat defaultRetries) 1
                ThrownUndefined w) as H.
  cbv zeta in H. destruct H as (Hp & Hc & Hs).
  destruct (retryLoop (db_execute (UpdateUser email u)) (Z.to_nat defaultRetries) 1
              ThrownUndefined w) as [[[]|t] w1] eqn:E; cbn [fst snd] in *.
  - rewrite (bind_ok _ _ _ _ _ E), bind_gets, (bind_ok _ _ _ _ _ (invalidateCache_eq _ _)).
    cbn [mret M_ret snd pending store queryCache withCache].
    split; [exact Hp|]. right. rewrite Hc. split; [|reflexivity].
    cbn [execute] in Hs. injection Hs as <-. reflexivity.
  - rewrite (bind_throw _ _ _ _ _ E). cbn. auto.
Qed.

Lemma coherent_after_update email other g w w' :
  (forall r, usr_email (g r) = usr_email r) ->
  includes other "*" = false ->
  users (store w')
  = updateWhere (fun r => String.eqb (usr_email r) other) g (users (store w)) ->
  queryCache w' = invalidated ("user:" +:+ other) (queryCache w) ->
  userCacheCoherent email w ->
  userCacheCoherent email w'.
Proof.
  intros Hg Hstar Hu Hc Hco v t. rewrite Hc, invalidated_key
    by (now rewrite includes_user_key).
  destruct (String.eqb_spec other email) as [->|Hne].
  - now rewrite lookup_delete_eq.
  - rewrite lookup_delete_ne by (intros E; apply Hne; now apply user_key_inj).
    intros Hl. rewrite (Hco v t Hl). unfold selectUsers.
    rewrite Hu, filter_users_after_update by exact Hg.
    now destruct (String.eqb_spec other email).
Qed.

Lemma coherent_same email w w' :
  users (store w') = users (store w) ->
  queryCache w' = queryCache w ->
  userCacheCoherent email w ->
  userCacheCoherent email w'.
Proof.
  intros Hu Hc Hco v t. rewrite Hc. unfold selectUsers. rewrite Hu. apply Hco.
Qed.

Lemma quotaStep_keeps_coherence email e w :
  pending w = [] ->
  includes (eventEmail e) "*" = false ->
  userCacheCoherent email w ->
  pending (quotaStep e w) = [] /\ userCacheCoherent email (quotaStep e w).
Proof.
  intros Hp Hstar Hco. destruct e as [decoded id b | other u | ms]; cbn [quotaStep eventEmail] in *.
  - destruct (setPublished_outcome decoded id b w Hp) as (Hp' & _ & H).
    split; [exact Hp'|].
    destruct H as [(_ & Hs & Hc) | (user & urest & image & irest & isPublic & _ & Hu & _
                                    & _ & _ & _ & _ & Hst & Hc & _)].
    + apply (coherent_same email w); [now rewrite Hs|exact Hc|exact Hco].
    + pose proof (selectUsers_email _ _ _ _ Hu) as He. rewrite He in Hc.
      set (w' := snd (requireAuthentication (Decoded decoded) (patchImagePublic id b) w)) in *.
      pose proof (users_after_publish id (updateDataOf isPublic b) user isPublic image
                    (clock w') (store w)) as Husr.
      rewrite <- Hst, He in Husr.
      destruct (counterStatements user isPublic image (clock w')).
      * now apply (coherent_same email w).
      * now apply (coherent_after_update email decoded
                     (setPostersForSale (counterChange user isPublic image (clock w'))) w).
  - destruct (updateUserSubscriptionStatus_outcome other u w) as (Hp' & H).
    split; [now rewrite Hp'|].
    destruct H as [[Hs Hc]|[Hu Hc]].
    + apply (coherent_same email w); [now rewrite Hs|exact Hc|exact Hco].
    + now apply (coherent_after_update email other (applyUserUpdate u) w).
  - split; [exact Hp|]. now apply (coherent_same email w).
Qed.

(** The cached lookup of a user when the cache is coherent and the store
    answers: the first stored row of that e-mail, in no time. *)
Lemma getUserByEmail_coherent email w :
  faults w = [] ->
  userCacheCoherent email w ->
  fst (getUserByEmail email w) = Ok (head (selectUsers email (store w)))
  /\ clock (snd (getUserByEmail email w)) = clock w.
Proof.
  intros Hf Hco. unfold getUserByEmail, tryCatch.
  assert (Hmiss : missing ("user:" +:+ email) w ->
                  cachedQuery ("user:" +:+ email) (userByEmailQuery email) 300 w
                  = (Ok (firstUser (selectUsers email (store w))),
                     snd (cache_set ("user:" +:+ email)
                            (firstUser (selectUsers email (store w))) 300
                            (snd (cache_get ("user:" +:+ email) w))))).
  { intros Hm. apply cachedQuery_miss; [exact Hm|].
    destruct (cache_get_frame ("user:" +:+ email) w) as (Hst & Hfa & _).
    set (wg := snd (cache_get ("user:" +:+ email) w)) in *.
    apply executeWithRetry_ok. unfold userByEmailQuery.
    assert (Hs : executeWithRetry (db_selectUsers email) defaultRetries wg
                 = (Ok (selectUsers email (store wg)), wg)).
    { apply executeWithRetry_ok. unfold db_selectUsers.
      now rewrite (bind_ok _ _ _ _ _ (roundTrip_quiet wg ltac:(now rewrite Hfa))). }
    rewrite (bind_ok _ _ _ _ _ Hs), Hst. reflexivity. }
  assert (Hdone : missing ("user:" +:+ email) w ->
                  fst ((cachedQuery ("user:" +:+ email) (userByEmailQuery email) 300
                          ≫= fun v => mret (asUser v)) w)
                  = Ok (head (selectUsers email (store w)))
                  /\ clock (snd ((cachedQuery ("user:" +:+ email) (userByEmailQuery email) 300
                                    ≫= fun v => mret (asUser v)) w)) = clock w).
  { intros Hm. rewrite (bind_ok _ _ _ _ _ (Hmiss Hm)).
    cbn [mret M_ret fst snd cache_set modify clock withCache].
    rewrite asUser_firstUser. split; [reflexivity|].
    now destruct (cache_get_frame ("user:" +:+ email) w) as (_ & _ & _ & ->). }
  unfold mbind in Hdone.
  destruct (queryCache w !! ("user:" +:+ email)) as [[v t]|] eqn:El.
  2:{ destruct (Hdone ltac:(unfold missing; now rewrite El)) as [H1 H2].
      unfold mbind. destruct (M_bind _ _ _ _ w) as [[r|?] w']; cbn [fst snd] in *;
        [|discriminate]. now rewrite H1. }
  destruct (negb (t =? 0) && (t <? clock w)) eqn:Ex.
  { apply andb_true_iff in Ex. destruct Ex as [E0 Elt].
    apply negb_true_iff, Z.eqb_neq in E0. apply Z.ltb_lt in Elt.
    destruct (Hdone ltac:(unfold missing; rewrite El; now split)) as [H1 H2].
    unfold mbind. destruct (M_bind _ _ _ _ w) as [[r|?] w']; cbn [fst snd] in *;
      [|discriminate]. now rewrite H1. }
  assert (Hlive : t = 0 \/ clock w <= t).
  { apply andb_false_iff in Ex. destruct Ex as [E0|Elt].
    - left. now apply negb_false_iff, Z.eqb_eq in E0.
    - right. now apply Z.ltb_ge in Elt. }
  rewrite (bind_ok _ _ _ _ _ (cachedQuery_hit _ (userByEmailQuery email) 300 w v t El Hlive)).
  rewrite (Hco v t El). cbn [mret M_ret fst snd]. split; [|reflexivity].
  now destruct (selectUsers email (store w)).
Qed.

(** An operation that only reads, under the executor: rows, cache and
    open statements are as before, and what it returns is what a single
    read of the rows gives. *)
Lemma retryLoop_reads {T} (queryFn : M T) (f : Database -> T) :
  (forall w,
      store (snd (queryFn w)) = store w
      /\ queryCache (snd (queryFn w)) = queryCache w
      /\ pending (snd (queryFn w)) = pending w
      /\ forall v, fst (queryFn w) = Ok v -> v = f (store w)) ->
  forall k attempt last w,
    store (snd (retryLoop queryFn k attempt last w)) = store w
    /\ queryCache (snd (retryLoop queryFn k attempt last w)) = queryCache w
    /\ pending (snd (retryLoop queryFn k attempt last w)) = pending w
    /\ forall v, fst (retryLoop queryFn k attempt last w) = Ok v -> v = f (store w).
Proof.
  intros Hq. induction k as [|k IH]; intros attempt last w.
  - cbn. repeat split; auto; discriminate.
  - cbn [retryLoop]. unfold tryCatch. destruct (Hq w) as (H1 & H2 & H3 & H4).
    destruct (queryFn w) as [[v|[e|]] w1]; cbn [fst snd] in *.
    + repeat split; auto.
    + destruct (negb (isConnectionError e)).
      * cbn. repeat split; auto; discriminate.
      * unfold mbind, M_bind. cbn [setTimeout modify].
        destruct (IH (attempt + 1) (ThrownError e)
                     (withClock (withSleeps w1 (sleeps w1 ++ [100 * 2 ^ attempt]))
                                (clock w1 + 100 * 2 ^ attempt))) as (I1 & I2 & I3 & I4).
        cbn [store queryCache pending withClock withSleeps] in *.
        rewrite I1, I2, I3, H1, H2, H3. repeat split; auto.
        intros v Hv. rewrite <- H1. now apply I4.
    + cbn. repeat split; auto; discriminate.
Qed.

Lemma userByEmailQuery_reads email k attempt last w :
  store (snd (retryLoop (userByEmailQuery email) k attempt last w)) = store w
  /\ queryCache (snd (retryLoop (userByEmailQuery email) k attempt last w)) = queryCache w
  /\ pending (snd (retryLoop (userByEmailQuery email) k attempt last w)) = pending w
  /\ forall v, fst (retryLoop (userByEmailQuery email) k attempt last w) = Ok v ->
               v = firstUser (selectUsers email (store w)).
Proof.
  apply (retryLoop_reads (userByEmailQuery email)
           (fun d => firstUser (selectUsers email d))).
  clear. intros w. unfold userByEmailQuery, executeWithRetry.
  destruct (retryLoop_reads (db_selectUsers email) (selectUsers email)) with
    (k := Z.to_nat defaultRetries) (attempt := 1) (last := ThrownUndefined) (w := w)
    as (H1 & H2 & H3 & H4).
  { clear. intros w. unfold db_selectUsers, gets, mbind, M_bind.
    destruct (roundTrip_frame w) as (f & Hw & _).
    destruct (roundTrip w) as [[[]|t] w1]; cbn [snd] in Hw; subst w1; cbn.
    - repeat split; auto. now intros v [= <-].
    - repeat split; auto; discriminate. }
  unfold mbind, M_bind.
  destruct (retryLoop (db_selectUsers email) (Z.to_nat defaultRetries) 1 ThrownUndefined w)
    as [[l|t] w1]; cbn [fst snd mret M_ret] in *.
  - repeat split; auto. intros v [= <-]. now rewrite (H4 l eq_refl).
  - repeat split; auto; discriminate.
Qed.

(** A read of the statistics changes no row and stores at most the row
    it has just read. *)
Lemma userPosterStats_keeps_coherence email reader w :
  userCacheCoherent email w ->
  pending (snd (userPosterStats reader w)) = pending w
  /\ store (snd (userPosterStats reader w)) = store w
  /\ userCacheCoherent email (snd (userPosterStats reader w)).
Proof.
  intros Hco. unfold userPosterStats.
  destruct (String.eqb reader ""); [now repeat split|].
  assert (Hget : pending (snd (getUserByEmail reader w)) = pending w
                 /\ store (snd (getUserByEmail reader w)) = store w
                 /\ userCacheCoherent email (snd (getUserByEmail reader w))).
  { unfold getUserByEmail, tryCatch.
    assert (Hcq : pending (snd (cachedQuery ("user:" +:+ reader) (userByEmailQuery reader)
                                  300 w)) = pending w
                  /\ store (snd (cachedQuery ("user:" +:+ reader) (userByEmailQuery reader)
                                   300 w)) = store w
                  /\ userCacheCoherent email
                       (snd (cachedQuery ("user:" +:+ reader) (userByEmailQuery reader)
                               300 w))).
    { unfold cachedQuery.
      assert (Hg : pending (snd (cache_get ("user:" +:+ reader) w)) = pending w
                   /\ store (snd (cache_get ("user:" +:+ reader) w)) = store w
                   /\ userCacheCoherent email (snd (cache_get ("user:" +:+ reader) w))).
      { unfold cache_get. destruct (queryCache w !! ("user:" +:+ reader)) as [[v t]|];
          [|auto].
        destruct (negb (t =? 0) && (t <? clock w)); [|auto].
        cbn [snd pending store withCache]. repeat split; auto.
        intros v' t'. cbn [queryCache withCache store].
        destruct (String.eqb_spec ("user:" +:+ reader) ("user:" +:+ email)) as [->|Hne].
        - now rewrite lookup_delete_eq.
        - rewrite lookup_delete_ne by exact Hne. apply Hco. }
      destruct (cache_get ("user:" +:+ reader) w) as [[g|t] wg] eqn:Eg;
        cbn [snd] in Hg; destruct Hg as (Hg1 & Hg2 & Hg3).
      2:{ rewrite (bind_throw _ _ _ _ _ Eg). now repeat split. }
      rewrite (bind_ok _ _ _ _ _ Eg).
      destruct g; try (cbn; now repeat split).
      unfold executeWithRetry.
      destruct (userByEmailQuery_reads reader (Z.to_nat defaultRetries) 1 ThrownUndefined wg)
        as (H1 & H2 & H3 & H4).
      destruct (retryLoop (userByEmailQuery reader) (Z.to_nat defaultRetries) 1
                  ThrownUndefined wg) as [[v|t] w1] eqn:Er; cbn [fst snd] in *.
      - rewrite (bind_ok _ _ _ _ _ Er).
        unfold mbind, M_bind, cache_set, modify, mret, M_ret.
        cbn [snd pending store withCache]. split; [congruence|]. split; [congruence|].
        intros v' t'. cbn [queryCache withCache store].
        destruct (String.eqb_spec ("user:" +:+ reader) ("user:" +:+ email)) as [E|Hne].
        + rewrite E, lookup_insert_eq. intros [= <- _].
          apply user_key_inj in E. subst reader. rewrite H1. apply H4.
          reflexivity.
        + rewrite lookup_insert_ne by exact Hne. rewrite H2, H1. apply Hg3.
      - rewrite (bind_throw _ _ _ _ _ Er). cbn [snd].
        split; [congruence|]. split; [congruence|].
        intros v' t'. rewrite H2, H1. apply Hg3. }
    destruct (cachedQuery ("user:" +:+ reader) (userByEmailQuery reader) 300 w)
      as [[v|t] w1] eqn:Ec; cbn [snd] in Hcq.
    - rewrite (bind_ok _ _ _ _ _ Ec). exact Hcq.
    - rewrite (bind_throw _ _ _ _ _ Ec). exact Hcq. }
  destruct (getUserByEmail reader w) as [[[user|]|t] w1]; exact Hget.
Qed.

(** X20.  The seller statistics of [GET /api/user-poster-stats] are read
    through the cached user row of [getUserByEmail].  Every write of the
    counter by the publish handler and every change of subscription by
    [updateUserSubscriptionStatus] drops that row from the cache, also
    when round trips are refused in between, and a read stores only what
    it has just read.  So when such calls and reads run one at a time,
    each to its end before the next begins, whatever lies in the cache
    under the key of the seller is what a lookup of the stored rows gives
    (the first row, or [undefined] when there is none), and the route,
    when the store answers, reports the stored counter and with it whether
    the publish handler would let the seller publish.  Calls that overlap
    are not covered: [cachedQuery] awaits its producer between its [get]
    and its [set]. *)
Theorem seller_statistics_follow_the_counter
        (email : string) (es : list SellerEvent) (w : World) :
  pending w = [] ->
  plainAddresses es ->
  userCacheCoherent email w ->
  let w' := sellerRun es w in
  userCacheCoherent email w'
  /\ (email <> "" ->
      faults w' = [] ->
      fst (userPosterStats email w')
      = match selectUsers email (store w') with
        | [] => Refused 404 "User not found"
        | user :: _ =>
            Payload (mkPosterStats
                       (usr_postersForSale user)
                       (isSubscribed user (clock w'))
                       (isSubscribed user (clock w')
                        || negb (2 <=? or_default (Some (usr_postersForSale user)) 0)))
        end).
Proof.
  intros Hp Hes Hco w'. subst w'.
  assert (Hrun : pending (sellerRun es w) = []
                 /\ userCacheCoherent email (sellerRun es w)).
  { revert w Hp Hco. induction es as [|e es IH]; intros w Hp Hco; [now split|].
    inversion Hes as [|? ? He Hes']; subst. unfold sellerRun. cbn [fold_left].
    destruct e as [e|reader]; cbn [sellerStep].
    - destruct (quotaStep_keeps_coherence email e w Hp He Hco) as [Hp' Hco'].
      now apply IH.
    - destruct (userPosterStats_keeps_coherence email reader w Hco) as (Hp' & _ & Hco').
      apply IH; [exact Hes'|now rewrite Hp'|exact Hco']. }
  destruct Hrun as [_ Hco']. split; [exact Hco'|].
  intros Hne Hf. unfold userPosterStats.
  destruct (String.eqb_spec email "") as [E|_]; [contradiction|].
  destruct (getUserByEmail_coherent email (sellerRun es w) Hf Hco') as [Hg Hc].
  destruct (getUserByEmail email (sellerRun es w)) as [g wg]. cbn [fst snd] in Hg, Hc.
  subst g. destruct (selectUsers email (store (sellerRun es w))) as [|user rest];
    [reflexivity|].
  cbn [head fst]. rewrite Hc. unfold statsOf.
  replace (or_default (Some (usr_postersForSale user)) 0) with (usr_postersForSale user)
    by (unfold or_default; now destruct (Z.eqb_spec (usr_postersForSale user) 0)).
  now rewrite Z.ltb_antisym.
Qed.

Lemma seller_statistics_follow_the_counter_witness :
  let w' := sellerRun statisticsScenario (worldOf (quotaShop 0 drafts) []) in
  userCacheCoherent "seller@example.com" w'
  /\ fst (userPosterStats "seller@example.com" w')
     = Payload (mkPosterStats 2 false false).
Proof.
  destruct (seller_statistics_follow_the_counter
              "seller@example.com" statisticsScenario (worldOf (quotaShop 0 drafts) []))
    as [H1 H2].
  - reflexivity.
  - repeat constructor.
  - intros v t H. discriminate H.
  - split; [exact H1|]. apply H2; [discriminate|reflexivity].
Defined.


(** X21.  An artifact that the publish handler has put on sale has a
    total supply between 1 and 1000, a price of at least 29.95, flat
    pricing, and is public: a publish call that succeeds leaves every row
    with that id so, and there is such a row. *)
Theorem published_artifact_has_a_valid_edition
        (decoded id : string) (b : PublicBody) (w : World) :
  pending w = [] ->
  req_isPublic b = Some true ->
  status (fst (requireAuthentication (Decoded decoded) (patchImagePublic id b) w)) = 200 ->
  let w' := snd (requireAuthentication (Decoded decoded) (patchImagePublic id b) w) in
  selectImages id (store w') <> []
  /\ Forall (fun i =>
              img_isPublic i = true
              /\ img_editionPricingType i = Some "flat"
              /\ (exists n, img_totalSupply i = Some n /\ 1 <= n <= 1000)
              /\ (exists p, img_pricePerUnit i = Some p /\ Qle priceFloor p))
            (selectImages id (store w')).
Proof.
  intros Hp Hpub H200 w'. subst w'.
  destruct (setPublished_outcome decoded id b w Hp) as (_ & _ & H).
  destruct H as [(Hne & _) | (user & urest & image & irest & isPublic & _ & Hu & Hi
                              & Ho & Hpub' & _ & _ & Hst & _ & Hvs & Hvp & _)];
    [contradiction|].
  rewrite Hpub in Hpub'. injection Hpub' as <-. cbn [andb] in Hvs, Hvp.
  unfold selectImages in *. rewrite Hst, images_after_publish.
  rewrite filter_images_after_update by reflexivity.
  rewrite Hi. split; [discriminate|].
  destruct (req_totalSupply b) as [| |n] eqn:En; try discriminate Hvs.
  destruct (req_pricePerUnit b) as [| |p] eqn:Eq; try discriminate Hvp.
  cbn [supplyInvalid priceInvalid] in Hvs, Hvp.
  apply orb_false_iff in Hvs. destruct Hvs as [Hvs H1000].
  apply orb_false_iff in Hvs. destruct Hvs as [_ H1].
  apply Z.ltb_ge in H1, H1000.
  apply orb_false_iff in Hvp. destruct Hvp as [_ Hfloor].
  apply negb_false_iff, Qle_bool_iff in Hfloor.
  apply List.Forall_forall. intros i Hin. apply in_map_iff in Hin.
  destruct Hin as (j & <- & Hj).
  cbn [applyImageUpdate updateDataOf img_isPublic img_editionPricingType
       img_totalSupply img_pricePerUnit set_isPublic set_editionPricingType
       set_totalSupply set_pricePerUnit assign].
  rewrite En, Eq. cbn [toSet assign].
  repeat split; eauto.
Qed.

Lemma published_artifact_has_a_valid_edition_witness :
  let w := worldOf (quotaShop 0 [poster "p1" false None None]) [] in
  let w' := snd (requireAuthentication (Decoded "seller@example.com")
                   (patchImagePublic "p1" (publishBody 5 (40 # 1))) w) in
  selectImages "p1" (store w') <> []
  /\ Forall (fun i =>
              img_isPublic i = true
              /\ img_editionPricingType i = Some "flat"
              /\ (exists n, img_totalSupply i = Some n /\ 1 <= n <= 1000)
              /\ (exists p, img_pricePerUnit i = Some p /\ Qle priceFloor p))
            (selectImages "p1" (store w')).
Proof.
  apply (published_artifact_has_a_valid_edition
           "seller@example.com" "p1" (publishBody 5 (40 # 1))
           (worldOf (quotaShop 0 [poster "p1" false None None]) []));
    reflexivity.
Defined.

(** X22.  When the statistics say that the seller cannot sell another
    poster, a publish call of that seller made next is never answered with
    success and changes no row: the route and the handler apply the same
    quota test to the same row. *)
Theorem statistics_predict_the_quota_refusal
        (email id : string) (b : PublicBody) (w : World) (stats : PosterStats) :
  email <> "" ->
  faults w = [] ->
  pending w = [] ->
  userCacheCoherent email w ->
  fst (userPosterStats email w) = Payload stats ->
  stat_canSellPoster stats = false ->
  req_isPublic b = Some true ->
  let w1 := snd (userPosterStats email w) in
  let r := fst (requireAuthentication (Decoded email) (patchImagePublic id b) w1) in
  let w2 := snd (requireAuthentication (Decoded email) (patchImagePublic id b) w1) in
  status r <> 200 /\ store w2 = store w /\ stat_postersForSale stats >= 2.
Proof.
  intros Hne Hf Hp Hco Hstats Hcan Hpub w1 r w2. subst r w2 w1.
  destruct (userPosterStats_keeps_coherence email email w Hco) as (Hp1 & Hs1 & _).
  rewrite Hp in Hp1.
  assert (Hw1 : clock (snd (userPosterStats email w)) = clock w
                /\ exists user rest,
                    selectUsers email (store w) = user :: rest
                    /\ stats = statsOf user (clock w)).
  { unfold userPosterStats in *.
    destruct (String.eqb_spec email "") as [E|_]; [contradiction|].
    destruct (getUserByEmail_coherent email w Hf Hco) as [Hg Hc].
    destruct (getUserByEmail email w) as [[[user|]|t] wg]; cbn [fst snd] in *;
      try discriminate.
    injection Hstats as <-. rewrite Hc. split; [reflexivity|].
    destruct (selectUsers email (store w)) as [|u rest]; [discriminate|].
    injection Hg as <-. now exists user, rest. }
  destruct Hw1 as (Hc1 & user & rest & Hu & ->).
  destruct (setPublished_outcome email id b (snd (userPosterStats email w)) Hp1)
    as (_ & _ & H).
  rewrite Hs1, Hc1 in H.
  unfold statsOf in Hcan. cbn [stat_canSellPoster] in Hcan.
  apply orb_false_iff in Hcan. destruct Hcan as [Hsub Hlt].
  assert (Hn : or_default (Some (usr_postersForSale user)) 0 = usr_postersForSale user)
    by (unfold or_default; now destruct (Z.eqb_spec (usr_postersForSale user) 0)).
  rewrite Hn in Hlt. apply Z.ltb_ge in Hlt.
  destruct H as [(H1 & H2 & _) | (user' & urest & image & irest & isPublic & _ & Hu' & _
                                  & _ & Hpub' & Hq & _)].
  - split; [exact H1|]. split; [exact H2|].
    unfold statsOf. cbn [stat_postersForSale]. rewrite Hn. lia.
  - exfalso. rewrite Hu in Hu'. injection Hu' as <- _.
    rewrite Hpub in Hpub'. injection Hpub' as <-.
    rewrite Hsub, Hn in Hq. cbn [andb negb] in Hq. apply Z.leb_gt in Hq. lia.
Qed.

Lemma statistics_predict_the_quota_refusal_witness :
  let w := worldOf (quotaShop 2 [poster "p3" false None None]) [] in
  let w1 := snd (userPosterStats "seller@example.com" w) in
  let r := fst (requireAuthentication (Decoded "seller@example.com")
                  (patchImagePublic "p3" (publishBody 5 (40 # 1))) w1) in
  let w2 := snd (requireAuthentication (Decoded "seller@example.com")
                   (patchImagePublic "p3" (publishBody 5 (40 # 1))) w1) in
  status r <> 200 /\ store w2 = store w
  /\ stat_postersForSale (mkPosterStats 2 false false) >= 2.
Proof.
  apply (statistics_predict_the_quota_refusal
           "seller@example.com" "p3" (publishBody 5 (40 # 1))
           (worldOf (quotaShop 2 [poster "p3" false None None]) [])
           (mkPosterStats 2 false false));
    try reflexivity; discriminate.
Defined.

(** ** The write circuit breaker, further *)



(** ** What the storage facade answers when the store refuses *)

Lemma executeWithRetry_refused {T} (queryFn : M T) w e rest :
  failsWithStore queryFn ->
  faults w = Some e :: rest ->
  isConnectionError e = false ->
  executeWithRetry queryFn defaultRetries w = (Throw (ThrownError e), withFaults w rest).
Proof.
  intros Hq Hf He. unfold executeWithRetry, defaultRetries.
  change (Z.to_nat 3) with (S 2). apply retryLoop_terminal; [|exact He]. now apply Hq.
Qed.

Lemma cachedQuery_refused key (queryFn : M Value) ttl w e w1 :
  missing key w ->
  queryFn (snd (cache_get key w)) = (Throw (ThrownError e), w1) ->
  isConnectionError e = false ->
  cachedQuery key queryFn ttl w = (Throw (ThrownError e), w1).
Proof.
  intros Hm Hq He. unfold cachedQuery.
  pose proof (cache_get_missing key w Hm) as Hg.
  destruct (cache_get key w) as [g wg] eqn:Eg. cbn [fst snd] in *. subst g.
  rewrite (bind_ok _ _ _ _ _ Eg). apply bind_throw.
  unfold executeWithRetry, defaultRetries. change (Z.to_nat 3) with (S 2).
  now apply retryLoop_terminal.
Qed.

(** X24.  The lookups and updates of the storage facade swallow a failure
    of the store: refused with an error the executor does not retry, they
    answer as if there were no row.  In particular
    [getNextEditionNumber] answers 1 and [checkImageAvailability] answers
    that nothing is available, whatever rows are stored; the two updates
    answer [undefined] and [false] and change nothing.  A lookup reaches
    the store only when the cache has no entry under its key or one whose
    time has passed: an entry that stands is answered from the cache
    without a round trip, as the row it stores or, where it stores
    [undefined], as no row. *)
Theorem storage_reads_fall_back_when_refused
        (id email : string) (e : JsError) (rest : list (option JsError)) (w : World) :
  faults w = Some e :: rest ->
  isConnectionError e = false ->
  (missing ("generated-image:" +:+ id) w ->
   fst (getGeneratedImageById id w) = Ok None
   /\ fst (checkImageAvailability id w) = Ok (mkAvailability false 0))
  /\ (missing ("poster-purchases:" +:+ id) w ->
      fst (getPosterPurchasesByImageId id w) = Ok []
      /\ fst (getNextEditionNumber id w) = Ok 1)
  /\ (missing ("user:" +:+ email) w -> fst (getUserByEmail email w) = Ok None)
  /\ (forall updates,
        fst (updateGeneratedImage id updates w) = Ok None
        /\ store (snd (updateGeneratedImage id updates w)) = store w
        /\ queryCache (snd (updateGeneratedImage id updates w)) = queryCache w)
  /\ (forall updates,
        fst (updateUserSubscriptionStatus email updates w) = Ok false
        /\ store (snd (updateUserSubscriptionStatus email updates w)) = store w
        /\ queryCache (snd (updateUserSubscriptionStatus email updates w)) = queryCache w)
  /\ (forall v t,
        queryCache w !! ("generated-image:" +:+ id) = Some (v, t) ->
        t = 0 \/ clock w <= t ->
        getGeneratedImageById id w = (Ok (asImage v), w))
  /\ (forall v t,
        queryCache w !! ("poster-purchases:" +:+ id) = Some (v, t) ->
        t = 0 \/ clock w <= t ->
        getPosterPurchasesByImageId id w = (Ok (asPurchases v), w))
  /\ (forall v t,
        queryCache w !! ("user:" +:+ email) = Some (v, t) ->
        t = 0 \/ clock w <= t ->
        getUserByEmail email w = (Ok (asUser v), w)).
Proof.
  intros Hf He.
  assert (Hfg : forall key, faults (snd (cache_get key w)) = Some e :: rest).
  { intros key. destruct (cache_get_frame key w) as (_ & -> & _). exact Hf. }
  split; [|split; [|split; [|split; [|split; [|split; [|split]]]]]].
  6:{ intros v t Hl Ht. unfold getGeneratedImageById, tryCatch.
      rewrite (bind_ok _ _ _ _ _ (cachedQuery_hit _ _ 60 w v t Hl Ht)).
      now destruct v. }
  6:{ intros v t Hl Ht. unfold getPosterPurchasesByImageId, tryCatch.
      rewrite (bind_ok _ _ _ _ _ (cachedQuery_hit _ _ 60 w v t Hl Ht)).
      now destruct v. }
  6:{ intros v t Hl Ht. unfold getUserByEmail, tryCatch.
      rewrite (bind_ok _ _ _ _ _ (cachedQuery_hit _ _ 300 w v t Hl Ht)).
      now destruct v. }
  - intros Hm.
    assert (Hget : getGeneratedImageById id w
                   = (Ok None, withFaults (snd (cache_get ("generated-image:" +:+ id) w)) rest)).
    { unfold getGeneratedImageById, tryCatch.
      rewrite (bind_throw _ _ _ (ThrownError e)
                 (withFaults (snd (cache_get ("generated-image:" +:+ id) w)) rest));
        [reflexivity|].
      apply cachedQuery_refused; [exact Hm| |exact He].
      unfold imageByIdQuery. apply bind_throw.
      apply executeWithRetry_refused; [apply db_selectImages_failsWithStore|apply Hfg|exact He]. }
    split; [now rewrite Hget|].
    unfold checkImageAvailability, tryCatch. now rewrite (bind_ok _ _ _ _ _ Hget).
  - intros Hm.
    assert (Hget : getPosterPurchasesByImageId id w
                   = (Ok [], withFaults (snd (cache_get ("poster-purchases:" +:+ id) w)) rest)).
    { unfold getPosterPurchasesByImageId, tryCatch.
      rewrite (bind_throw _ _ _ (ThrownError e)
                 (withFaults (snd (cache_get ("poster-purchases:" +:+ id) w)) rest));
        [reflexivity|].
      apply cachedQuery_refused; [exact Hm| |exact He].
      apply bind_throw.
      apply executeWithRetry_refused;
        [apply db_selectPurchases_failsWithStore|apply Hfg|exact He]. }
    split; [now rewrite Hget|].
    unfold getNextEditionNumber, tryCatch. now rewrite (bind_ok _ _ _ _ _ Hget).
  - intros Hm. unfold getUserByEmail, tryCatch.
    rewrite (bind_throw _ _ _ (ThrownError e)
               (withFaults (snd (cache_get ("user:" +:+ email) w)) rest));
      [reflexivity|].
    apply cachedQuery_refused; [exact Hm| |exact He].
    unfold userByEmailQuery. apply bind_throw.
    apply executeWithRetry_refused; [apply db_selectUsers_failsWithStore|apply Hfg|exact He].
  - intros updates. unfold updateGeneratedImage, tryCatch.
    rewrite (bind_throw _ _ _ _ _
               (executeWithRetry_refused _ w e rest (db_execute_failsWithStore _) Hf He)).
    repeat split.
  - intros updates. unfold updateUserSubscriptionStatus, tryCatch.
    rewrite (bind_throw _ _ _ _ _
               (executeWithRetry_refused _ w e rest (db_execute_failsWithStore _) Hf He)).
    repeat split.
Qed.

Lemma storage_reads_fall_back_when_refused_witness :
  let w := mkWorld (mkDatabase [poster "p1" true (Some 5) (Some 1)] [seller]
                               [mkPurchase 1 "buyer@example.com" "p1" 1 0 (40 # 1)] [] true)
                   [] 0%nat {[ "user:seller@example.com" := (VUndefined, 300000) ]} 0
                   [Some serializationFailure] [] [] in
  (fst (getGeneratedImageById "p1" w) = Ok None
   /\ fst (checkImageAvailability "p1" w) = Ok (mkAvailability false 0))
  /\ (fst (getPosterPurchasesByImageId "p1" w) = Ok []
      /\ fst (getNextEditionNumber "p1" w) = Ok 1)
  /\ getUserByEmail "seller@example.com" w = (Ok None, w).
Proof.
  destruct (storage_reads_fall_back_when_refused
              "p1" "seller@example.com" serializationFailure []
              (mkWorld (mkDatabase [poster "p1" true (Some 5) (Some 1)] [seller]
                          [mkPurchase 1 "buyer@example.com" "p1" 1 0 (40 # 1)] [] true)
                       [] 0%nat {[ "user:seller@example.com" := (VUndefined, 300000) ]} 0
                       [Some serializationFailure] [] [])
              eq_refl eq_refl) as (H1 & H2 & _ & _ & _ & _ & _ & H3).
  split; [exact (H1 I)|]. split; [exact (H2 I)|].
  apply (H3 VUndefined 300000); [reflexivity|]. right. vm_compute. discriminate.
Defined.

(** ** Approval and purchase *)

Lemma purchasePoster_sold_out_or_answer
        (b : PurchaseBody) (shippingData : ShippingData) (draw : Z) (user : User)
        (w : World) (image : GeneratedImage) (rest : list GeneratedImage) :
  req_shippingData b = Some shippingData ->
  req_imageId b <> "" ->
  missingField shippingData = None ->
  faults w = [] ->
  pending w = [] ->
  selectImages (req_imageId b) (store w) = image :: rest ->
  img_isPublic image = true ->
  (uniqueEditions (store w) = true ->
   existsb (sameEdition (req_imageId b) (or_default (img_soldCount image) 0 + 1))
           (posterPurchases (store w)) = false) ->
  fst (purchasePoster b draw user w)
  = if or_default (img_totalSupply image) 10 <=? or_default (img_soldCount image) 0
    then SoldOut
    else json (BodyPurchase draw (or_default (img_soldCount image) 0 + 1)
                            (img_totalSupply image)
                            (or_defaultQ (img_pricePerUnit image) priceFloor)
                            (nextPurchaseId (store w))).
Proof.
  intros Hship Hid Hmiss Hf Hp Hsel Hpub Hu.
  pose proof (purchasePoster_answered b shippingData draw user w image rest [] _
                Hship Hid Hmiss (or_introl (conj Hf eq_refl)) (List.Forall_nil _)
                ltac:(simpl; lia) Hp Hsel Hpub eq_refl Hu) as H.
  cbv zeta in H. destruct H as [_ H].
  destruct (or_default (img_totalSupply image) 10 <=? or_default (img_soldCount image) 0);
    now destruct H.
Qed.

(** X25.  [PATCH /api/admin/images/:id/approve] sets [isApproved] on the
    rows with that id and nothing else, and the purchase handler never
    looks at it: a purchase is answered the same whether or not the
    artifact has been approved first.  An artifact that is published but
    still waiting for review can be bought. *)
Theorem approval_has_no_bearing_on_purchase
        (token id : string) (b : PurchaseBody) (shippingData : ShippingData)
        (draw : Z) (user : User) (w : World) :
  token <> "" ->
  faults w = [] ->
  pending w = [] ->
  req_imageId b = id ->
  id <> "" ->
  req_shippingData b = Some shippingData ->
  missingField shippingData = None ->
  (forall image rest,
      selectImages id (store w) = image :: rest ->
      uniqueEditions (store w) = true ->
      existsb (sameEdition id (or_default (img_soldCount image) 0 + 1))
              (posterPurchases (store w)) = false) ->
  let w1 := snd (requireAdminAuth token (adminApprove id) w) in
  generatedImages (store w1)
  = updateWhere (fun i => String.eqb (img_id i) id) (applyImageUpdate approveUpdate)
                (generatedImages (store w))
  /\ users (store w1) = users (store w)
  /\ posterPurchases (store w1) = posterPurchases (store w)
  /\ map img_isPublic (generatedImages (store w1))
     = map img_isPublic (generatedImages (store w))
  /\ fst (purchasePoster b draw user w1) = fst (purchasePoster b draw user w).
Proof.
  intros Ht Hf Hp Hb Hid Hship Hmiss Hu w1. subst w1 id.
  assert (Happ : snd (requireAdminAuth token (adminApprove (req_imageId b)) w)
                 = withStore w (withImages (store w)
                     (updateWhere (fun i => String.eqb (img_id i) (req_imageId b))
                                  (applyImageUpdate approveUpdate)
                                  (generatedImages (store w))))).
  { unfold requireAdminAuth. destruct (String.eqb_spec token "") as [E|_]; [contradiction|].
    unfold adminApprove, moderate, db_execute. rewrite (roundTrip_quiet w Hf).
    cbn [execute store withStore withFaults].
    match goal with |- context [selectImages ?i ?d] => destruct (selectImages i d) end;
      reflexivity. }
  rewrite Happ. set (w1 := withStore w _).
  split; [reflexivity|]. split; [reflexivity|]. split; [reflexivity|]. split.
  { cbn [store w1 withStore generatedImages withImages].
    now rewrite map_updateWhere by reflexivity. }
  destruct (selectImages (req_imageId b) (store w)) as [|image rest] eqn:Hsel.
  - assert (Hsel1 : selectImages (req_imageId b) (store w1) = []).
    { unfold selectImages in *. cbn [store w1 withStore generatedImages withImages].
      now rewrite filter_images_after_update, Hsel by reflexivity. }
    destruct (proj1 (purchasePoster_unlisted b shippingData draw user w1
                       Hship Hid Hmiss Hf Hp) Hsel1) as [-> _].
    destruct (proj1 (purchasePoster_unlisted b shippingData draw user w
                       Hship Hid Hmiss Hf Hp) Hsel) as [-> _].
    reflexivity.
  - pose proof (head_updateWhere (req_imageId b) approveUpdate (store w) image rest Hsel)
      as Hsel1.
    change (selectImages (req_imageId b) (store w1)
            = applyImageUpdate approveUpdate image
              :: map (applyImageUpdate approveUpdate) rest) in Hsel1.
    destruct (img_isPublic image) eqn:Hpub.
    + rewrite (purchasePoster_sold_out_or_answer b shippingData draw user w1 _ _
                 Hship Hid Hmiss Hf Hp Hsel1 Hpub (Hu image rest eq_refl)).
      rewrite (purchasePoster_sold_out_or_answer b shippingData draw user w _ _
                 Hship Hid Hmiss Hf Hp Hsel Hpub (Hu image rest eq_refl)).
      reflexivity.
    + destruct (proj2 (purchasePoster_unlisted b shippingData draw user w1
                         Hship Hid Hmiss Hf Hp) _ _ Hsel1 Hpub) as [-> _].
      destruct (proj2 (purchasePoster_unlisted b shippingData draw user w
                         Hship Hid Hmiss Hf Hp) _ _ Hsel Hpub) as [-> _].
      reflexivity.
Qed.

Lemma approval_has_no_bearing_on_purchase_witness :
  let pending_review :=
    mkImage "p1" "seller@example.com" "users/seller/generated/p1.png"
            "users/seller/original/p1.png" "risograph" None None None
            true false (Some "flat") None (Some 5) (Some 0) (Some (40 # 1)) in
  let w := worldOf (shopOf [pending_review] true) [] in
  let w1 := snd (requireAdminAuth "session" (adminApprove "p1") w) in
  generatedImages (store w1) = [poster "p1" true (Some 5) (Some 0)]
  /\ users (store w1) = users (store w)
  /\ posterPurchases (store w1) = posterPurchases (store w)
  /\ map img_isPublic (generatedImages (store w1)) = [true]
  /\ fst (purchasePoster buyerOrder 123456 buyer w1)
     = fst (purchasePoster buyerOrder 123456 buyer w).
Proof.
  apply (approval_has_no_bearing_on_purchase
           "session" "p1" buyerOrder toBuyer 123456 buyer
           (worldOf (shopOf [mkImage "p1" "seller@example.com"
                               "users/seller/generated/p1.png"
                               "users/seller/original/p1.png" "risograph" None None None
                               true false (Some "flat") None (Some 5) (Some 0)
                               (Some (40 # 1))] true) []));
    try reflexivity; try discriminate.
Defined.
